(** * Homunculus: semantic routing core

    A shallow embedding of the routing engine of the homunculus
    repository: the similarity arithmetic ([semantic-utils.ts],
    [signal.ts]), the adaptive synapse ([signal-synapse.ts]), the
    equilibrium detector ([equilibrium-detector.ts]) and the router
    ([biosphere.ts]).

    Conventions of the embedding.
    - A JavaScript [number] is a real number ([R]).  Counters that only
      ever hold array lengths or are incremented from zero are [nat] or
      [Z] and enter the arithmetic through [INR] / [IZR].
    - A [Map] is an association list in insertion order, so that
      iteration order ([values()]) is part of the state.
    - Asynchronous methods run on a single coordinator; they are
      functions from the state to an outcome and a new state.  A
      rejected promise or a thrown exception is the outcome [Thrown].
    - The language-model backend, the clock and the id generator are
      oracles (section variables); every backend call is recorded in
      the trace of the world, whether it succeeds or not. *)

From Stdlib Require Import String.
From Stdlib Require Import Reals Lra Lia Psatz ZArith Bool Arith List.
Import ListNotations.

Local Open Scope string_scope.
Local Open Scope list_scope.

Definition number := R.

(** ** Arrays *)

Module JsArray.

(** Relative index of [Array.prototype.slice]: a negative index counts
    from the end, and the result is clamped to [0, len]. *)
Definition relative_index (len i : Z) : Z :=
  if (i <? 0)%Z then Z.max (len + i) 0 else Z.min i len.

(** [arr.slice(start, end)]; [end_ = None] is the one-argument call. *)
Definition slice {A : Type} (arr : list A) (start : Z) (end_ : option Z) : list A :=
  let len := Z.of_nat (length arr) in
  let k := relative_index len start in
  let final := match end_ with
               | None => len
               | Some e => relative_index len e
               end in
  firstn (Z.to_nat (final - k)) (skipn (Z.to_nat k) arr).

(** [arr.length] as an integer. *)
Definition len {A : Type} (arr : list A) : Z := Z.of_nat (length arr).

(** [arr.join(sep)] on an array of strings. *)
Definition join (sep : string) (arr : list string) : string := String.concat sep arr.

End JsArray.

(** ** Maps

    [Map<string, V>]: keys are unique, iteration follows insertion
    order, [set] on a present key keeps its position. *)

Module JsMap.
Section WithValue.
Context {V : Type}.

Definition t := list (string * V).

Definition empty : t := [].

Fixpoint get (k : string) (m : t) : option V :=
  match m with
  | [] => None
  | (k', v) :: m' => if String.eqb k k' then Some v else get k m'
  end.

Definition has (k : string) (m : t) : bool :=
  match get k m with
  | Some _ => true
  | None => false
  end.

Fixpoint set (k : string) (v : V) (m : t) : t :=
  match m with
  | [] => [(k, v)]
  | (k', v') :: m' =>
      if String.eqb k k' then (k, v) :: m' else (k', v') :: set k v m'
  end.

Definition delete (k : string) (m : t) : t :=
  filter (fun kv => negb (String.eqb k (fst kv))) m.

Definition values (m : t) : list V := map snd m.

Definition keys (m : t) : list string := map fst m.

End WithValue.
Arguments t : clear implicits.
End JsMap.

Local Open Scope R_scope.

(** ** Similarity arithmetic ([semantic-utils.ts]) *)

Module SemanticUtils.

(** The three accumulators of the loop in [cosineSimilarity]. *)
Definition accumulate (a b : list number) : number * number * number :=
  fold_left
    (fun '(dotProduct, magnitudeA, magnitudeB) '(x, y) =>
       (dotProduct + x * y, magnitudeA + x * x, magnitudeB + y * y))
    (combine a b) (0, 0, 0).

(** Lenient cosine similarity: empty or unequal vectors give 0. *)
Definition cosineSimilarity (a b : list number) : number :=
  if ((length a =? 0)%nat || (length b =? 0)%nat || negb (length a =? length b)%nat)%bool
  then 0
  else
    let '(dotProduct, magnitudeA, magnitudeB) := accumulate a b in
    let magnitude := sqrt magnitudeA * sqrt magnitudeB in
    if Req_dec_T magnitude 0 then 0 else dotProduct / magnitude.

End SemanticUtils.

(** Comparisons of numbers as booleans, as they appear in conditions. *)

Definition gtb (x y : number) : bool := if Rgt_dec x y then true else false.
Definition ltb (x y : number) : bool := if Rlt_dec x y then true else false.

(** [Math.max(0, Math.min(1, x))] *)
Definition clamp01 (x : number) : number := Rmax 0 (Rmin 1 x).

(** ** Signals and receptor fields ([signal.ts]) *)

Record Signal := mkSignal {
  signal_id : string;
  thought : string;
  emittedBy : string;
  pheromone : list number;
  timestamp : number;
  inferredIntent : option string;
  inferredTags : option (list string)
}.

Record ReceptorField := mkReceptorField {
  patterns : list string;
  threshold : option number
}.

(** The router-visible part of an [OrganicAgent]: its identity and its
    receptor field.  What an agent does with a perceived signal is its
    own business; the router's call of [perceive] is an event. *)
Record OrganicAgent := mkAgent {
  agent_id : string;
  agent_name : string;
  receptorField : ReceptorField
}.

Record ChatMessage := mkChatMessage {
  role : string;
  content : string
}.

(** ** The world outside the coordinator *)

Inductive Error :=
| BackendFailure
| DimensionMismatch (la lb : nat)
| CollaboratorFailure.

Inductive Notification :=
| onAgentBorn (agent : OrganicAgent) (tick : Z)
| onSignalEmitted (signal : Signal) (tick : Z)
| onSignalRouted (signal : Signal) (receivers : list OrganicAgent) (tick : Z)
| onAgentSpawned (agent : OrganicAgent) (trigger : Signal) (tick : Z).

Inductive Event :=
| EmbedCall (text : string)
| ChatCall (messages : list ChatMessage)
| Perceive (receiver : OrganicAgent) (signal : Signal)
| Notify (notification : Notification).

Record World := mkWorld {
  trace : list Event;
  clockReads : nat
}.

Definition record_event (e : Event) (w : World) : World :=
  mkWorld (trace w ++ [e]) (clockReads w).

Definition is_backend_call (e : Event) : bool :=
  match e with
  | EmbedCall _ | ChatCall _ => true
  | _ => false
  end.

Definition is_embed_call (e : Event) : bool :=
  match e with
  | EmbedCall _ => true
  | _ => false
  end.

Definition backend_calls (tr : list Event) : list Event := filter is_backend_call tr.

Definition embed_calls (tr : list Event) : list Event := filter is_embed_call tr.

(** The signals handed to [perceive], with their receivers, in order. *)
Fixpoint deliveries (tr : list Event) : list (OrganicAgent * Signal) :=
  match tr with
  | [] => []
  | Perceive a s :: tr' => (a, s) :: deliveries tr'
  | _ :: tr' => deliveries tr'
  end.

(** ** Outcomes and the coordinator monad *)

Inductive Outcome (A : Type) :=
| Returned (a : A)
| Thrown (e : Error).
Arguments Returned {A} a.
Arguments Thrown {A} e.

Definition M (St A : Type) : Type := St -> Outcome A * St.

Definition ret {St A} (a : A) : M St A := fun s => (Returned a, s).

Definition throw {St A} (e : Error) : M St A := fun s => (Thrown e, s).

Definition bind {St A B} (m : M St A) (k : A -> M St B) : M St B :=
  fun s =>
    match m s with
    | (Returned a, s') => k a s'
    | (Thrown e, s') => (Thrown e, s')
    end.

(** [try { body } catch (error) { handler }]: state changes made by the
    body before it threw stay. *)
Definition try_catch {St A} (body : M St A) (handler : Error -> M St A) : M St A :=
  fun s =>
    match body s with
    | (Returned a, s') => (Returned a, s')
    | (Thrown e, s') => handler e s'
    end.

Definition get_state {St} : M St St := fun s => (Returned s, s).

Definition modify {St} (f : St -> St) : M St unit := fun s => (Returned tt, f s).

(** Run a computation on the world inside a component that owns some
    state of its own next to the world. *)
Definition in_world {S A} (m : M World A) : M (S * World) A :=
  fun '(s, w) => let '(r, w') := m w in (r, (s, w')).

Definition on_self {S} (f : S -> S) : M (S * World) unit :=
  fun '(s, w) => (Returned tt, (f s, w)).

Definition self {S} : M (S * World) S :=
  fun '(s, w) => (Returned s, (s, w)).

Declare Scope monad_scope.
Delimit Scope monad_scope with monad.
Notation "x <- c ;; k" := (bind c (fun x => k))
  (at level 61, c at next level, right associativity) : monad_scope.
Notation "c ;; k" := (bind c (fun _ => k))
  (at level 61, right associativity) : monad_scope.

(** [for (const x of xs) await body(x)] *)
Fixpoint for_each {St A} (xs : list A) (body : A -> M St unit) : M St unit :=
  match xs with
  | [] => ret tt
  | x :: xs' => bind (body x) (fun _ => for_each xs' body)
  end.

(** A computation keeps a part [f] of the state when, whatever its
    outcome, that part is the same afterwards. *)
Definition keeps {St X A} (f : St -> X) (m : M St A) : Prop :=
  forall s r s', m s = (r, s') -> f s' = f s.

(** The deliveries made so far, as a part of the state of a component. *)
Definition delivered {S} (s : S * World) : list (OrganicAgent * Signal) :=
  deliveries (trace (snd s)).

(** Oracles of the world: the clock and the calls of the backend. *)
Section WorldOperations.
Variable Date_now : nat -> number.
Variable llm_embed : list Event -> string -> option (list number).
Variable llm_chat : list Event -> list ChatMessage -> option string.

(** [Date.now()]: the n-th reading of the clock. *)
Definition now : M World number :=
  fun w => (Returned (Date_now (clockReads w)), mkWorld (trace w) (S (clockReads w))).

(** [await llm.embed(text)] *)
Definition embed (text : string) : M World (list number) :=
  fun w =>
    match llm_embed (trace w) text with
    | Some vector => (Returned vector, record_event (EmbedCall text) w)
    | None => (Thrown BackendFailure, record_event (EmbedCall text) w)
    end.

(** [await llm.chat(messages)] *)
Definition chat (messages : list ChatMessage) : M World string :=
  fun w =>
    match llm_chat (trace w) messages with
    | Some reply => (Returned reply, record_event (ChatCall messages) w)
    | None => (Thrown BackendFailure, record_event (ChatCall messages) w)
    end.

(** [await receiver.perceive(signal)] *)
Definition perceive (receiver : OrganicAgent) (signal : Signal) : M World unit :=
  fun w => (Returned tt, record_event (Perceive receiver signal) w).

(** [this.observer?.callback?.(...)] *)
Definition notify (n : Notification) : M World unit :=
  fun w => (Returned tt, record_event (Notify n) w).

End WorldOperations.

(** Backends for concrete runs: one that is down, and one that always
    gives the same answer. *)
Definition chat_down : list Event -> list ChatMessage -> option string :=
  fun _ _ => None.

Definition chat_fixed (reply : string) : list Event -> list ChatMessage -> option string :=
  fun _ _ => Some reply.

Definition embed_down : list Event -> string -> option (list number) :=
  fun _ _ => None.

Definition embed_fixed (vector : list number) : list Event -> string -> option (list number) :=
  fun _ _ => Some vector.

Definition initial_world : World := mkWorld [] 0.

Definition newline : string := String (Ascii.ascii_of_nat 10) EmptyString.
Definition dquote : string := String (Ascii.ascii_of_nat 34) EmptyString.

(** A string or [undefined] used as a condition: [undefined] and the
    empty string are falsy. *)
Definition truthy (value : option string) : option string :=
  match value with
  | Some s => if String.eqb s EmptyString then None else Some s
  | None => None
  end.

(** ** The adaptive synapse ([signal-synapse.ts]) *)

Module Synapse.

Record SynapticStrength := mkStrength {
  baseSimilarity : number;
  activations : nat;
  efficacy : number;
  confidence : number;
  conductionTime : number;
  lastFiring : number
}.

Record SignalSynapseConfig := mkConfig {
  config_from : string;
  config_to : string;
  config_baseSimilarity : number;
  config_fromContext : list string;
  config_toContext : list string
}.

(** The synapse object: its public fields and the two things its
    closure captures, the contexts and the memo table. *)
Record SignalSynapse := mkSynapse {
  synapse_id : string;
  from : string;
  to : string;
  strength : SynapticStrength;
  fromContext : list string;
  toContext : list string;
  synapticMemory : JsMap.t string
}.

Definition sigmoid (x : number) : number := 1 / (1 + exp (- x)).

Definition calculateConfidence (activations efficacy : number) : number :=
  if Req_dec_T activations 0 then 0
  else
    let logActivations := ln (activations + 1) in
    sigmoid (logActivations - 2) * efficacy.

Definition createSignalSynapse (config : SignalSynapseConfig) : SignalSynapse :=
  let strength := mkStrength (config_baseSimilarity config) 0 1 0 0 0 in
  mkSynapse (config_from config ++ "→" ++ config_to config)%string
            (config_from config) (config_to config)
            strength
            (config_fromContext config) (config_toContext config)
            JsMap.empty.

(** Field updates of the mutable [strength] record. *)
Definition increment_activations (s : SynapticStrength) : SynapticStrength :=
  mkStrength (baseSimilarity s) (S (activations s)) (efficacy s) (confidence s)
             (conductionTime s) (lastFiring s).

Definition set_efficacy (v : number) (s : SynapticStrength) : SynapticStrength :=
  mkStrength (baseSimilarity s) (activations s) v (confidence s)
             (conductionTime s) (lastFiring s).

Definition set_confidence (v : number) (s : SynapticStrength) : SynapticStrength :=
  mkStrength (baseSimilarity s) (activations s) (efficacy s) v
             (conductionTime s) (lastFiring s).

Definition set_conductionTime (v : number) (s : SynapticStrength) : SynapticStrength :=
  mkStrength (baseSimilarity s) (activations s) (efficacy s) (confidence s)
             v (lastFiring s).

Definition set_lastFiring (v : number) (s : SynapticStrength) : SynapticStrength :=
  mkStrength (baseSimilarity s) (activations s) (efficacy s) (confidence s)
             (conductionTime s) v.

Definition update_strength (f : SynapticStrength -> SynapticStrength)
           (syn : SignalSynapse) : SignalSynapse :=
  mkSynapse (synapse_id syn) (from syn) (to syn) (f (strength syn))
            (fromContext syn) (toContext syn) (synapticMemory syn).

Definition remember (source transformed : string) (syn : SignalSynapse) : SignalSynapse :=
  mkSynapse (synapse_id syn) (from syn) (to syn) (strength syn)
            (fromContext syn) (toContext syn)
            (JsMap.set source transformed (synapticMemory syn)).

(** [{ ...signal, thought: t, emittedBy: from }] *)
Definition retarget (signal : Signal) (t : string) (author : string) : Signal :=
  mkSignal (signal_id signal) t author (pheromone signal) (timestamp signal)
           (inferredIntent signal) (inferredTags signal).

Definition transform_messages (syn : SignalSynapse) (signal : Signal) : list ChatMessage :=
  [ mkChatMessage "system"
      (JsArray.join newline
         [ "You adapt signals between agents with different vocabularies.";
           EmptyString;
           ("Source context: " ++ JsArray.join ", " (fromContext syn))%string;
           ("Target context: " ++ JsArray.join ", " (toContext syn))%string;
           EmptyString;
           "Reformulate to resonate with target while preserving meaning.";
           "Natural, concise (2-4 sentences)." ]);
    mkChatMessage "user" ("Transform: " ++ dquote ++ thought signal ++ dquote)%string ].


(** [synapse.shouldPrune(now, pruneThreshold)] *)
Definition shouldPrune (syn : SignalSynapse) (now pruneThreshold : number) : bool :=
  if (activations (strength syn) =? 0)%nat then true
  else
    let timeSinceLastFiring := now - lastFiring (strength syn) in
    let decayTime := pruneThreshold in
    gtb timeSinceLastFiring decayTime && ltb (efficacy (strength syn)) 0.3.

Section Transform.
Variable Date_now : nat -> number.
Variable llm_chat : list Event -> list ChatMessage -> option string.

Local Open Scope monad_scope.

Definition refresh_confidence : M (SignalSynapse * World) unit :=
  on_self (update_strength (fun s =>
    set_confidence (calculateConfidence (INR (activations s)) (efficacy s)) s)).

(** [synapse.transform(signal)] *)
Definition transform (signal : Signal) : M (SignalSynapse * World) Signal :=
  firingStart <- in_world (now Date_now) ;;
  syn <- self ;;
  let cached := JsMap.get (thought signal) (synapticMemory syn) in
  match truthy cached with
  | Some cached =>
      on_self (update_strength increment_activations) ;;
      t <- in_world (now Date_now) ;;
      on_self (update_strength (set_lastFiring t)) ;;
      refresh_confidence ;;
      ret (retarget signal cached (from syn))
  | None =>
      try_catch
        (transformed <- in_world (chat llm_chat (transform_messages syn signal)) ;;
         t <- in_world (now Date_now) ;;
         let firingTime := t - firingStart in
         on_self (update_strength increment_activations) ;;
         on_self (update_strength (fun s =>
           set_efficacy
             ((efficacy s * (INR (activations s) - 1) + 1) / INR (activations s)) s)) ;;
         on_self (update_strength (fun s =>
           set_conductionTime
             ((conductionTime s * (INR (activations s) - 1) + firingTime)
              / INR (activations s)) s)) ;;
         t' <- in_world (now Date_now) ;;
         on_self (update_strength (set_lastFiring t')) ;;
         refresh_confidence ;;
         on_self (remember (thought signal) transformed) ;;
         ret (retarget signal transformed (from syn)))
        (fun error =>
           on_self (update_strength increment_activations) ;;
           on_self (update_strength (fun s =>
             set_efficacy
               ((efficacy s * (INR (activations s) - 1) + 0) / INR (activations s)) s)) ;;
           refresh_confidence ;;
           ret signal)
  end.

End Transform.

(** The reading of a memory recall as a transmission that enters the
    running means: the update the backend path of [transform] applies
    after a reply, with the outcome [success] (1 or 0), the measured
    latency [firingTime] and the clock reading [t].  A recall recorded
    as a zero-latency transmission at full success would be
    [transmission_recorded 1 0 t]. *)
Definition transmission_recorded (success firingTime t : number)
           (s : SynapticStrength) : SynapticStrength :=
  let n := S (activations s) in
  let efficacy' := (efficacy s * (INR n - 1) + success) / INR n in
  mkStrength (baseSimilarity s) n efficacy'
             (calculateConfidence (INR n) efficacy')
             ((conductionTime s * (INR n - 1) + firingTime) / INR n)
             t.

(** Concrete data for runs of a synapse. *)
Definition example_config : SignalSynapseConfig :=
  mkConfig "ceo" "engineer" 0.6 ["strategy"; "revenue"] ["latency"; "throughput"].

Definition example_signal : Signal :=
  mkSignal "signal-1" "We must ship on Friday" "ceo" [1; 0] 0 None None.

(** A clock that advances by 100 ms at its second reading. *)
Definition example_clock : nat -> number :=
  fun n => match n with O => 0 | _ => 100 end.

End Synapse.


(** [await Promise.all(tasks)]: every task is started, in order; the
    result is the list of values unless some task failed. *)
Fixpoint promise_all {St A} (tasks : list (M St A)) : M St (list A) :=
  match tasks with
  | [] => ret []
  | task :: rest =>
      fun s =>
        let '(r, s1) := task s in
        let '(rs, s2) := promise_all rest s1 in
        (match r, rs with
         | Returned a, Returned l => Returned (a :: l)
         | Thrown e, _ => Thrown e
         | Returned _, Thrown e => Thrown e
         end, s2)
  end.

(** The result of a division whose divisor may be zero: JavaScript
    gives an infinity or NaN there, and no real number stands for
    those. *)
Inductive Quotient :=
| Finite (x : number)
| Infinity
| NaN.

Definition divide (x y : number) : Quotient :=
  if Req_dec_T y 0 then (if Req_dec_T x 0 then NaN else Infinity)
  else Finite (x / y).

(** [Math.abs(q) < bound] and [Math.abs(q) >= bound] for a positive
    bound: NaN fails both, an infinity only passes the second. *)
Definition abs_below (q : Quotient) (bound : number) : bool :=
  match q with
  | Finite x => ltb (Rabs x) bound
  | Infinity | NaN => false
  end.

Definition abs_at_least (q : Quotient) (bound : number) : bool :=
  match q with
  | Finite x => negb (ltb (Rabs x) bound)
  | Infinity => true
  | NaN => false
  end.

(** ** The equilibrium detector ([equilibrium-detector.ts]) *)

Module Equilibrium.

Inductive PrimaryIssue := SystemConverging | EnergyTooHigh | Stabilizing.

(** The content of the [reasoning] string, before formatting. *)
Inductive Reasoning :=
| InsufficientSignalHistory
| EarlyDialogue (currentTick : Z) (minTicks : number)
| ExplainedEquilibrium (energy : number) (gradient : Quotient)
                       (tension coherence clarity : number)
| ExplainedUnrest (issue : PrimaryIssue) (energy : number) (gradient : Quotient)
                  (stagnantMarker : bool)
                  (tension momentum coherence clarity : number).

Record EquilibriumState := mkState {
  atEquilibrium : bool;
  goalTension : number;
  momentum : number;
  coherence : number;
  decisionClarity : number;
  isStagnant : bool;
  reasoning : Reasoning
}.

Record EquilibriumDetectorConfig := mkDetectorConfig {
  config_minSignalWindow : option number;
  config_minTicks : option number;
  config_tensionThreshold : option number;
  config_momentumThreshold : option number;
  config_coherenceThreshold : option number;
  config_clarityThreshold : option number
}.

Record StagnationEntry := mkEntry {
  entry_tick : Z;
  entry_tension : number;
  entry_coherence : number;
  entry_clarity : number
}.

Record EquilibriumDetector := mkDetector {
  minSignalWindow : number;
  minTicks : number;
  tensionThreshold : number;
  momentumThreshold : number;
  coherenceThreshold : number;
  clarityThreshold : number;
  idealStateCache : JsMap.t (list number);
  currentTick : Z;
  stagnationHistory : list StagnationEntry
}.

Definition signalWindowSize : Z := 10.
Definition stagnationWindowSize : Z := 5.

(** [value ?? fallback] *)
Definition or_default (value : option number) (fallback : number) : number :=
  match value with
  | Some v => v
  | None => fallback
  end.

(** [new EquilibriumDetector(config)] *)
Definition new_EquilibriumDetector (config : EquilibriumDetectorConfig) : EquilibriumDetector :=
  mkDetector (or_default (config_minSignalWindow config) 5)
             (or_default (config_minTicks config) 5)
             (or_default (config_tensionThreshold config) 0.3)
             (or_default (config_momentumThreshold config) 0.2)
             (or_default (config_coherenceThreshold config) 0.7)
             (or_default (config_clarityThreshold config) 0.6)
             JsMap.empty 0 [].

Definition increment_currentTick (d : EquilibriumDetector) : EquilibriumDetector :=
  mkDetector (minSignalWindow d) (minTicks d) (tensionThreshold d) (momentumThreshold d)
             (coherenceThreshold d) (clarityThreshold d)
             (idealStateCache d) (currentTick d + 1)%Z (stagnationHistory d).

Definition cache_idealState (scenario : string) (embedding : list number)
           (d : EquilibriumDetector) : EquilibriumDetector :=
  mkDetector (minSignalWindow d) (minTicks d) (tensionThreshold d) (momentumThreshold d)
             (coherenceThreshold d) (clarityThreshold d)
             (JsMap.set scenario embedding (idealStateCache d))
             (currentTick d) (stagnationHistory d).

Definition set_stagnationHistory (h : list StagnationEntry)
           (d : EquilibriumDetector) : EquilibriumDetector :=
  mkDetector (minSignalWindow d) (minTicks d) (tensionThreshold d) (momentumThreshold d)
             (coherenceThreshold d) (clarityThreshold d)
             (idealStateCache d) (currentTick d) h.

(** [calculateEnergy] *)
Definition calculateEnergy (tension momentum coherence clarity : number) : number :=
  let w_tension := 0.4 in
  let w_momentum := 0.1 in
  let w_coherence := 0.3 in
  let w_clarity := 0.2 in
  let energy :=
    w_tension * tension + w_momentum * momentum
    + w_coherence * (1 - coherence) + w_clarity * (1 - clarity) in
  clamp01 energy.

(** The similarities summed by the double loop of [measureCoherence],
    in the order the loop visits the pairs [i < j].  Every signal of a
    typed history carries a pheromone, so no pair is skipped. *)
Fixpoint pairwise_similarities (signals : list Signal) : list number :=
  match signals with
  | [] => []
  | s :: rest =>
      map (fun s' => SemanticUtils.cosineSimilarity (pheromone s) (pheromone s')) rest
      ++ pairwise_similarities rest
  end.

(** [measureCoherence] *)
Definition measureCoherence (recentSignals : list Signal) : number :=
  if (length recentSignals <? 2)%nat then 0
  else
    let similarities := pairwise_similarities recentSignals in
    let totalSimilarity := fold_left Rplus similarities 0 in
    let pairCount := length similarities in
    let avgCoherence :=
      if (0 <? pairCount)%nat then totalSimilarity / INR pairCount else 0 in
    clamp01 avgCoherence.

(** [calculateEnergyGradient] *)
Definition calculateEnergyGradient (d : EquilibriumDetector) (signals : list Signal) : Quotient :=
  if ltb (IZR (JsArray.len signals)) (minSignalWindow d * 2) then Finite 1
  else
    let windowSize := (JsArray.len signals / 3)%Z in
    let recentSignals := JsArray.slice signals (- windowSize)%Z None in
    let previousSignals :=
      JsArray.slice signals (- (windowSize * 2))%Z (Some (- windowSize)%Z) in
    let recentCoherence := measureCoherence recentSignals in
    let previousCoherence := measureCoherence previousSignals in
    let energyRecent := 1 - recentCoherence in
    let energyPrevious := 1 - previousCoherence in
    divide (energyRecent - energyPrevious) (IZR windowSize).

(** [measureMomentum] *)
Definition measureMomentum (d : EquilibriumDetector)
           (allSignals recentSignals : list Signal) : number :=
  if ltb (IZR (JsArray.len allSignals)) (minSignalWindow d * 2) then 1
  else
    let windowSize := (JsArray.len allSignals / 2)%Z in
    let recentWindow := JsArray.slice allSignals (- windowSize)%Z None in
    let previousWindow :=
      JsArray.slice allSignals (- (windowSize * 2))%Z (Some (- windowSize)%Z) in
    let recentCount := JsArray.len recentWindow in
    let previousCount := JsArray.len previousWindow in
    let rawMomentum :=
      if (0 <? previousCount)%Z then IZR recentCount / IZR previousCount else 1 in
    let momentum := Rmin rawMomentum 2 / 2 in
    clamp01 momentum.

(** [detectStagnation] *)
Definition detectStagnation (d : EquilibriumDetector) : bool :=
  if (JsArray.len (stagnationHistory d) <? stagnationWindowSize)%Z then false
  else
    let recentHistory :=
      JsArray.slice (stagnationHistory d) (- stagnationWindowSize)%Z None in
    let allHighTension := forallb (fun h => gtb (entry_tension h) 0.7) recentHistory in
    let allLowCoherence := forallb (fun h => ltb (entry_coherence h) 0.3) recentHistory in
    let allLowClarity := forallb (fun h => ltb (entry_clarity h) 0.3) recentHistory in
    allHighTension && (allLowCoherence || allLowClarity).

(** [explainState] *)
Definition explainState (tension momentum coherence clarity energy : number)
           (gradient : Quotient) (atEquilibrium isStagnant : bool) : Reasoning :=
  let stagnantMarker := isStagnant in
  if atEquilibrium then ExplainedEquilibrium energy gradient tension coherence clarity
  else
    let primaryIssue :=
      if abs_at_least gradient 0.1 then SystemConverging
      else if negb (ltb energy 0.35) then EnergyTooHigh
      else Stabilizing in
    ExplainedUnrest primaryIssue energy gradient stagnantMarker
                    tension momentum coherence clarity.

Definition decisionAnchors : list string :=
  [ "We have made a final decision and will proceed with this course of action";
    "The conclusion is clear and we agree on the path forward";
    "After careful consideration, we have reached a definitive resolution";
    "The plan is settled and we know exactly what to do next" ].

Definition idealState_messages (scenario : string) : list ChatMessage :=
  [ mkChatMessage "system"
      (JsArray.join newline
         [ "You extract the IDEAL END STATE from a scenario.";
           EmptyString;
           "Given a problem/scenario, describe what a SATISFIED state looks like:";
           ("- What would it mean for this problem to be " ++ dquote ++ "resolved"
              ++ dquote ++ "?")%string;
           "- What outcome would reduce the tension to zero?";
           ("- What does " ++ dquote ++ "finished thinking" ++ dquote ++ " look like?")%string;
           EmptyString;
           "Be specific but concise (1-2 sentences)." ]);
    mkChatMessage "user"
      ("Scenario: " ++ scenario ++ newline ++ newline
         ++ "What is the ideal end state that would satisfy this problem?")%string ].

Section Detector.
Variable llm_embed : list Event -> string -> option (list number).
Variable llm_chat : list Event -> list ChatMessage -> option string.

Local Open Scope monad_scope.

(** [extractIdealState] *)
Definition extractIdealState (scenario : string) : M (EquilibriumDetector * World) string :=
  d <- self ;;
  if JsMap.has scenario (idealStateCache d) then
    let cached := JsMap.get scenario (idealStateCache d) in
    ret scenario
  else
    response <- in_world (chat llm_chat (idealState_messages scenario)) ;;
    embedding <- in_world (embed llm_embed response) ;;
    on_self (cache_idealState scenario embedding) ;;
    ret response.

(** [measureGoalTension] *)
Definition measureGoalTension (idealState : string) (recentSignals : list Signal)
  : M World number :=
  if (length recentSignals =? 0)%nat then ret 1
  else
    idealEmbedding <- embed llm_embed idealState ;;
    let currentStateText := JsArray.join " " (map thought recentSignals) in
    currentEmbedding <- embed llm_embed currentStateText ;;
    let similarity := SemanticUtils.cosineSimilarity idealEmbedding currentEmbedding in
    let tension := 1 - similarity in
    ret (clamp01 tension).

(** [measureDecisionClarity] *)
Definition measureDecisionClarity (recentSignals : list Signal) : M World number :=
  if (length recentSignals =? 0)%nat then ret 0
  else
    anchorEmbeddings <- promise_all (map (embed llm_embed) decisionAnchors) ;;
    let maxClarity :=
      fold_left
        (fun maxClarity signal =>
           fold_left
             (fun maxClarity anchorEmb =>
                let similarity :=
                  SemanticUtils.cosineSimilarity (pheromone signal) anchorEmb in
                Rmax maxClarity similarity)
             anchorEmbeddings maxClarity)
        recentSignals 0 in
    ret maxClarity.

(** [this.stagnationHistory.push(entry)], then [shift()] once the
    window is exceeded. *)
Definition track_stagnation (entry : StagnationEntry) (d : EquilibriumDetector)
  : EquilibriumDetector :=
  let pushed := stagnationHistory d ++ [entry] in
  if (stagnationWindowSize <? JsArray.len pushed)%Z
  then set_stagnationHistory (tl pushed) d
  else set_stagnationHistory pushed d.

Definition not_yet (reasoning : Reasoning) : EquilibriumState :=
  mkState false 1 1 0 0 false reasoning.

(** [detect] *)
Definition detect (scenario : string) (signals : list Signal) (agents : list OrganicAgent)
  : M (EquilibriumDetector * World) EquilibriumState :=
  on_self increment_currentTick ;;
  d <- self ;;
  if ltb (IZR (JsArray.len signals)) (minSignalWindow d) then
    ret (not_yet InsufficientSignalHistory)
  else if ltb (IZR (currentTick d)) (minTicks d) then
    ret (not_yet (EarlyDialogue (currentTick d) (minTicks d)))
  else
    idealState <- extractIdealState scenario ;;
    let recentSignals := JsArray.slice signals (- signalWindowSize)%Z None in
    goalTension <- in_world (measureGoalTension idealState recentSignals) ;;
    let momentum := measureMomentum d signals recentSignals in
    let coherence := measureCoherence recentSignals in
    decisionClarity <- in_world (measureDecisionClarity recentSignals) ;;
    let energy := calculateEnergy goalTension momentum coherence decisionClarity in
    let energyGradient := calculateEnergyGradient d signals in
    let energyThreshold := 0.35 in
    let gradientThreshold := 0.1 in
    let atEquilibrium :=
      ltb energy energyThreshold && abs_below energyGradient gradientThreshold in
    on_self (track_stagnation
               (mkEntry (currentTick d) goalTension coherence decisionClarity)) ;;
    d' <- self ;;
    let isStagnant := detectStagnation d' in
    let reasoning :=
      explainState goalTension momentum coherence decisionClarity energy energyGradient
                   atEquilibrium isStagnant in
    ret (mkState atEquilibrium goalTension momentum coherence decisionClarity
                 isStagnant reasoning).

End Detector.

(** Concrete data for runs of the detector: a detector that is past its
    guards from the first signal and the first invocation on. *)
Definition eager_config : EquilibriumDetectorConfig :=
  mkDetectorConfig (Some 1) (Some 1) None None None None.

Definition default_config : EquilibriumDetectorConfig :=
  mkDetectorConfig None None None None None None.

(** A detector whose stagnation window holds five entries with the
    given tension on the last one. *)
Definition stuck_detector (lastTension : number) : EquilibriumDetector :=
  set_stagnationHistory
    [ mkEntry 5 0.9 0.1 0.5; mkEntry 6 0.8 0.2 0.6; mkEntry 7 0.9 0.1 0.4;
      mkEntry 8 0.8 0.2 0.5; mkEntry 9 lastTension 0.1 0.5 ]
    (new_EquilibriumDetector default_config).

Definition example_scenario : string := "CEO must decide: delay launch vs legal risk".

Definition example_history : list Signal :=
  [ mkSignal "signal-1" "We must ship on Friday" "ceo" [1; 0] 0 None None ].

End Equilibrium.

(** ** Resonance and signal creation ([signal.ts]) *)

Module SignalModule.

(** Strict cosine similarity, private to [signal.ts]: unequal lengths
    are an error. *)
Definition cosineSimilarity (a b : list number) : Outcome number :=
  if negb (length a =? length b)%nat then Thrown (DimensionMismatch (length a) (length b))
  else
    let '(dotProduct, normA, normB) := SemanticUtils.accumulate a b in
    let magnitude := sqrt normA * sqrt normB in
    if Req_dec_T magnitude 0 then Returned 0
    else Returned (dotProduct / magnitude).

(** [resonates] *)
Definition resonates (signalPheromone : list number) (receptorField : ReceptorField)
           (receptorFieldEmbedding : list number) : Outcome bool :=
  let threshold := match threshold receptorField with
                   | Some t => t
                   | None => 0.6
                   end in
  match cosineSimilarity signalPheromone receptorFieldEmbedding with
  | Returned similarity => Returned (gtb similarity threshold)
  | Thrown e => Thrown e
  end.

Section CreateSignal.
Variable Date_now : nat -> number.
Variable generateId : nat -> string.

(** [createSignal], completed with the pheromone the router adds: the
    id comes from the id generator, the timestamp from the clock. *)
Definition createSignal (thought emittedBy : string)
           (inferredIntent : option string) (inferredTags : option (list string))
           (pheromone : list number) : M World Signal :=
  fun w =>
    let id := generateId (clockReads w) in
    let w1 := mkWorld (trace w) (S (clockReads w)) in
    match now Date_now w1 with
    | (Returned t, w2) =>
        (Returned (mkSignal id thought emittedBy pheromone t inferredIntent inferredTags), w2)
    | (Thrown e, w2) => (Thrown e, w2)
    end.

End CreateSignal.

End SignalModule.

(** ** Agents ([organic-agent.ts]) *)

(** [defineOrganicAgent(config)], as the router sees it. *)
Definition defineOrganicAgent (id name : string) (receptorField : ReceptorField)
  : OrganicAgent :=
  mkAgent id name receptorField.

(** [defineMetaObserver(...)], as the router sees it. *)
Definition defineMetaObserver : OrganicAgent :=
  mkAgent "meta-observer" "MetaObserver"
          (mkReceptorField
             [ "uncertainty"; "confusion"; "contradiction"; "unable"; "cannot";
               "stuck"; "conflicting"; "unclear" ]
             (Some 0.50)).

(** ** The router ([biosphere.ts]) *)

Module Router.

Record BridgeAgentSpec := mkBridgeAgentSpec {
  spec_id : string;
  spec_name : string;
  receptor_patterns : list string;
  spec_threshold : option number;
  voice : option string
}.

(** The spawner collaborator.  Its operations are oracles: they see the
    trace so far and either return or throw.  Optional operations may be
    missing. *)
Record OrganicSpawner := mkSpawner {
  spawner_seedFromGoal :
    option (list Event -> string -> list OrganicAgent -> Outcome (list OrganicAgent));
  spawner_spawnHelperForDistress :
    list Event -> Signal -> list OrganicAgent -> Outcome (option OrganicAgent);
  spawner_spawnBridgeAgent :
    option (list Event -> BridgeAgentSpec -> Signal -> OrganicAgent -> OrganicAgent ->
            list OrganicAgent -> Outcome (option OrganicAgent))
}.

(** The mutable state of a [Biosphere].  A birth pushed on the queue
    has run up to its settlement; the queue keeps how it settled until
    the next flush looks at it. *)
Record Biosphere := mkBiosphere {
  agents : JsMap.t OrganicAgent;
  signalHistory : list Signal;
  receptorFieldCache : JsMap.t (list number);
  synapses : JsMap.t Synapse.SignalSynapse;
  birthQueue : list (Outcome unit);
  seeded : bool;
  tick : Z
}.

Definition set_agents (v : JsMap.t OrganicAgent) (b : Biosphere) : Biosphere :=
  mkBiosphere v (signalHistory b) (receptorFieldCache b) (synapses b)
              (birthQueue b) (seeded b) (tick b).

Definition set_signalHistory (v : list Signal) (b : Biosphere) : Biosphere :=
  mkBiosphere (agents b) v (receptorFieldCache b) (synapses b)
              (birthQueue b) (seeded b) (tick b).

Definition set_receptorFieldCache (v : JsMap.t (list number)) (b : Biosphere) : Biosphere :=
  mkBiosphere (agents b) (signalHistory b) v (synapses b)
              (birthQueue b) (seeded b) (tick b).

Definition set_synapses (v : JsMap.t Synapse.SignalSynapse) (b : Biosphere) : Biosphere :=
  mkBiosphere (agents b) (signalHistory b) (receptorFieldCache b) v
              (birthQueue b) (seeded b) (tick b).

Definition set_birthQueue (v : list (Outcome unit)) (b : Biosphere) : Biosphere :=
  mkBiosphere (agents b) (signalHistory b) (receptorFieldCache b) (synapses b)
              v (seeded b) (tick b).

Definition set_seeded (v : bool) (b : Biosphere) : Biosphere :=
  mkBiosphere (agents b) (signalHistory b) (receptorFieldCache b) (synapses b)
              (birthQueue b) v (tick b).

(** [listAgents] *)
Definition listAgents (b : Biosphere) : list OrganicAgent := JsMap.values (agents b).

(** [death] *)
Definition death (agentId : string) (b : Biosphere) : Biosphere :=
  let b1 := set_agents (JsMap.delete agentId (agents b)) b in
  set_receptorFieldCache (JsMap.delete agentId (receptorFieldCache b1)) b1.

(** The first loop of [findResonance]: the agents other than the author
    whose cached receptor embedding resonates with the pheromone. *)
Fixpoint resonant_agents (cache : JsMap.t (list number)) (signal : Signal)
         (candidates : list OrganicAgent) : Outcome (list OrganicAgent) :=
  match candidates with
  | [] => Returned []
  | agent :: rest =>
      if String.eqb (agent_id agent) (emittedBy signal) then
        resonant_agents cache signal rest
      else
        match JsMap.get (agent_id agent) cache with
        | None => resonant_agents cache signal rest
        | Some receptorVector =>
            match SignalModule.resonates (pheromone signal) (receptorField agent)
                                         receptorVector with
            | Thrown e => Thrown e
            | Returned hit =>
                match resonant_agents cache signal rest with
                | Thrown e => Thrown e
                | Returned receivers =>
                    Returned (if hit then agent :: receivers else receivers)
                end
            end
        end
  end.

(** The second loop of [findResonance]: candidates of ambient
    awareness with their similarity. *)
Fixpoint ambient_candidates (cache : JsMap.t (list number)) (signal : Signal)
         (candidates : list OrganicAgent) : list (OrganicAgent * number) :=
  match candidates with
  | [] => []
  | agent :: rest =>
      if String.eqb (agent_id agent) (emittedBy signal) then
        ambient_candidates cache signal rest
      else
        match JsMap.get (agent_id agent) cache with
        | None => ambient_candidates cache signal rest
        | Some receptorVector =>
            let similarity :=
              SemanticUtils.cosineSimilarity (pheromone signal) receptorVector in
            let ambientThreshold := 0.4 in
            if gtb similarity ambientThreshold
            then (agent, similarity) :: ambient_candidates cache signal rest
            else ambient_candidates cache signal rest
        end
  end.

(** [candidates.sort((a, b) => b.similarity - a.similarity)]: a stable
    sort by descending similarity. *)
Fixpoint insert_descending (c : OrganicAgent * number)
         (sorted : list (OrganicAgent * number)) : list (OrganicAgent * number) :=
  match sorted with
  | [] => [c]
  | c' :: rest =>
      if gtb (snd c) (snd c') then c :: c' :: rest
      else c' :: insert_descending c rest
  end.

Definition sort_descending (candidates : list (OrganicAgent * number))
  : list (OrganicAgent * number) :=
  fold_left (fun sorted c => insert_descending c sorted) candidates [].

(** [findResonance] *)
Definition findResonance (b : Biosphere) (signal : Signal) : Outcome (list OrganicAgent) :=
  match resonant_agents (receptorFieldCache b) signal (listAgents b) with
  | Thrown e => Thrown e
  | Returned receivers =>
      if (length receivers =? 0)%nat then
        let maxAmbientReceivers := 3%Z in
        let candidates := ambient_candidates (receptorFieldCache b) signal (listAgents b) in
        Returned (map fst (JsArray.slice (sort_descending candidates) 0%Z
                                         (Some maxAmbientReceivers)))
      else Returned receivers
  end.

Definition quoted (s : string) : string := (dquote ++ s ++ dquote)%string.

Definition bridge_example_json : string :=
  ("{" ++ quoted "agent" ++ ":{"
       ++ quoted "id" ++ ":" ++ quoted "bridge-example" ++ ","
       ++ quoted "name" ++ ":" ++ quoted "Bridge Example" ++ ","
       ++ quoted "receptor_patterns" ++ ":["
       ++ quoted "source-vocab" ++ "," ++ quoted "target-vocab" ++ ","
       ++ quoted "bridging-concepts" ++ "],"
       ++ quoted "threshold" ++ ":0.5,"
       ++ quoted "voice" ++ ":" ++ quoted "Describe expertise that spans both domains"
       ++ "}}")%string.

Definition bridge_messages (signal : Signal) (source target : OrganicAgent)
  : list ChatMessage :=
  [ mkChatMessage "system"
      (JsArray.join newline
         [ "You design bridge agents that connect incompatible perspectives.";
           EmptyString;
           "Given:";
           "- Source agent with specific vocabulary/concerns";
           "- Target agent with different vocabulary/concerns";
           "- A signal the target cannot understand";
           EmptyString;
           "Discover: What intermediate perspective would translate between them?";
           EmptyString;
           "The bridge agent should:";
           "- Resonate with BOTH source and target vocabularies";
           "- Act as semantic translator";
           "- Have natural expertise in both domains";
           EmptyString;
           "Examples:";
           "- CEO and Engineer: Product Manager (understands business + tech)";
           "- Musician and Physicist: Acoustician (understands harmony + waves)";
           "- Dreamer and Analyst: Psychologist (understands symbols + data)";
           EmptyString;
           "Return JSON with: id, name, receptor_patterns (covering both domains), voice" ]);
    mkChatMessage "user"
      (JsArray.join newline
         [ ("Source: " ++ agent_name source)%string;
           ("Source concerns: "
              ++ JsArray.join ", " (patterns (receptorField source)))%string;
           EmptyString;
           ("Target: " ++ agent_name target)%string;
           ("Target concerns: "
              ++ JsArray.join ", " (patterns (receptorField target)))%string;
           EmptyString;
           "Signal that cannot bridge:";
           quoted (thought signal);
           EmptyString;
           "What bridge agent would translate between these perspectives?";
           EmptyString;
           "Return JSON:";
           bridge_example_json ]) ].

Definition spawnIntentAnchors : list string :=
  [ "We need to spawn a helper agent";
    "Perhaps spawning a new perspective would help";
    "This situation requires a specialized agent";
    "A helper with specific expertise would resolve this" ].

Definition is_sentinel (sourceId : string) : bool :=
  String.eqb sourceId "external" || String.eqb sourceId "system".

(** [await Promise.all(tasks)] on births that have settled. *)
Fixpoint first_failure (tasks : list (Outcome unit)) : Outcome unit :=
  match tasks with
  | [] => Returned tt
  | Returned _ :: rest => first_failure rest
  | Thrown e :: _ => Thrown e
  end.

Section Coordinator.
Variable Date_now : nat -> number.
Variable generateId : nat -> string.
Variable llm_embed : list Event -> string -> option (list number).
Variable llm_chat : list Event -> list ChatMessage -> option string.
Variable spawner : option OrganicSpawner.

(** Extraction of the blueprint from the reply of the model: the match
    of the fenced block, [JSON.parse] and the field [agent].  [Thrown]
    is a parse error; [Returned None] an object without a usable
    [agent] (missing, or with patterns that are not an array). *)
Variable parse_bridge_spec : string -> Outcome (option BridgeAgentSpec).

Local Open Scope monad_scope.

Definition lift_outcome {A} (o : Outcome A) : M (Biosphere * World) A :=
  fun s => (o, s).

Definition world_trace : M (Biosphere * World) (list Event) :=
  fun '(b, w) => (Returned (trace w), (b, w)).

(** [birth] *)
Definition birth (agent : OrganicAgent) : M (Biosphere * World) unit :=
  on_self (fun b => set_agents (JsMap.set (agent_id agent) agent (agents b)) b) ;;
  let receptorText := JsArray.join ". " (patterns (receptorField agent)) in
  receptorVector <- in_world (embed llm_embed receptorText) ;;
  on_self (fun b =>
    set_receptorFieldCache
      (JsMap.set (agent_id agent) receptorVector (receptorFieldCache b)) b) ;;
  b <- self ;;
  in_world (notify (onAgentBorn agent (tick b))).

(** [this.birthQueue.push(this.birth(agent))] *)
Definition push_birth (agent : OrganicAgent) : M (Biosphere * World) unit :=
  fun s =>
    let '(settled, s') := birth agent s in
    on_self (fun b => set_birthQueue (birthQueue b ++ [settled]) b) s'.

(** [new Biosphere(config)] *)
Definition new_Biosphere (autoMetaObserver : option bool) : M (Biosphere * World) unit :=
  match autoMetaObserver with
  | Some false => ret tt
  | _ => push_birth defineMetaObserver
  end.

Definition empty_Biosphere : Biosphere :=
  mkBiosphere JsMap.empty [] JsMap.empty JsMap.empty [] false 0.

(** [flushBirthQueue] *)
Definition flushBirthQueue : M (Biosphere * World) unit :=
  b <- self ;;
  if (length (birthQueue b) =? 0)%nat then ret tt
  else
    let tasks := birthQueue b in
    on_self (set_birthQueue []) ;;
    lift_outcome (first_failure tasks).

(** [seedFromGoal] *)
Definition seedFromGoal (goal : string) : M (Biosphere * World) unit :=
  match spawner with
  | None => ret tt
  | Some sp =>
      match spawner_seedFromGoal sp with
      | None => ret tt
      | Some seed =>
          b <- self ;;
          tr <- world_trace ;;
          agents <- lift_outcome (seed tr goal (listAgents b)) ;;
          for_each agents push_birth ;;
          flushBirthQueue ;;
          on_self (set_seeded true)
      end
  end.

(** [findSimilar] *)
Definition findSimilar (name : string) : M (Biosphere * World) (option OrganicAgent) :=
  targetVector <- in_world (embed llm_embed name) ;;
  b <- self ;;
  best <-
    (fix loop (candidates : list OrganicAgent)
         (best : option OrganicAgent * number)
       : M (Biosphere * World) (option OrganicAgent * number) :=
       match candidates with
       | [] => ret best
       | agent :: rest =>
           let agentDescription :=
             (agent_name agent ++ " "
                ++ JsArray.join " " (patterns (receptorField agent)))%string in
           agentVector <- in_world (embed llm_embed agentDescription) ;;
           let similarity := SemanticUtils.cosineSimilarity targetVector agentVector in
           if gtb similarity 0.75 && gtb similarity (snd best)
           then loop rest (Some agent, similarity)
           else loop rest best
       end) (listAgents b) (None, 0) ;;
  ret (fst best).

(** [getOrCreateSynapse]; the synapse is handed back by its key in the
    table, the table holding the one mutable object. *)
Definition getOrCreateSynapse (from to : OrganicAgent) (similarity : number)
  : M (Biosphere * World) string :=
  let synapseId := (agent_id from ++ "→" ++ agent_id to)%string in
  b <- self ;;
  if JsMap.has synapseId (synapses b) then ret synapseId
  else
    let synapse :=
      Synapse.createSignalSynapse
        (Synapse.mkConfig (agent_id from) (agent_id to) similarity
                          (patterns (receptorField from))
                          (patterns (receptorField to))) in
    on_self (fun b => set_synapses (JsMap.set synapseId synapse (synapses b)) b) ;;
    ret synapseId.

(** [synapse.transform(signal)] on the synapse stored under a key. *)
Definition transform_through (synapseId : string) (signal : Signal)
  : M (Biosphere * World) Signal :=
  fun '(b, w) =>
    match JsMap.get synapseId (synapses b) with
    | None => (Thrown CollaboratorFailure, (b, w))
    | Some synapse =>
        let '(r, (synapse', w')) :=
          Synapse.transform Date_now llm_chat signal (synapse, w) in
        (r, (set_synapses (JsMap.set synapseId synapse' (synapses b)) b, w'))
    end.

(** [spawnBridgeAgent] *)
Definition spawnBridgeAgent (signal : Signal) (source target : OrganicAgent)
           (similarity : number) : M (Biosphere * World) unit :=
  match spawner with
  | None => ret tt
  | Some sp =>
      bridgeSpec <- in_world (chat llm_chat (bridge_messages signal source target)) ;;
      try_catch
        (parsed <- lift_outcome (parse_bridge_spec bridgeSpec) ;;
         match parsed with
         | None => ret tt
         | Some blueprint =>
             if String.eqb (spec_id blueprint) EmptyString then ret tt
             else
               existing <- findSimilar (spec_name blueprint) ;;
               match existing with
               | Some _ => ret tt
               | None =>
                   bridge <-
                     match spawner_spawnBridgeAgent sp with
                     | Some spawn =>
                         b <- self ;;
                         tr <- world_trace ;;
                         lift_outcome
                           (spawn tr blueprint signal source target (listAgents b))
                     | None =>
                         ret (Some (defineOrganicAgent
                                      (spec_id blueprint) (spec_name blueprint)
                                      (mkReceptorField
                                         (receptor_patterns blueprint)
                                         (Some (match spec_threshold blueprint with
                                                | Some t => t
                                                | None => 0.5
                                                end)))))
                     end ;;
                   match bridge with
                   | None => ret tt
                   | Some bridge =>
                       b <- self ;;
                       if JsMap.has (agent_id bridge) (agents b) then ret tt
                       else
                         birth bridge ;;
                         in_world (perceive bridge signal)
                   end
               end
         end)
        (fun error => ret tt)
  end.

(** [propagateToReceiver] *)
Definition propagateToReceiver (signal : Signal) (source receiver : OrganicAgent)
  : M (Biosphere * World) unit :=
  b <- self ;;
  match JsMap.get (agent_id receiver) (receptorFieldCache b) with
  | None => ret tt
  | Some receiverVector =>
      let similarity :=
        SemanticUtils.cosineSimilarity (pheromone signal) receiverVector in
      if gtb similarity 0.8 then
        in_world (perceive receiver signal)
      else if gtb similarity 0.5 then
        synapse <- getOrCreateSynapse source receiver similarity ;;
        transformed <- transform_through synapse signal ;;
        in_world (perceive receiver transformed)
      else if gtb similarity 0.3 then
        spawnBridgeAgent signal source receiver similarity
      else
        ret tt
  end.

(** [inject] *)
Definition inject (thought : string) (sourceId : string) : M (Biosphere * World) unit :=
  flushBirthQueue ;;
  b <- self ;;
  (if negb (seeded b) && (match spawner with Some _ => true | None => false end)
   then seedFromGoal thought
   else ret tt) ;;
  pheromone <- in_world (embed llm_embed thought) ;;
  signal <- in_world (SignalModule.createSignal Date_now generateId
                        thought sourceId None None pheromone) ;;
  on_self (fun b => set_signalHistory (signalHistory b ++ [signal]) b) ;;
  b <- self ;;
  in_world (notify (onSignalEmitted signal (tick b))) ;;
  resonant <- lift_outcome (findResonance b signal) ;;
  let isExternal := is_sentinel sourceId in
  let receivers :=
    if isExternal || (length resonant =? 0)%nat
    then filter (fun agent => negb (String.eqb (agent_id agent) sourceId)) (listAgents b)
    else resonant in
  in_world (notify (onSignalRouted signal receivers (tick b))) ;;
  for_each receivers (fun receiver => in_world (perceive receiver signal)).

End Coordinator.

(** Concrete data for runs of the router. *)
Definition analyst : OrganicAgent :=
  mkAgent "analyst" "Risk Analyst" (mkReceptorField ["risk"; "exposure"] None).

Definition engineer : OrganicAgent :=
  mkAgent "engineer" "Engineer" (mkReceptorField ["latency"; "throughput"] (Some 0.5)).

(** A router with two agents whose receptor embeddings are both the
    second unit vector. *)
Definition two_agents : Biosphere :=
  mkBiosphere [("analyst", analyst); ("engineer", engineer)] []
              [("analyst", [0; 1]); ("engineer", [0; 1])] [] [] true 0.

Definition example_ids : nat -> string := fun _ => "signal-0".

Definition lawyer : OrganicAgent :=
  mkAgent "lawyer" "Counsel" (mkReceptorField ["liability"] None).

Definition ceo : OrganicAgent :=
  mkAgent "ceo" "CEO" (mkReceptorField ["decision"] None).

Definition signal_with (pheromone : list number) : Signal :=
  mkSignal "signal-7" "Ship the fix before the audit" "ceo" pheromone 0 None None.

Definition no_blueprint : string -> Outcome (option BridgeAgentSpec) :=
  fun _ => Returned None.

(** A second agent that claims the id of [analyst]. *)
Definition impostor : OrganicAgent :=
  mkAgent "analyst" "Market Analyst" (mkReceptorField ["pricing"] None).

End Router.

(** ** Similarity search ([semantic-utils.ts]) *)

From Stdlib Require Import Sorted Permutation.

Module SemanticSearch.

(** [array.sort((a, b) => key(b) - key(a))]: the stable sort by
    descending key.  An element is placed before the first element with
    a strictly smaller key, so elements with equal keys keep their
    order. *)
Fixpoint insert_by {A : Type} (key : A -> number) (c : A) (sorted : list A) : list A :=
  match sorted with
  | [] => [c]
  | c' :: rest =>
      if gtb (key c) (key c') then c :: c' :: rest
      else c' :: insert_by key c rest
  end.

Definition sort_descending_by {A : Type} (key : A -> number) (l : list A) : list A :=
  fold_left (fun sorted c => insert_by key c sorted) l [].

(** The body of the loop of [findMostSimilar]; a candidate
    [{ vector, data }] is a pair, a match [{ similarity, data }] too. *)
Definition better_match {T : Type} (query : list number)
           (bestMatch : option (number * T)) (candidate : list number * T)
  : option (number * T) :=
  let similarity := SemanticUtils.cosineSimilarity query (fst candidate) in
  match bestMatch with
  | None => Some (similarity, snd candidate)
  | Some best =>
      if gtb similarity (fst best) then Some (similarity, snd candidate)
      else bestMatch
  end.

(** [findMostSimilar] *)
Definition findMostSimilar {T : Type} (query : list number)
           (candidates : list (list number * T)) : option (number * T) :=
  fold_left (better_match query) candidates None.

(** [filterBySimilarity] *)
Definition filterBySimilarity {T : Type} (query : list number)
           (candidates : list (list number * T)) (threshold : number)
  : list (number * T) :=
  sort_descending_by fst
    (filter (fun result => negb (ltb (fst result) threshold))
       (map (fun candidate =>
               (SemanticUtils.cosineSimilarity query (fst candidate), snd candidate))
            candidates)).

(** A list in descending order of a key: every element is at least as
    large as all the elements after it. *)
Definition descending {A : Type} (key : A -> number) (l : list A) : Prop :=
  StronglySorted (fun x y => key y <= key x) l.

End SemanticSearch.

(** ** The registry of motor skills ([motor-skill-registry.ts]) *)

Module SkillRegistry.

(** A [MotorSkill] as the registry sees it: the registry never calls
    [execute]. *)
Record MotorSkill := mkSkill {
  skill_id : string;
  skill_name : string;
  skill_description : string
}.

(** The one field of a [MotorSkillRegistry]. *)
Definition MotorSkillRegistry := JsMap.t MotorSkill.

Definition new_MotorSkillRegistry : MotorSkillRegistry := JsMap.empty.

(** [list] *)
Definition list_skills (skills : MotorSkillRegistry) : list MotorSkill :=
  JsMap.values skills.

(** [get] *)
Definition get (skills : MotorSkillRegistry) (id : string) : option MotorSkill :=
  JsMap.get id skills.

(** [has] *)
Definition has (skills : MotorSkillRegistry) (id : string) : bool :=
  JsMap.has id skills.

(** [register] *)
Definition register (skill : MotorSkill) (skills : MotorSkillRegistry)
  : MotorSkillRegistry :=
  JsMap.set (skill_id skill) skill skills.

(** [registerMany] *)
Definition registerMany (many : list MotorSkill) (skills : MotorSkillRegistry)
  : MotorSkillRegistry :=
  fold_left (fun registry skill => register skill registry) many skills.

(** [resolve]: [ids.map(id => this.skills.get(id)).filter(Boolean)] *)
Definition resolve (skills : MotorSkillRegistry) (ids : list string) : list MotorSkill :=
  flat_map (fun found => match found with
                         | Some skill => [skill]
                         | None => []
                         end)
           (map (fun id => JsMap.get id skills) ids).

End SkillRegistry.

(** ** Propagation, the environment and spawning ([biosphere.ts]) *)

Module Propagation.
Import Router.

(** [EnvironmentSignal] of [environment.ts]. *)
Record EnvironmentSignal := mkEnvironmentSignal {
  env_thought : string;
  env_emittedBy : option string;
  env_inferredIntent : option string;
  env_inferredTags : option (list string)
}.

(** [BiosphereState]: copies of the registry, the history and the
    cache, with the state of the detector when there is one. *)
Record BiosphereState := mkBiosphereState {
  state_tick : Z;
  state_agents : JsMap.t OrganicAgent;
  state_signals : list Signal;
  state_receptorFieldCache : JsMap.t (list number);
  state_equilibrium : option Equilibrium.EquilibriumState
}.

(** [getState] *)
Definition getState (equilibrium : option Equilibrium.EquilibriumState) (b : Biosphere)
  : BiosphereState :=
  mkBiosphereState (tick b) (agents b) (signalHistory b) (receptorFieldCache b) equilibrium.

Definition distress_concepts : string :=
  "stuck, confusion, cannot proceed, contradiction, unable, conflicting".

(** The recorded history, as a part of the state of the router. *)
Definition history (s : Biosphere * World) : list Signal := signalHistory (fst s).

(** The description of an agent that [findSimilar] and [hasAgentType]
    embed. *)
Definition agentDescription (agent : OrganicAgent) : string :=
  (agent_name agent ++ " " ++ JsArray.join " " (patterns (receptorField agent)))%string.

Section Engine.
Variable Date_now : nat -> number.
Variable generateId : nat -> string.
Variable llm_embed : list Event -> string -> option (list number).
Variable llm_chat : list Event -> list ChatMessage -> option string.
Variable spawner : option OrganicSpawner.
Variable parse_bridge_spec : string -> Outcome (option BridgeAgentSpec).

(** [String.prototype.trim] *)
Variable trim : string -> string.

(** [environment.tick(state)]: an oracle that sees the trace so far. *)
Variable environment_tick : list Event -> BiosphereState -> Outcome (list EnvironmentSignal).

Local Open Scope monad_scope.

(** The loop of [findSimilar], by name. *)
Definition findSimilar_loop (targetVector : list number)
  : list OrganicAgent -> option OrganicAgent * number ->
    M (Biosphere * World) (option OrganicAgent * number) :=
  fix loop (candidates : list OrganicAgent) (best : option OrganicAgent * number) :=
    match candidates with
    | [] => ret best
    | agent :: rest =>
        agentVector <- in_world (embed llm_embed (agentDescription agent)) ;;
        let similarity := SemanticUtils.cosineSimilarity targetVector agentVector in
        if gtb similarity 0.75 && gtb similarity (snd best)
        then loop rest (Some agent, similarity)
        else loop rest best
    end.

(** The loop of [detectSpawnIntent] over the anchors. *)
Fixpoint detectSpawnIntent_loop (thoughtVector : list number) (anchors : list string)
  : M (Biosphere * World) bool :=
  match anchors with
  | [] => ret false
  | anchor :: rest =>
      anchorVector <- in_world (embed llm_embed anchor) ;;
      let similarity := SemanticUtils.cosineSimilarity thoughtVector anchorVector in
      if gtb similarity 0.75 then ret true
      else detectSpawnIntent_loop thoughtVector rest
  end.

(** [detectSpawnIntent] *)
Definition detectSpawnIntent (thought : string) : M (Biosphere * World) bool :=
  thoughtVector <- in_world (embed llm_embed thought) ;;
  detectSpawnIntent_loop thoughtVector spawnIntentAnchors.

(** The loop of [hasAgentType] over the registry. *)
Fixpoint hasAgentType_loop (targetVector : list number) (candidates : list OrganicAgent)
  : M (Biosphere * World) bool :=
  match candidates with
  | [] => ret false
  | agent :: rest =>
      agentVector <- in_world (embed llm_embed (agentDescription agent)) ;;
      let similarity := SemanticUtils.cosineSimilarity targetVector agentVector in
      if gtb similarity 0.75 then ret true
      else hasAgentType_loop targetVector rest
  end.

(** [hasAgentType] *)
Definition hasAgentType (agentType : string) : M (Biosphere * World) bool :=
  targetVector <- in_world (embed llm_embed agentType) ;;
  b <- self ;;
  hasAgentType_loop targetVector (listAgents b).

(** [handleSpawnRequest] *)
Definition handleSpawnRequest (distressSignal : Signal) : M (Biosphere * World) unit :=
  match spawner with
  | None => ret tt
  | Some sp =>
      try_catch
        (b <- self ;;
         tr <- world_trace ;;
         spawned <- lift_outcome
                      (spawner_spawnHelperForDistress sp tr distressSignal (listAgents b)) ;;
         match spawned with
         | None => ret tt
         | Some spawned =>
             existing <- findSimilar llm_embed (agent_name spawned) ;;
             match existing with
             | Some _ => ret tt
             | None =>
                 birth llm_embed spawned ;;
                 b <- self ;;
                 in_world (notify (onAgentSpawned spawned distressSignal (tick b))) ;;
                 distressVector <- in_world (embed llm_embed distress_concepts) ;;
                 b <- self ;;
                 let recentDistress :=
                   JsArray.slice
                     (filter (fun s =>
                                let similarity :=
                                  SemanticUtils.cosineSimilarity (pheromone s) distressVector in
                                gtb similarity 0.7)
                             (signalHistory b))
                     (- 3)%Z None in
                 for_each recentDistress
                          (fun signal => in_world (perceive spawned signal))
             end
         end)
        (fun error => ret tt)
  end.

(** [propagate] *)
Definition propagate (thought : string) (source : OrganicAgent) : M (Biosphere * World) unit :=
  flushBirthQueue ;;
  pheromone <- in_world (embed llm_embed thought) ;;
  signal <- in_world (SignalModule.createSignal Date_now generateId
                        thought (agent_id source) None None pheromone) ;;
  on_self (fun b => set_signalHistory (signalHistory b ++ [signal]) b) ;;
  b <- self ;;
  in_world (notify (onSignalEmitted signal (tick b))) ;;
  isSpawnIntent <- detectSpawnIntent thought ;;
  if isSpawnIntent then handleSpawnRequest signal
  else
    b <- self ;;
    receivers <- lift_outcome (findResonance b signal) ;;
    in_world (notify (onSignalRouted signal receivers (tick b))) ;;
    for_each receivers
             (fun receiver =>
                propagateToReceiver Date_now llm_embed llm_chat spawner parse_bridge_spec
                                    signal source receiver).

(** [signalInput.emittedBy ?? 'environment'] *)
Definition environment_author (signalInput : EnvironmentSignal) : string :=
  match env_emittedBy signalInput with
  | Some author => author
  | None => "environment"
  end.

(** [ingestEnvironmentSignal] *)
Definition ingestEnvironmentSignal (signalInput : EnvironmentSignal)
  : M (Biosphere * World) unit :=
  let thought := trim (env_thought signalInput) in
  if String.eqb thought EmptyString then ret tt
  else
    flushBirthQueue ;;
    pheromone <- in_world (embed llm_embed thought) ;;
    signal <- in_world (SignalModule.createSignal Date_now generateId
                          thought (environment_author signalInput)
                          (env_inferredIntent signalInput)
                          (env_inferredTags signalInput) pheromone) ;;
    on_self (fun b => set_signalHistory (signalHistory b ++ [signal]) b) ;;
    b <- self ;;
    in_world (notify (onSignalEmitted signal (tick b))) ;;
    isSpawnIntent <- detectSpawnIntent thought ;;
    if isSpawnIntent then handleSpawnRequest signal
    else
      b <- self ;;
      receivers <- lift_outcome (findResonance b signal) ;;
      in_world (notify (onSignalRouted signal receivers (tick b))) ;;
      for_each receivers (fun receiver => in_world (perceive receiver signal)).

(** [emitEnvironmentSignals], for a router that has an environment. *)
Definition emitEnvironmentSignals : M (Biosphere * World) unit :=
  b <- self ;;
  let state := getState None b in
  tr <- world_trace ;;
  match environment_tick tr state with
  | Thrown error => ret tt
  | Returned signals => for_each signals ingestEnvironmentSignal
  end.

End Engine.

(** A computation that leaves the history alone and hands over
    signals described by [P], a property of the history and of the
    deliveries it adds. *)
Definition delivers {A} (P : list Signal -> list (OrganicAgent * Signal) -> Prop)
           (m : M (Biosphere * World) A) : Prop :=
  forall s r s', m s = (r, s') ->
    history s' = history s
    /\ exists extra, delivered s' = delivered s ++ extra /\ P (history s) extra.

(** A computation that records one signal with the given thought and
    author, unless it throws before it gets there; in that case it has
    not delivered anything either. *)
Definition records_one (text author : string) (m : M (Biosphere * World) unit) : Prop :=
  forall s r s', m s = (r, s') ->
    (exists signal,
        history s' = history s ++ [signal]
        /\ thought signal = text /\ emittedBy signal = author)
    \/ (history s' = history s /\ delivered s' = delivered s /\ exists e, r = Thrown e).

(** Two views of the state: what has been recorded and delivered, and
    the synapses, which synaptic coupling and bridging would touch. *)
Definition trail (s : Biosphere * World) : list Signal * list (OrganicAgent * Signal) :=
  (history s, delivered s).

Definition coupling (s : Biosphere * World) : JsMap.t Synapse.SignalSynapse :=
  synapses (fst s).

Definition is_perceive (e : Event) : bool :=
  match e with
  | Perceive _ _ => true
  | _ => false
  end.

(** At most three deliveries, all of signals of the history. *)
Definition few_from_history (h : list Signal) (extra : list (OrganicAgent * Signal)) : Prop :=
  (length extra <= 3)%nat /\ forall agent signal, In (agent, signal) extra -> In signal h.

(** Concrete data for runs: a spawner that always proposes the same
    helper, an environment with nothing to say, and [trim] on strings
    of ASCII characters. *)
Definition mediator : OrganicAgent :=
  mkAgent "mediator" "Mediator" (mkReceptorField ["conflict"; "trade-off"] None).

Definition helper_spawner : OrganicSpawner :=
  mkSpawner None (fun _ _ _ => Returned (Some mediator)) None.

Definition silent_environment : list Event -> BiosphereState -> Outcome (list EnvironmentSignal) :=
  fun _ _ => Returned [].

Definition is_space (c : Ascii.ascii) : bool :=
  let code := Ascii.nat_of_ascii c in
  (code =? 32)%nat || ((9 <=? code)%nat && (code <=? 13)%nat).

Fixpoint trim_start (s : string) : string :=
  match s with
  | EmptyString => EmptyString
  | String c rest => if is_space c then trim_start rest else s
  end.

Fixpoint trim_end (s : string) : string :=
  match s with
  | EmptyString => EmptyString
  | String c rest =>
      match trim_end rest with
      | EmptyString => if is_space c then EmptyString else String c EmptyString
      | kept => String c kept
      end
  end.

Definition ascii_trim (s : string) : string := trim_end (trim_start s).

End Propagation.

(** ** Agents from the inside ([organic-agent.ts]) *)

(** What a generator has yielded once it has been driven to its end,
    and the error that ended it, if one did. *)
Record Emission := mkEmission {
  yielded : list string;
  failure : option Error
}.

Module AgentBody.

(** The variables closed over by [defineOrganicAgent]. *)
Record AgentMemory := mkMemory {
  context : list string;
  lastEmitContextLength : Z;
  lastPerceivedSignal : option Signal
}.

(** [OrganicAgentConfig]; a custom [emit] is an oracle that sees the
    trace so far and the signal it is given. *)
Record OrganicAgentConfig := mkAgentConfig {
  config_id : string;
  config_name : string;
  config_receptorField : ReceptorField;
  systemPrompt : string;
  config_emit : option (list Event -> option Signal -> Emission)
}.

Definition new_memory : AgentMemory := mkMemory [] 0 None.

Definition push_context (contextEntry : string) (m : AgentMemory) : AgentMemory :=
  mkMemory (context m ++ [contextEntry]) (lastEmitContextLength m) (lastPerceivedSignal m).

Definition set_lastPerceivedSignal (v : option Signal) (m : AgentMemory) : AgentMemory :=
  mkMemory (context m) (lastEmitContextLength m) v.

Definition set_lastEmitContextLength (v : Z) (m : AgentMemory) : AgentMemory :=
  mkMemory (context m) v (lastPerceivedSignal m).

Definition emit_messages (systemPrompt : string) (context : list string) : list ChatMessage :=
  [ mkChatMessage "system" systemPrompt;
    mkChatMessage "user" (JsArray.join (newline ++ newline) context) ].

Section Agent.

(** [new Date(timestamp).toISOString()], which throws on a time value
    that is not a date. *)
Variable toISOString : number -> Outcome string.
Variable llm_chat : list Event -> list ChatMessage -> option string.
Variable config : OrganicAgentConfig.

Local Open Scope monad_scope.

(** [perceive] *)
Definition perceive (signal : Signal) : M (AgentMemory * World) unit :=
  iso <- (fun s => (toISOString (timestamp signal), s)) ;;
  let contextEntry :=
    ("[Signal from " ++ emittedBy signal ++ " at " ++ iso ++ "]:"
       ++ newline ++ thought signal)%string in
  on_self (push_context contextEntry) ;;
  on_self (set_lastPerceivedSignal (Some signal)).

(** [emit], driven to its end. *)
Definition emit (signal : option Signal)
  : AgentMemory * World -> Emission * (AgentMemory * World) :=
  fun '(m, w) =>
    match config_emit config with
    | Some custom =>
        let signalToUse :=
          match signal with
          | Some given => Some given
          | None => lastPerceivedSignal m
          end in
        let emission := custom (trace w) signalToUse in
        match failure emission with
        | None => (emission, (set_lastPerceivedSignal None m, w))
        | Some _ => (emission, (m, w))
        end
    | None =>
        let newContextCount := (JsArray.len (context m) - lastEmitContextLength m)%Z in
        if (JsArray.len (context m) =? 0)%Z || (newContextCount =? 0)%Z
        then (mkEmission [] None, (m, w))
        else
          let messages := emit_messages (systemPrompt config) (context m) in
          match chat llm_chat messages w with
          | (Returned thought, w') =>
              (mkEmission [thought] None,
               (set_lastEmitContextLength (JsArray.len (context m)) m, w'))
          | (Thrown e, w') => (mkEmission [] (Some e), (m, w'))
          end
    end.

(** [getContext] *)
Definition getContext (m : AgentMemory) : list string := context m.

End Agent.

(** Concrete data for runs. *)
Definition plain_config : OrganicAgentConfig :=
  mkAgentConfig "ceo" "CEO" (mkReceptorField ["decision"] None)
                "You are the CEO. Decide." None.

Definition iso_fixed : number -> Outcome string :=
  fun _ => Returned "2025-01-01T00:00:00.000Z".

End AgentBody.

Module MetaObserver.

(** The variables closed over by [defineMetaObserver]. *)
Record ObserverMemory := mkObserverMemory {
  distressSignals : list Signal;
  lastProcessedVector : list number
}.

Definition new_memory : ObserverMemory := mkObserverMemory [] [].

(** [perceive] *)
Definition perceive (signal : Signal) (m : ObserverMemory) : ObserverMemory :=
  let accepted := mkObserverMemory (distressSignals m ++ [signal]) (pheromone signal) in
  if (0 <? JsArray.len (lastProcessedVector m))%Z then
    let similarity :=
      SemanticUtils.cosineSimilarity (pheromone signal) (lastProcessedVector m) in
    if gtb similarity 0.90 then m else accepted
  else accepted.

Definition observer_prompt : string :=
  ("You are a meta-observer that senses when systems cannot proceed."
     ++ newline ++ newline
     ++ "Distress = inability to move forward (stuck, contradictory, unclear)" ++ newline
     ++ "NOT distress = intensity, urgency, or completed decisions" ++ newline ++ newline
     ++ "Examples of TRUE distress across domains:" ++ newline
     ++ "- Business: " ++ dquote ++ "These recommendations contradict each other"
     ++ dquote ++ newline
     ++ "- Music: " ++ dquote ++ "This chord progression feels unresolved"
     ++ dquote ++ newline
     ++ "- Dreams: " ++ dquote ++ "The symbols blur together, no clear meaning"
     ++ dquote ++ newline
     ++ "- Science: " ++ dquote ++ "Data doesn't support either hypothesis"
     ++ dquote ++ newline ++ newline
     ++ "If you detect inability to proceed:" ++ newline
     ++ "1. Describe what perspective/capability would help" ++ newline
     ++ "2. Explain the gap naturally" ++ newline
     ++ "Respond in 1-2 sentences, naturally." ++ newline ++ newline
     ++ "If this is NOT distress (just intensity/urgency), respond: "
     ++ dquote ++ "no distress detected" ++ dquote)%string.

Definition analysis_messages (latestDistress : Signal) : list ChatMessage :=
  [ mkChatMessage "system" observer_prompt;
    mkChatMessage "user"
      ("Signal from " ++ emittedBy latestDistress ++ ":" ++ newline ++ newline
         ++ dquote ++ thought latestDistress ++ dquote ++ newline ++ newline
         ++ "What do you sense?")%string ].

Definition no_distress_text : string :=
  "no distress detected, no problem found, this is not distress".

Definition spawn_suggestion (latestDistress : Signal) (analysis : string) : string :=
  ("I sense " ++ emittedBy latestDistress ++ " cannot proceed. " ++ analysis
     ++ ". Perhaps spawning a helper perspective would resolve this.")%string.

Definition clear_distress (m : ObserverMemory) : ObserverMemory :=
  mkObserverMemory [] (lastProcessedVector m).

Section Observer.
Variable llm_embed : list Event -> string -> option (list number).
Variable llm_chat : list Event -> list ChatMessage -> option string.

(** [String.prototype.trim] *)
Variable trim : string -> string.

(** [emit], driven to its end. *)
Definition emit : ObserverMemory * World -> Emission * (ObserverMemory * World) :=
  fun '(m, w) =>
    if (JsArray.len (distressSignals m) =? 0)%Z then (mkEmission [] None, (m, w))
    else
      match nth_error (distressSignals m) (length (distressSignals m) - 1) with
      | None => (mkEmission [] None, (m, w))
      | Some latestDistress =>
          match chat llm_chat (analysis_messages latestDistress) w with
          | (Thrown e, w1) => (mkEmission [] (Some e), (m, w1))
          | (Returned analysis, w1) =>
              match embed llm_embed (trim analysis) w1 with
              | (Thrown e, w2) => (mkEmission [] (Some e), (m, w2))
              | (Returned responseVector, w2) =>
                  match embed llm_embed no_distress_text w2 with
                  | (Thrown e, w3) => (mkEmission [] (Some e), (m, w3))
                  | (Returned noDistressVector, w3) =>
                      let isNoDistress :=
                        gtb (SemanticUtils.cosineSimilarity responseVector noDistressVector)
                            0.8 in
                      if isNoDistress
                      then (mkEmission [] None, (clear_distress m, w3))
                      else (mkEmission [spawn_suggestion latestDistress analysis] None,
                            (clear_distress m, w3))
                  end
              end
          end
      end.

(** [getContext] *)
Definition getContext (m : ObserverMemory) : list string :=
  map thought (distressSignals m).

End Observer.

End MetaObserver.

(** ** A synapse through four attempts

    A backend that fails its first request, answers the second, and
    fails from then on; and a second signal with another thought. *)
Definition flaky_chat (reply : string) : list Event -> list ChatMessage -> option string :=
  fun tr _ =>
    match length (backend_calls tr) with
    | 1%nat => Some reply
    | _ => None
    end.

Definition held_signal : Signal :=
  mkSignal "signal-2" "Hold the launch" "ceo" [0; 1] 0 None None.

(** ** The coupling tiers in double precision ([biosphere.ts])

    The numbers of the program are IEEE 754 doubles.  Above they are
    read as real numbers; where the outcome hangs on a rounded value
    against a threshold, as in the tiers of [propagateToReceiver], that
    reading is not the program.  This part embeds [propagateToReceiver]
    and what it calls over binary64 floats, with the arithmetic and the
    comparisons of the program: a comparison with NaN is false, and the
    literals are the doubles nearest to their decimals.  [Math.log] and
    [Math.exp], whose results the language leaves to the platform, are
    oracles. *)

From Stdlib Require Floats.
Set Warnings "-inexact-float".

Module Doubles.
Import PrimFloat.
Local Open Scope float_scope.

Definition double := float.

(** [x > y] *)
Definition gtb (x y : double) : bool := (y <? x).

(** *** [semantic-utils.ts] *)

Definition accumulate (a b : list double) : double * double * double :=
  fold_left
    (fun '(dotProduct, magnitudeA, magnitudeB) '(x, y) =>
       (dotProduct + x * y, magnitudeA + x * x, magnitudeB + y * y))
    (combine a b) (0, 0, 0).

(** [cosineSimilarity] *)
Definition cosineSimilarity (a b : list double) : double :=
  if ((length a =? 0)%nat || (length b =? 0)%nat || negb (length a =? length b)%nat)%bool
  then 0
  else
    let '(dotProduct, magnitudeA, magnitudeB) := accumulate a b in
    let magnitude := sqrt magnitudeA * sqrt magnitudeB in
    if magnitude =? 0 then 0 else dotProduct / magnitude.

(** *** Signals, agents and the world *)

Record Signal := mkSignal {
  signal_id : string;
  thought : string;
  emittedBy : string;
  pheromone : list double;
  timestamp : double;
  inferredIntent : option string;
  inferredTags : option (list string)
}.

Record ReceptorField := mkReceptorField {
  patterns : list string;
  threshold : option double
}.

Record OrganicAgent := mkAgent {
  agent_id : string;
  agent_name : string;
  receptorField : ReceptorField
}.

Inductive Notification :=
| onAgentBorn (agent : OrganicAgent) (tick : Z)
| onSignalEmitted (signal : Signal) (tick : Z)
| onSignalRouted (signal : Signal) (receivers : list OrganicAgent) (tick : Z)
| onAgentSpawned (agent : OrganicAgent) (trigger : Signal) (tick : Z).

Inductive Event :=
| EmbedCall (text : string)
| ChatCall (messages : list ChatMessage)
| Perceive (receiver : OrganicAgent) (signal : Signal)
| Notify (notification : Notification).

(** A request a collaborator makes of the backend on its own. *)
Inductive BackendCall :=
| EmbedRequest (text : string)
| ChatRequest (messages : list ChatMessage).

Definition call_event (c : BackendCall) : Event :=
  match c with
  | EmbedRequest text => EmbedCall text
  | ChatRequest messages => ChatCall messages
  end.

Record World := mkWorld {
  trace : list Event;
  clockReads : nat
}.

Definition record_event (e : Event) (w : World) : World :=
  mkWorld (trace w ++ [e]) (clockReads w).

Definition record_calls (calls : list BackendCall) (w : World) : World :=
  mkWorld (trace w ++ map call_event calls) (clockReads w).

Fixpoint deliveries (tr : list Event) : list (OrganicAgent * Signal) :=
  match tr with
  | [] => []
  | Perceive a s :: tr' => (a, s) :: deliveries tr'
  | _ :: tr' => deliveries tr'
  end.

Definition in_world {S A} (m : M World A) : M (S * World) A :=
  fun '(s, w) => let '(r, w') := m w in (r, (s, w')).

Definition on_self {S} (f : S -> S) : M (S * World) unit :=
  fun '(s, w) => (Returned tt, (f s, w)).

Definition self {S} : M (S * World) S :=
  fun '(s, w) => (Returned s, (s, w)).

Definition delivered {S} (s : S * World) : list (OrganicAgent * Signal) :=
  deliveries (trace (snd s)).

Section WorldOperations.
Variable Date_now : nat -> double.
Variable llm_embed : list Event -> string -> option (list double).
Variable llm_chat : list Event -> list ChatMessage -> option string.

(** [Date.now()] *)
Definition now : M World double :=
  fun w => (Returned (Date_now (clockReads w)), mkWorld (trace w) (S (clockReads w))).

(** [await llm.embed(text)] *)
Definition embed (text : string) : M World (list double) :=
  fun w =>
    match llm_embed (trace w) text with
    | Some vector => (Returned vector, record_event (EmbedCall text) w)
    | None => (Thrown BackendFailure, record_event (EmbedCall text) w)
    end.

(** [await llm.chat(messages)] *)
Definition chat (messages : list ChatMessage) : M World string :=
  fun w =>
    match llm_chat (trace w) messages with
    | Some reply => (Returned reply, record_event (ChatCall messages) w)
    | None => (Thrown BackendFailure, record_event (ChatCall messages) w)
    end.

(** [await receiver.perceive(signal)] *)
Definition perceive (receiver : OrganicAgent) (signal : Signal) : M World unit :=
  fun w => (Returned tt, record_event (Perceive receiver signal) w).

(** [this.observer?.callback?.(...)] *)
Definition notify (n : Notification) : M World unit :=
  fun w => (Returned tt, record_event (Notify n) w).

End WorldOperations.

(** [defineOrganicAgent(config)], as the router sees it. *)
Definition defineOrganicAgent (id name : string) (receptorField : ReceptorField)
  : OrganicAgent :=
  mkAgent id name receptorField.

(** *** The synapse ([signal-synapse.ts]) *)

Record SynapticStrength := mkStrength {
  baseSimilarity : double;
  activations : double;
  efficacy : double;
  confidence : double;
  conductionTime : double;
  lastFiring : double
}.

Record SignalSynapseConfig := mkConfig {
  config_from : string;
  config_to : string;
  config_baseSimilarity : double;
  config_fromContext : list string;
  config_toContext : list string
}.

Record SignalSynapse := mkSynapse {
  synapse_id : string;
  from : string;
  to : string;
  strength : SynapticStrength;
  fromContext : list string;
  toContext : list string;
  synapticMemory : JsMap.t string
}.

Definition createSignalSynapse (config : SignalSynapseConfig) : SignalSynapse :=
  let strength := mkStrength (config_baseSimilarity config) 0 1 0 0 0 in
  mkSynapse (config_from config ++ "→" ++ config_to config)%string
            (config_from config) (config_to config)
            strength
            (config_fromContext config) (config_toContext config)
            JsMap.empty.

Definition increment_activations (s : SynapticStrength) : SynapticStrength :=
  mkStrength (baseSimilarity s) (activations s + 1) (efficacy s) (confidence s)
             (conductionTime s) (lastFiring s).

Definition set_efficacy (v : double) (s : SynapticStrength) : SynapticStrength :=
  mkStrength (baseSimilarity s) (activations s) v (confidence s)
             (conductionTime s) (lastFiring s).

Definition set_confidence (v : double) (s : SynapticStrength) : SynapticStrength :=
  mkStrength (baseSimilarity s) (activations s) (efficacy s) v
             (conductionTime s) (lastFiring s).

Definition set_conductionTime (v : double) (s : SynapticStrength) : SynapticStrength :=
  mkStrength (baseSimilarity s) (activations s) (efficacy s) (confidence s)
             v (lastFiring s).

Definition set_lastFiring (v : double) (s : SynapticStrength) : SynapticStrength :=
  mkStrength (baseSimilarity s) (activations s) (efficacy s) (confidence s)
             (conductionTime s) v.

Definition update_strength (f : SynapticStrength -> SynapticStrength)
           (syn : SignalSynapse) : SignalSynapse :=
  mkSynapse (synapse_id syn) (from syn) (to syn) (f (strength syn))
            (fromContext syn) (toContext syn) (synapticMemory syn).

Definition remember (source transformed : string) (syn : SignalSynapse) : SignalSynapse :=
  mkSynapse (synapse_id syn) (from syn) (to syn) (strength syn)
            (fromContext syn) (toContext syn)
            (JsMap.set source transformed (synapticMemory syn)).

(** [{ ...signal, thought: t, emittedBy: from }] *)
Definition retarget (signal : Signal) (t : string) (author : string) : Signal :=
  mkSignal (signal_id signal) t author (pheromone signal) (timestamp signal)
           (inferredIntent signal) (inferredTags signal).

Definition transform_messages (syn : SignalSynapse) (signal : Signal) : list ChatMessage :=
  [ mkChatMessage "system"
      (JsArray.join newline
         [ "You adapt signals between agents with different vocabularies.";
           EmptyString;
           ("Source context: " ++ JsArray.join ", " (fromContext syn))%string;
           ("Target context: " ++ JsArray.join ", " (toContext syn))%string;
           EmptyString;
           "Reformulate to resonate with target while preserving meaning.";
           "Natural, concise (2-4 sentences)." ]);
    mkChatMessage "user" ("Transform: " ++ dquote ++ thought signal ++ dquote)%string ].

Section Transform.
Variable Math_log : double -> double.
Variable Math_exp : double -> double.
Variable Date_now : nat -> double.
Variable llm_chat : list Event -> list ChatMessage -> option string.

Local Open Scope monad_scope.

Definition sigmoid (x : double) : double := 1 / (1 + Math_exp (- x)).

Definition calculateConfidence (activations efficacy : double) : double :=
  if activations =? 0 then 0
  else
    let logActivations := Math_log (activations + 1) in
    sigmoid (logActivations - 2) * efficacy.

Definition refresh_confidence : M (SignalSynapse * World) unit :=
  on_self (update_strength (fun s =>
    set_confidence (calculateConfidence (activations s) (efficacy s)) s)).

(** [synapse.transform(signal)] *)
Definition transform (signal : Signal) : M (SignalSynapse * World) Signal :=
  firingStart <- in_world (now Date_now) ;;
  syn <- self ;;
  let cached := JsMap.get (thought signal) (synapticMemory syn) in
  match truthy cached with
  | Some cached =>
      on_self (update_strength increment_activations) ;;
      t <- in_world (now Date_now) ;;
      on_self (update_strength (set_lastFiring t)) ;;
      refresh_confidence ;;
      ret (retarget signal cached (from syn))
  | None =>
      try_catch
        (transformed <- in_world (chat llm_chat (transform_messages syn signal)) ;;
         t <- in_world (now Date_now) ;;
         let firingTime := t - firingStart in
         on_self (update_strength increment_activations) ;;
         on_self (update_strength (fun s =>
           set_efficacy ((efficacy s * (activations s - 1) + 1) / activations s) s)) ;;
         on_self (update_strength (fun s =>
           set_conductionTime
             ((conductionTime s * (activations s - 1) + firingTime) / activations s) s)) ;;
         t' <- in_world (now Date_now) ;;
         on_self (update_strength (set_lastFiring t')) ;;
         refresh_confidence ;;
         on_self (remember (thought signal) transformed) ;;
         ret (retarget signal transformed (from syn)))
        (fun error =>
           on_self (update_strength increment_activations) ;;
           on_self (update_strength (fun s =>
             set_efficacy ((efficacy s * (activations s - 1) + 0) / activations s) s)) ;;
           refresh_confidence ;;
           ret signal)
  end.

End Transform.

(** *** The router *)

Record BridgeAgentSpec := mkBridgeAgentSpec {
  spec_id : string;
  spec_name : string;
  receptor_patterns : list string;
  spec_threshold : option double;
  voice : option string
}.

(** The spawner collaborator.  Its operations are oracles that see the
    trace so far; they answer with the requests they made of the backend
    on the way, which go on the trace, and with what they return or
    throw. *)
Record OrganicSpawner := mkSpawner {
  spawner_seedFromGoal :
    option (list Event -> string -> list OrganicAgent ->
            list BackendCall * Outcome (list OrganicAgent));
  spawner_spawnHelperForDistress :
    list Event -> Signal -> list OrganicAgent ->
    list BackendCall * Outcome (option OrganicAgent);
  spawner_spawnBridgeAgent :
    option (list Event -> BridgeAgentSpec -> Signal -> OrganicAgent -> OrganicAgent ->
            list OrganicAgent -> list BackendCall * Outcome (option OrganicAgent))
}.

Record Biosphere := mkBiosphere {
  agents : JsMap.t OrganicAgent;
  signalHistory : list Signal;
  receptorFieldCache : JsMap.t (list double);
  synapses : JsMap.t SignalSynapse;
  birthQueue : list (Outcome unit);
  seeded : bool;
  tick : Z
}.

Definition set_agents (v : JsMap.t OrganicAgent) (b : Biosphere) : Biosphere :=
  mkBiosphere v (signalHistory b) (receptorFieldCache b) (synapses b)
              (birthQueue b) (seeded b) (tick b).

Definition set_receptorFieldCache (v : JsMap.t (list double)) (b : Biosphere) : Biosphere :=
  mkBiosphere (agents b) (signalHistory b) v (synapses b)
              (birthQueue b) (seeded b) (tick b).

Definition set_synapses (v : JsMap.t SignalSynapse) (b : Biosphere) : Biosphere :=
  mkBiosphere (agents b) (signalHistory b) (receptorFieldCache b) v
              (birthQueue b) (seeded b) (tick b).

(** [listAgents] *)
Definition listAgents (b : Biosphere) : list OrganicAgent := JsMap.values (agents b).

Definition bridge_messages (signal : Signal) (source target : OrganicAgent)
  : list ChatMessage :=
  [ mkChatMessage "system"
      (JsArray.join newline
         [ "You design bridge agents that connect incompatible perspectives.";
           EmptyString;
           "Given:";
           "- Source agent with specific vocabulary/concerns";
           "- Target agent with different vocabulary/concerns";
           "- A signal the target cannot understand";
           EmptyString;
           "Discover: What intermediate perspective would translate between them?";
           EmptyString;
           "The bridge agent should:";
           "- Resonate with BOTH source and target vocabularies";
           "- Act as semantic translator";
           "- Have natural expertise in both domains";
           EmptyString;
           "Examples:";
           "- CEO and Engineer: Product Manager (understands business + tech)";
           "- Musician and Physicist: Acoustician (understands harmony + waves)";
           "- Dreamer and Analyst: Psychologist (understands symbols + data)";
           EmptyString;
           "Return JSON with: id, name, receptor_patterns (covering both domains), voice" ]);
    mkChatMessage "user"
      (JsArray.join newline
         [ ("Source: " ++ agent_name source)%string;
           ("Source concerns: "
              ++ JsArray.join ", " (patterns (receptorField source)))%string;
           EmptyString;
           ("Target: " ++ agent_name target)%string;
           ("Target concerns: "
              ++ JsArray.join ", " (patterns (receptorField target)))%string;
           EmptyString;
           "Signal that cannot bridge:";
           Router.quoted (thought signal);
           EmptyString;
           "What bridge agent would translate between these perspectives?";
           EmptyString;
           "Return JSON:";
           Router.bridge_example_json ]) ].

Section Coordinator.
Variable Math_log : double -> double.
Variable Math_exp : double -> double.
Variable Date_now : nat -> double.
Variable llm_embed : list Event -> string -> option (list double).
Variable llm_chat : list Event -> list ChatMessage -> option string.
Variable spawner : option OrganicSpawner.

(** The fenced block of the reply, [JSON.parse] and the field [agent]:
    [Thrown] is a parse error, [Returned None] an object without a
    usable [agent]. *)
Variable parse_bridge_spec : string -> Outcome (option BridgeAgentSpec).

Local Open Scope monad_scope.

Definition lift_outcome {A} (o : Outcome A) : M (Biosphere * World) A :=
  fun s => (o, s).

Definition world_trace : M (Biosphere * World) (list Event) :=
  fun '(b, w) => (Returned (trace w), (b, w)).

(** The call of an operation of the spawner: its requests of the
    backend go on the trace, then it returns or throws. *)
Definition collaborate {A} (answer : list BackendCall * Outcome A)
  : M (Biosphere * World) A :=
  fun '(b, w) => (snd answer, (b, record_calls (fst answer) w)).

(** [birth] *)
Definition birth (agent : OrganicAgent) : M (Biosphere * World) unit :=
  on_self (fun b => set_agents (JsMap.set (agent_id agent) agent (agents b)) b) ;;
  let receptorText := JsArray.join ". " (patterns (receptorField agent)) in
  receptorVector <- in_world (embed llm_embed receptorText) ;;
  on_self (fun b =>
    set_receptorFieldCache
      (JsMap.set (agent_id agent) receptorVector (receptorFieldCache b)) b) ;;
  b <- self ;;
  in_world (notify (onAgentBorn agent (tick b))).

(** [findSimilar] *)
Definition findSimilar (name : string) : M (Biosphere * World) (option OrganicAgent) :=
  targetVector <- in_world (embed llm_embed name) ;;
  b <- self ;;
  best <-
    (fix loop (candidates : list OrganicAgent)
         (best : option OrganicAgent * double)
       : M (Biosphere * World) (option OrganicAgent * double) :=
       match candidates with
       | [] => ret best
       | agent :: rest =>
           let agentDescription :=
             (agent_name agent ++ " "
                ++ JsArray.join " " (patterns (receptorField agent)))%string in
           agentVector <- in_world (embed llm_embed agentDescription) ;;
           let similarity := cosineSimilarity targetVector agentVector in
           if gtb similarity 0.75 && gtb similarity (snd best)
           then loop rest (Some agent, similarity)
           else loop rest best
       end) (listAgents b) (None, 0) ;;
  ret (fst best).

(** [getOrCreateSynapse]; the synapse is handed back by its key in the
    table. *)
Definition getOrCreateSynapse (from to : OrganicAgent) (similarity : double)
  : M (Biosphere * World) string :=
  let synapseId := (agent_id from ++ "→" ++ agent_id to)%string in
  b <- self ;;
  if JsMap.has synapseId (synapses b) then ret synapseId
  else
    let synapse :=
      createSignalSynapse
        (mkConfig (agent_id from) (agent_id to) similarity
                  (patterns (receptorField from))
                  (patterns (receptorField to))) in
    on_self (fun b => set_synapses (JsMap.set synapseId synapse (synapses b)) b) ;;
    ret synapseId.

(** [synapse.transform(signal)] on the synapse stored under a key. *)
Definition transform_through (synapseId : string) (signal : Signal)
  : M (Biosphere * World) Signal :=
  fun '(b, w) =>
    match JsMap.get synapseId (synapses b) with
    | None => (Thrown CollaboratorFailure, (b, w))
    | Some synapse =>
        let '(r, (synapse', w')) :=
          transform Math_log Math_exp Date_now llm_chat signal (synapse, w) in
        (r, (set_synapses (JsMap.set synapseId synapse' (synapses b)) b, w'))
    end.

(** [spawnBridgeAgent] *)
Definition spawnBridgeAgent (signal : Signal) (source target : OrganicAgent)
           (similarity : double) : M (Biosphere * World) unit :=
  match spawner with
  | None => ret tt
  | Some sp =>
      bridgeSpec <- in_world (chat llm_chat (bridge_messages signal source target)) ;;
      try_catch
        (parsed <- lift_outcome (parse_bridge_spec bridgeSpec) ;;
         match parsed with
         | None => ret tt
         | Some blueprint =>
             if String.eqb (spec_id blueprint) EmptyString then ret tt
             else
               existing <- findSimilar (spec_name blueprint) ;;
               match existing with
               | Some _ => ret tt
               | None =>
                   bridge <-
                     match spawner_spawnBridgeAgent sp with
                     | Some spawn =>
                         b <- self ;;
                         tr <- world_trace ;;
                         collaborate
                           (spawn tr blueprint signal source target (listAgents b))
                     | None =>
                         ret (Some (defineOrganicAgent
                                      (spec_id blueprint) (spec_name blueprint)
                                      (mkReceptorField
                                         (receptor_patterns blueprint)
                                         (Some (match spec_threshold blueprint with
                                                | Some t => t
                                                | None => 0.5
                                                end)))))
                     end ;;
                   match bridge with
                   | None => ret tt
                   | Some bridge =>
                       b <- self ;;
                       if JsMap.has (agent_id bridge) (agents b) then ret tt
                       else
                         birth bridge ;;
                         in_world (perceive bridge signal)
                   end
               end
         end)
        (fun error => ret tt)
  end.

(** [propagateToReceiver] *)
Definition propagateToReceiver (signal : Signal) (source receiver : OrganicAgent)
  : M (Biosphere * World) unit :=
  b <- self ;;
  match JsMap.get (agent_id receiver) (receptorFieldCache b) with
  | None => ret tt
  | Some receiverVector =>
      let similarity := cosineSimilarity (pheromone signal) receiverVector in
      if gtb similarity 0.8 then
        in_world (perceive receiver signal)
      else if gtb similarity 0.5 then
        synapse <- getOrCreateSynapse source receiver similarity ;;
        transformed <- transform_through synapse signal ;;
        in_world (perceive receiver transformed)
      else if gtb similarity 0.3 then
        spawnBridgeAgent signal source receiver similarity
      else
        ret tt
  end.

End Coordinator.

(** What routing can observe of a state: the deliveries made so far and
    the registry. *)
Definition routing_view (s : Biosphere * World)
  : list (OrganicAgent * Signal) * JsMap.t OrganicAgent :=
  (delivered s, agents (fst s)).

(** A computation that hands signals only to agents that were not in
    the registry when it started. *)
Definition only_to_newcomers {A} (m : M (Biosphere * World) A) : Prop :=
  forall s r s', m s = (r, s') ->
    exists extra,
      delivered s' = delivered s ++ extra
      /\ forall agent signal,
          In (agent, signal) extra -> JsMap.has (agent_id agent) (agents (fst s)) = false.

(** Concrete data for runs: a router with three recipients, a clock, a
    backend, and stand-ins for [Math.log] and [Math.exp]. *)
Definition analyst : OrganicAgent :=
  mkAgent "analyst" "Risk Analyst" (mkReceptorField ["risk"; "exposure"] None).

Definition engineer : OrganicAgent :=
  mkAgent "engineer" "Engineer" (mkReceptorField ["latency"; "throughput"] (Some 0.5)).

Definition lawyer : OrganicAgent :=
  mkAgent "lawyer" "Counsel" (mkReceptorField ["liability"] None).

Definition ceo : OrganicAgent :=
  mkAgent "ceo" "CEO" (mkReceptorField ["decision"] None).

Definition tiers_router : Biosphere :=
  mkBiosphere [("analyst", analyst); ("engineer", engineer); ("lawyer", lawyer)] []
              [("analyst", [1; 0; 0; 0]); ("engineer", [1; 0]);
               ("lawyer", [1; 0; 0; 0; 0])]
              [] [] true 0%Z.

(** A router whose one recipient has the receptor embedding [7, 4]. *)
Definition rounding_router : Biosphere :=
  mkBiosphere [("engineer", engineer)] [] [("engineer", [7; 4])] [] [] true 0%Z.

Definition signal_with (pheromone : list double) : Signal :=
  mkSignal "signal-7" "Ship the fix before the audit" "ceo" pheromone 0 None None.

Definition initial_world : World := mkWorld [] 0.

Definition example_clock : nat -> double :=
  fun n => match n with O => 0 | _ => 100 end.

Definition embed_fixed (vector : list double) : list Event -> string -> option (list double) :=
  fun _ _ => Some vector.

Definition chat_fixed (reply : string) : list Event -> list ChatMessage -> option string :=
  fun _ _ => Some reply.

Definition no_blueprint : string -> Outcome (option BridgeAgentSpec) :=
  fun _ => Returned None.

(** Crude stand-ins: the runs below do not look at the confidence. *)
Definition flat_log : double -> double := fun _ => 0.
Definition flat_exp : double -> double := fun _ => 1.

(** *** The meta-observer ([defineMetaObserver]) *)

Module Observer.

(** The variables closed over by [defineMetaObserver]. *)
Record ObserverMemory := mkObserverMemory {
  distressSignals : list Signal;
  lastProcessedVector : list double
}.

Definition new_memory : ObserverMemory := mkObserverMemory [] [].

(** [perceive] *)
Definition perceive (signal : Signal) (m : ObserverMemory) : ObserverMemory :=
  let accepted := mkObserverMemory (distressSignals m ++ [signal]) (pheromone signal) in
  if (0 <? JsArray.len (lastProcessedVector m))%Z then
    let similarity := cosineSimilarity (pheromone signal) (lastProcessedVector m) in
    if gtb similarity 0.90 then m else accepted
  else accepted.

Definition analysis_messages (latestDistress : Signal) : list ChatMessage :=
  [ mkChatMessage "system" MetaObserver.observer_prompt;
    mkChatMessage "user"
      ("Signal from " ++ emittedBy latestDistress ++ ":" ++ newline ++ newline
         ++ dquote ++ thought latestDistress ++ dquote ++ newline ++ newline
         ++ "What do you sense?")%string ].

Definition spawn_suggestion (latestDistress : Signal) (analysis : string) : string :=
  ("I sense " ++ emittedBy latestDistress ++ " cannot proceed. " ++ analysis
     ++ ". Perhaps spawning a helper perspective would resolve this.")%string.

Definition clear_distress (m : ObserverMemory) : ObserverMemory :=
  mkObserverMemory [] (lastProcessedVector m).

Section Emit.
Variable llm_embed : list Event -> string -> option (list double).
Variable llm_chat : list Event -> list ChatMessage -> option string.

(** [String.prototype.trim] *)
Variable trim : string -> string.

(** [emit], driven to its end. *)
Definition emit : ObserverMemory * World -> Emission * (ObserverMemory * World) :=
  fun '(m, w) =>
    if (JsArray.len (distressSignals m) =? 0)%Z then (mkEmission [] None, (m, w))
    else
      match nth_error (distressSignals m) (length (distressSignals m) - 1) with
      | None => (mkEmission [] None, (m, w))
      | Some latestDistress =>
          match chat llm_chat (analysis_messages latestDistress) w with
          | (Thrown e, w1) => (mkEmission [] (Some e), (m, w1))
          | (Returned analysis, w1) =>
              match embed llm_embed (trim analysis) w1 with
              | (Thrown e, w2) => (mkEmission [] (Some e), (m, w2))
              | (Returned responseVector, w2) =>
                  match embed llm_embed MetaObserver.no_distress_text w2 with
                  | (Thrown e, w3) => (mkEmission [] (Some e), (m, w3))
                  | (Returned noDistressVector, w3) =>
                      let isNoDistress :=
                        gtb (cosineSimilarity responseVector noDistressVector) 0.8 in
                      if isNoDistress
                      then (mkEmission [] None, (clear_distress m, w3))
                      else (mkEmission [spawn_suggestion latestDistress analysis] None,
                            (clear_distress m, w3))
                  end
              end
          end
      end.

End Emit.

(** A backend that is down. *)
Definition embed_down : list Event -> string -> option (list double) := fun _ _ => None.
Definition chat_down : list Event -> list ChatMessage -> option string := fun _ _ => None.

End Observer.

End Doubles.
(** * Properties *)

(** ** Facts about arrays *)

Module JsArrayFacts.
Import JsArray.

Lemma length_slice_suffix {A : Type} (arr : list A) (w : Z) :
  (0 < w <= len arr)%Z ->
  len (slice arr (- w)%Z None) = w.
Proof.
  intros Hw. unfold slice, len, relative_index in *.
  destruct (Z.ltb_spec (- w) 0)%Z; [|lia].
  rewrite length_firstn, length_skipn. lia.
Qed.

Lemma length_slice_window {A : Type} (arr : list A) (w : Z) :
  (0 < w)%Z -> (2 * w <= len arr)%Z ->
  len (slice arr (- (w * 2))%Z (Some (- w)%Z)) = w.
Proof.
  intros Hw H2. unfold slice, len, relative_index in *.
  destruct (Z.ltb_spec (- (w * 2)) 0)%Z; [|lia].
  destruct (Z.ltb_spec (- w) 0)%Z; [|lia].
  rewrite length_firstn, length_skipn. lia.
Qed.

Lemma slice_zero_all {A : Type} (arr : list A) :
  slice arr 0%Z None = arr.
Proof.
  unfold slice, relative_index. simpl.
  rewrite Z.min_l by lia. simpl.
  rewrite Z.sub_0_r, Nat2Z.id. apply firstn_all.
Qed.

Lemma slice_zero_zero {A : Type} (arr : list A) :
  slice arr 0%Z (Some 0%Z) = [].
Proof.
  unfold slice, relative_index. simpl.
  rewrite Z.min_l by lia. reflexivity.
Qed.

Lemma In_slice_suffix_last {A : Type} (l : list A) (e : A) (k : Z) :
  (0 < k)%Z -> In e (slice (l ++ [e]) (- k)%Z None).
Proof.
  intros Hk. unfold slice, relative_index.
  destruct (Z.ltb_spec (- k) 0)%Z; [|lia].
  rewrite length_app. simpl length.
  set (start := Z.to_nat (Z.max (Z.of_nat (length l + 1) + - k) 0)).
  assert (Hstart : (start <= length l)%nat) by (unfold start; lia).
  rewrite skipn_app.
  replace (start - length l)%nat with 0%nat by lia. simpl skipn.
  rewrite firstn_all2.
  - apply in_or_app. right. now left.
  - rewrite length_app, length_skipn. simpl. unfold start. lia.
Qed.

Example slice_last_two : slice [1; 2; 3; 4; 5]%nat (- 2)%Z None = [4; 5]%nat.
Proof. reflexivity. Qed.

Example slice_previous_window :
  slice [1; 2; 3; 4; 5]%nat (- (2 * 2))%Z (Some (- 2)%Z) = [2; 3]%nat.
Proof. reflexivity. Qed.

Example slice_short_history : slice [1; 2]%nat (- 10)%Z None = [1; 2]%nat.
Proof. reflexivity. Qed.

Example slice_first_three : slice [1; 2; 3; 4; 5]%nat 0%Z (Some 3%Z) = [1; 2; 3]%nat.
Proof. reflexivity. Qed.

End JsArrayFacts.

(** ** Facts about maps *)

Module JsMapFacts.
Import JsMap.
Section WithValue.
Context {V : Type}.
Implicit Types (m : JsMap.t V) (k : string) (v : V).

Lemma get_set_same k v m : get k (set k v m) = Some v.
Proof.
  induction m as [|[k' v'] m IH]; simpl.
  - now rewrite String.eqb_refl.
  - destruct (String.eqb k k') eqn:E; simpl; rewrite ?E, ?String.eqb_refl; auto.
Qed.

Lemma get_set_other k k' v m : k <> k' -> get k' (set k v m) = get k' m.
Proof.
  intros Hne. induction m as [|[k0 v0] m IH]; simpl.
  - destruct (String.eqb_spec k' k); congruence.
  - destruct (String.eqb_spec k k0); simpl.
    + subst k0. destruct (String.eqb_spec k' k); congruence.
    + now rewrite IH.
Qed.

Lemma get_delete_same k m : get k (delete k m) = None.
Proof.
  induction m as [|[k' v'] m IH]; simpl; auto.
  destruct (String.eqb k k') eqn:E; simpl; auto.
  now rewrite E.
Qed.

Lemma has_delete_same k m : has k (delete k m) = false.
Proof. unfold has. now rewrite get_delete_same. Qed.

Lemma get_delete_other k k' m : k <> k' -> get k' (delete k m) = get k' m.
Proof.
  intros Hne. induction m as [|[k0 v0] m IH]; simpl; auto.
  destruct (String.eqb_spec k k0); simpl.
  - subst k0. destruct (String.eqb_spec k' k); congruence.
  - now rewrite IH.
Qed.

Lemma delete_absent k m : get k m = None -> delete k m = m.
Proof.
  induction m as [|[k' v'] m IH]; simpl; auto.
  destruct (String.eqb k k') eqn:E; simpl; [discriminate|].
  intros H. now rewrite IH.
Qed.

(** Setting a fresh key appends it; deleting it again gives back the
    very same map, order included. *)
Lemma delete_set_fresh k v m : get k m = None -> delete k (set k v m) = m.
Proof.
  induction m as [|[k' v'] m IH]; simpl.
  - now rewrite String.eqb_refl.
  - destruct (String.eqb k k') eqn:E; [discriminate|].
    intros H. simpl. rewrite E. simpl. now rewrite IH.
Qed.

Lemma has_false_get k m : has k m = false <-> get k m = None.
Proof. unfold has. destruct (get k m); split; congruence. Qed.

Lemma get_In_values k v m : get k m = Some v -> In v (values m).
Proof.
  induction m as [|[k' v'] m IH]; simpl; [discriminate|].
  destruct (String.eqb k k'); intros H.
  - left. congruence.
  - right. auto.
Qed.

End WithValue.
End JsMapFacts.

(** ** The similarity is a cosine *)

Module SemanticUtilsFacts.
Import SemanticUtils.




End SemanticUtilsFacts.

(** ** Comparisons, clamping and traces *)

Lemma gtb_true x y : gtb x y = true <-> x > y.
Proof. unfold gtb. destruct (Rgt_dec x y); split; intros; auto; discriminate. Qed.

Lemma gtb_false x y : gtb x y = false <-> x <= y.
Proof.
  unfold gtb. destruct (Rgt_dec x y); split; intros; auto; try discriminate; lra.
Qed.

Lemma ltb_true x y : ltb x y = true <-> x < y.
Proof. unfold ltb. destruct (Rlt_dec x y); split; intros; auto; discriminate. Qed.

Lemma ltb_false x y : ltb x y = false <-> y <= x.
Proof.
  unfold ltb. destruct (Rlt_dec x y); split; intros; auto; try discriminate; lra.
Qed.

Lemma clamp01_bounds x : 0 <= clamp01 x <= 1.
Proof.
  unfold clamp01. split.
  - apply Rmax_l.
  - apply Rmax_lub; [lra | apply Rmin_l].
Qed.

Lemma clamp01_id x : 0 <= x <= 1 -> clamp01 x = x.
Proof.
  intros [H0 H1]. unfold clamp01.
  rewrite Rmin_right by exact H1. now rewrite Rmax_right.
Qed.

Lemma deliveries_app tr1 tr2 : deliveries (tr1 ++ tr2) = deliveries tr1 ++ deliveries tr2.
Proof.
  induction tr1 as [|e tr1 IH]; simpl; auto.
  destruct e; simpl; now rewrite ?IH.
Qed.


(** ** The synapse *)

Module SynapseFacts.
Import Synapse.

Lemma sigmoid_pos x : 0 < sigmoid x.
Proof.
  unfold sigmoid. pose proof (exp_pos (- x)).
  apply Rdiv_lt_0_compat; lra.
Qed.




Lemma calculateConfidence_zero e : calculateConfidence (INR 0) e = 0.
Proof.
  unfold calculateConfidence. simpl.
  destruct (Req_dec_T 0 0); [reflexivity | congruence].
Qed.

Lemma calculateConfidence_succ n e :
  calculateConfidence (INR (S n)) e = sigmoid (ln (INR (S n) + 1) - 2) * e.
Proof.
  unfold calculateConfidence.
  destruct (Req_dec_T (INR (S n)) 0) as [H0|_]; [|reflexivity].
  pose proof (pos_INR n). rewrite S_INR in H0. lra.
Qed.

Lemma calculateConfidence_nonneg n e : 0 <= e -> 0 <= calculateConfidence (INR n) e.
Proof.
  intros He. destruct n.
  - rewrite calculateConfidence_zero. lra.
  - rewrite calculateConfidence_succ.
    apply Rmult_le_pos; [left; apply sigmoid_pos | exact He].
Qed.

Section TransformFacts.
Variable Date_now : nat -> number.
Variable llm_chat : list Event -> list ChatMessage -> option string.

Ltac run_transform :=
  unfold transform, bind, in_world, now, self, on_self, refresh_confidence,
    ret, try_catch, chat; simpl.

(** The three paths of [transform] in closed form. *)
Lemma transform_recall_eq syn signal w cached :
  truthy (JsMap.get (thought signal) (synapticMemory syn)) = Some cached ->
  transform Date_now llm_chat signal (syn, w) =
  (Returned (retarget signal cached (from syn)),
   (update_strength
      (fun s => set_confidence (calculateConfidence (INR (activations s)) (efficacy s)) s)
      (update_strength (set_lastFiring (Date_now (S (clockReads w))))
         (update_strength increment_activations syn)),
    mkWorld (trace w) (S (S (clockReads w))))).
Proof. intros H. run_transform. now rewrite H. Qed.

Lemma transform_failure_eq syn signal w :
  truthy (JsMap.get (thought signal) (synapticMemory syn)) = None ->
  llm_chat (trace w) (transform_messages syn signal) = None ->
  transform Date_now llm_chat signal (syn, w) =
  (Returned signal,
   (update_strength
      (fun s => set_confidence (calculateConfidence (INR (activations s)) (efficacy s)) s)
      (update_strength
         (fun s => set_efficacy
                     ((efficacy s * (INR (activations s) - 1) + 0) / INR (activations s)) s)
         (update_strength increment_activations syn)),
    mkWorld (trace w ++ [ChatCall (transform_messages syn signal)]) (S (clockReads w)))).
Proof. intros H Hc. run_transform. rewrite H. simpl. now rewrite Hc. Qed.

Lemma transform_success_eq syn signal w reply :
  truthy (JsMap.get (thought signal) (synapticMemory syn)) = None ->
  llm_chat (trace w) (transform_messages syn signal) = Some reply ->
  transform Date_now llm_chat signal (syn, w) =
  (Returned (retarget signal reply (from syn)),
   (remember (thought signal) reply
      (update_strength
         (transmission_recorded 1 (Date_now (S (clockReads w)) - Date_now (clockReads w))
                                (Date_now (S (S (clockReads w)))))
         syn),
    mkWorld (trace w ++ [ChatCall (transform_messages syn signal)])
            (S (S (S (clockReads w)))))).
Proof. intros H Hc. run_transform. rewrite H. simpl. now rewrite Hc. Qed.

(** [transform] always returns a signal, and hands nothing to any
    agent itself. *)
Lemma transform_returns syn signal w :
  exists result syn' w',
    transform Date_now llm_chat signal (syn, w) = (Returned result, (syn', w'))
    /\ deliveries (trace w') = deliveries (trace w).
Proof.
  destruct (truthy (JsMap.get (thought signal) (synapticMemory syn))) as [cached|] eqn:Hc.
  - do 3 eexists. split; [apply transform_recall_eq; exact Hc|]. reflexivity.
  - destruct (llm_chat (trace w) (transform_messages syn signal)) as [reply|] eqn:Hr.
    + do 3 eexists. split; [apply transform_success_eq; [exact Hc | exact Hr]|].
      simpl. rewrite deliveries_app. simpl. now rewrite app_nil_r.
    + do 3 eexists. split; [apply transform_failure_eq; [exact Hc | exact Hr]|].
      simpl. rewrite deliveries_app. simpl. now rewrite app_nil_r.
Qed.

(** The efficacy of a synapse stays a mean of successes: it starts at 1
    and every call of [transform] keeps it between 0 and 1. *)
Lemma running_mean_bounds (e x : R) (n : nat) :
  0 <= e <= 1 -> 0 <= x <= 1 ->
  0 <= (e * (INR (S n) - 1) + x) / INR (S n) <= 1.
Proof.
  intros He Hx. rewrite S_INR. pose proof (pos_INR n) as Hn.
  replace (INR n + 1 - 1) with (INR n) by ring.
  assert (Hpos : 0 < INR n + 1) by lra.
  split.
  - apply Rmult_le_pos; [|left; now apply Rinv_0_lt_compat].
    assert (0 <= e * INR n) by (apply Rmult_le_pos; lra). lra.
  - apply Rmult_le_reg_r with (INR n + 1); [exact Hpos|].
    unfold Rdiv. rewrite Rmult_assoc, Rinv_l by lra.
    assert (e * INR n <= 1 * INR n) by (apply Rmult_le_compat_r; lra). lra.
Qed.

Lemma transform_keeps_efficacy syn signal w :
  0 <= efficacy (strength syn) <= 1 ->
  0 <= efficacy (strength (fst (snd (transform Date_now llm_chat signal (syn, w))))) <= 1.
Proof.
  intros He.
  destruct (truthy (JsMap.get (thought signal) (synapticMemory syn))) as [cached|] eqn:Hc.
  - rewrite (transform_recall_eq _ _ _ _ Hc). exact He.
  - destruct (llm_chat (trace w) (transform_messages syn signal)) as [reply|] eqn:Hr.
    + rewrite (transform_success_eq _ _ _ _ Hc Hr). simpl.
      apply running_mean_bounds; [exact He | lra].
    + rewrite (transform_failure_eq _ _ _ Hc Hr). simpl.
      apply running_mean_bounds; [exact He | lra].
Qed.

(** The recall path.  When the memo table holds a non-empty
    transformation for the exact thought of the signal, [transform]
    makes no backend call (the trace is unchanged), returns the signal
    with the remembered thought and [emittedBy] set to the source agent,
    counts one more activation, refreshes [lastFiring] and [confidence],
    and leaves [efficacy], [conductionTime] and the memo table as they
    were. *)
Lemma transform_memory_recall syn signal w cached :
  truthy (JsMap.get (thought signal) (synapticMemory syn)) = Some cached ->
  exists result syn' w',
    transform Date_now llm_chat signal (syn, w) = (Returned result, (syn', w'))
    /\ trace w' = trace w
    /\ thought result = cached
    /\ emittedBy result = from syn
    /\ result = retarget signal cached (from syn)
    /\ activations (strength syn') = S (activations (strength syn))
    /\ lastFiring (strength syn') = Date_now (S (clockReads w))
    /\ confidence (strength syn') =
         calculateConfidence (INR (S (activations (strength syn))))
                             (efficacy (strength syn))
    /\ efficacy (strength syn') = efficacy (strength syn)
    /\ conductionTime (strength syn') = conductionTime (strength syn)
    /\ baseSimilarity (strength syn') = baseSimilarity (strength syn)
    /\ synapticMemory syn' = synapticMemory syn.
Proof.
  intros Hhit. do 3 eexists. split.
  - apply transform_recall_eq. exact Hhit.
  - simpl. repeat split; reflexivity.
Qed.

(** C6.  When the memo table has nothing usable for the thought and the
    backend call fails, [transform] does not throw: it returns the very
    signal it was given, counts one more activation and folds a 0 into
    the running mean of the efficacy. *)
Theorem transform_failure_passes_through syn signal w :
  truthy (JsMap.get (thought signal) (synapticMemory syn)) = None ->
  llm_chat (trace w) (transform_messages syn signal) = None ->
  exists syn' w',
    transform Date_now llm_chat signal (syn, w) = (Returned signal, (syn', w'))
    /\ activations (strength syn') = S (activations (strength syn))
    /\ efficacy (strength syn') =
         (efficacy (strength syn) * (INR (S (activations (strength syn))) - 1) + 0)
         / INR (S (activations (strength syn)))
    /\ confidence (strength syn') =
         calculateConfidence (INR (activations (strength syn')))
                             (efficacy (strength syn'))
    /\ synapticMemory syn' = synapticMemory syn
    /\ trace w' = trace w ++ [ChatCall (transform_messages syn signal)].
Proof.
  intros Hmiss Hdown. do 2 eexists. split.
  - apply transform_failure_eq; assumption.
  - simpl. repeat split; reflexivity.
Qed.

End TransformFacts.

Lemma transform_memory_recall_witness :
  exists result syn' w',
    transform example_clock chat_down example_signal
      (remember (thought example_signal) "Friday is the release date"
         (createSignalSynapse example_config), initial_world)
    = (Returned result, (syn', w'))
    /\ trace w' = trace initial_world
    /\ thought result = "Friday is the release date"
    /\ emittedBy result = "ceo"
    /\ result = retarget example_signal "Friday is the release date" "ceo"
    /\ activations (strength syn') = 1%nat
    /\ lastFiring (strength syn') = example_clock 1
    /\ confidence (strength syn') = calculateConfidence (INR 1) 1
    /\ efficacy (strength syn') = 1
    /\ conductionTime (strength syn') = 0
    /\ baseSimilarity (strength syn') = 0.6
    /\ synapticMemory syn' = [("We must ship on Friday", "Friday is the release date")].
Proof.
  exact (transform_memory_recall example_clock chat_down
           (remember (thought example_signal) "Friday is the release date"
              (createSignalSynapse example_config))
           example_signal initial_world "Friday is the release date" eq_refl).
Defined.

Lemma transform_failure_passes_through_witness :
  exists syn' w',
    transform example_clock chat_down example_signal
      (createSignalSynapse example_config, initial_world)
    = (Returned example_signal, (syn', w'))
    /\ activations (strength syn') = 1%nat
    /\ efficacy (strength syn') = (1 * (INR 1 - 1) + 0) / INR 1
    /\ confidence (strength syn') =
         calculateConfidence (INR (activations (strength syn')))
                             (efficacy (strength syn'))
    /\ synapticMemory syn' = JsMap.empty
    /\ trace w' =
         [ChatCall (transform_messages (createSignalSynapse example_config) example_signal)].
Proof.
  exact (transform_failure_passes_through example_clock chat_down
           (createSignalSynapse example_config) example_signal initial_world
           eq_refl eq_refl).
Defined.

(** After one backend transformation that took 100 ms, a recall leaves
    the mean conduction time at 100 ms and the efficacy where it was: a
    zero-latency transmission at full success folded into the running
    means would have brought the mean latency to 50 ms. *)
Lemma recall_is_not_a_recorded_transmission :
  exists r1 syn1 w1 r2 syn2 w2,
    transform example_clock (chat_fixed "Friday is the release date") example_signal
      (createSignalSynapse example_config, initial_world) = (r1, (syn1, w1))
    /\ truthy (JsMap.get (thought example_signal) (synapticMemory syn1))
       = Some "Friday is the release date"
    /\ transform example_clock (chat_fixed "Friday is the release date") example_signal
         (syn1, w1) = (r2, (syn2, w2))
    /\ conductionTime (strength syn2) = 100
    /\ forall t, strength syn2 <> transmission_recorded 1 0 t (strength syn1).
Proof.
  do 6 eexists. split; [|split; [|split; [|split]]].
  - apply transform_success_eq; reflexivity.
  - reflexivity.
  - apply transform_recall_eq. reflexivity.
  - simpl. lra.
  - intros t Heq. apply (f_equal conductionTime) in Heq. simpl in Heq. lra.
Qed.

(** A transformation that came back empty is stored but never recalled:
    the next call for the same thought asks the backend again. *)
Lemma empty_reply_is_not_recalled :
  exists r1 syn1 w1 r2 syn2 w2,
    transform example_clock (chat_fixed EmptyString) example_signal
      (createSignalSynapse example_config, initial_world) = (r1, (syn1, w1))
    /\ JsMap.get (thought example_signal) (synapticMemory syn1) = Some EmptyString
    /\ transform example_clock (chat_fixed EmptyString) example_signal (syn1, w1)
       = (r2, (syn2, w2))
    /\ length (backend_calls (trace w1)) = 1%nat
    /\ length (backend_calls (trace w2)) = 2%nat.
Proof.
  do 6 eexists. split; [|split; [|split; [|split]]].
  - apply transform_success_eq; reflexivity.
  - reflexivity.
  - apply transform_success_eq; reflexivity.
  - reflexivity.
  - reflexivity.
Qed.

(** C3 on the code.  A synapse goes through four attempts: the backend
    fails, the backend transforms the thought, the same thought is
    recalled from memory, and the backend fails on another thought.  The
    recall makes no backend call and returns the remembered text under
    the id of the source agent, but it only counts an activation: the
    count is the divisor of the running mean that the other two paths
    keep in [efficacy], and the recall folds nothing into that mean.
    After the four attempts the efficacy is 3/8.  As the rate of
    successful transmissions over attempts it would be 2/4, with the
    recall as the successful transmission it is, or 1/3 if a recall were
    no attempt at all. *)
Theorem recall_skews_efficacy :
  let chat := flaky_chat "Friday is the release date" in
  let transformed := retarget example_signal "Friday is the release date" "ceo" in
  exists syn1 w1 syn2 w2 syn3 w3 syn4 w4,
    transform example_clock chat example_signal
              (createSignalSynapse example_config, initial_world)
    = (Returned example_signal, (syn1, w1))
    /\ transform example_clock chat example_signal (syn1, w1)
       = (Returned transformed, (syn2, w2))
    /\ transform example_clock chat example_signal (syn2, w2)
       = (Returned transformed, (syn3, w3))
    /\ trace w3 = trace w2
    /\ transform example_clock chat held_signal (syn3, w3)
       = (Returned held_signal, (syn4, w4))
    /\ (activations (strength syn1) = 1%nat /\ efficacy (strength syn1) = 0)
    /\ (activations (strength syn2) = 2%nat /\ efficacy (strength syn2) = 1 / 2)
    /\ (activations (strength syn3) = 3%nat /\ efficacy (strength syn3) = 1 / 2)
    /\ (activations (strength syn4) = 4%nat /\ efficacy (strength syn4) = 3 / 8)
    /\ efficacy (strength syn4) <> 2 / 4
    /\ efficacy (strength syn4) <> 1 / 3.
Proof.
  intros chat transformed.
  pose proof (transform_failure_eq example_clock chat
                (createSignalSynapse example_config) example_signal initial_world
                eq_refl eq_refl) as H1.
  match type of H1 with
  | _ = (_, (?s, ?w)) => set (syn1 := s) in H1; set (w1 := w) in H1
  end.
  pose proof (transform_success_eq example_clock chat syn1 example_signal w1
                "Friday is the release date" eq_refl eq_refl) as H2.
  match type of H2 with
  | _ = (_, (?s, ?w)) => set (syn2 := s) in H2; set (w2 := w) in H2
  end.
  pose proof (transform_recall_eq example_clock chat syn2 example_signal w2
                "Friday is the release date" eq_refl) as H3.
  match type of H3 with
  | _ = (_, (?s, ?w)) => set (syn3 := s) in H3; set (w3 := w) in H3
  end.
  pose proof (transform_failure_eq example_clock chat syn3 held_signal w3
                eq_refl eq_refl) as H4.
  match type of H4 with
  | _ = (_, (?s, ?w)) => set (syn4 := s) in H4; set (w4 := w) in H4
  end.
  assert (E1 : efficacy (strength syn1) = 0).
  { unfold syn1. simpl. lra. }
  assert (E2 : efficacy (strength syn2) = 1 / 2).
  { unfold syn2, syn1. simpl. lra. }
  assert (E3 : efficacy (strength syn3) = 1 / 2).
  { rewrite <- E2. reflexivity. }
  assert (E4 : efficacy (strength syn4) = 3 / 8).
  { unfold syn4, syn3, syn2, syn1. simpl. lra. }
  exists syn1, w1, syn2, w2, syn3, w3, syn4, w4.
  split; [exact H1|]. split; [exact H2|]. split; [exact H3|]. split; [reflexivity|].
  split; [exact H4|].
  split; [split; [reflexivity | exact E1]|].
  split; [split; [reflexivity | exact E2]|].
  split; [split; [reflexivity | exact E3]|].
  split; [split; [reflexivity | exact E4]|].
  rewrite E4. split; lra.
Qed.




End SynapseFacts.

(** ** The equilibrium detector *)

Module EquilibriumFacts.
Import Equilibrium.

Lemma clamp01_half : clamp01 (Rmin 1 2 / 2) = 1 / 2.
Proof.
  rewrite Rmin_left by lra. apply clamp01_id. lra.
Qed.

(** C10.  Once the history is at least twice the minimal window, the
    momentum is exactly one half: the two windows have the same length,
    or the older one is empty, and either way the raw ratio is 1. *)
Theorem measureMomentum_is_half (d : EquilibriumDetector)
        (allSignals recentSignals : list Signal) :
  minSignalWindow d * 2 <= IZR (JsArray.len allSignals) ->
  measureMomentum d allSignals recentSignals = 0.5.
Proof.
  intros Hlen. unfold measureMomentum.
  apply ltb_false in Hlen. rewrite Hlen.
  set (windowSize := (JsArray.len allSignals / 2)%Z).
  assert (Hw : (0 <= windowSize)%Z).
  { apply Z.div_pos; [unfold JsArray.len; lia | lia]. }
  assert (H2 : (2 * windowSize <= JsArray.len allSignals)%Z).
  { unfold windowSize. apply Z.mul_div_le. lia. }
  destruct (Z.eq_dec windowSize 0) as [H0|Hne].
  - rewrite H0. simpl (- (0 * 2))%Z. simpl (- 0)%Z.
    rewrite JsArrayFacts.slice_zero_zero. simpl.
    rewrite clamp01_half. lra.
  - rewrite JsArrayFacts.length_slice_window by lia.
    rewrite JsArrayFacts.length_slice_suffix by lia.
    destruct (Z.ltb_spec 0 windowSize) as [Hpos|]; [|lia].
    replace (IZR windowSize / IZR windowSize) with 1.
    + rewrite clamp01_half. lra.
    + field. apply not_0_IZR. lia.
Qed.

Lemma measureMomentum_is_half_witness :
  measureMomentum (new_EquilibriumDetector (mkDetectorConfig (Some 1) None None None None None))
                  [Synapse.example_signal; Synapse.example_signal; Synapse.example_signal]
                  [] = 0.5.
Proof.
  apply measureMomentum_is_half.
  cbn [new_EquilibriumDetector minSignalWindow or_default config_minSignalWindow
       JsArray.len length Z.of_nat Pos.of_succ_nat Pos.succ].
  lra.
Defined.




(** Five entries with tension above 0.7 and coherence below 0.3 are
    stagnation; a tension of exactly 0.7 on the fifth breaks the streak. *)
Example five_stuck_ticks : detectStagnation (stuck_detector 0.9) = true.
Proof.
  unfold detectStagnation. simpl.
  rewrite !(proj2 (gtb_true _ _)) by lra.
  rewrite !(proj2 (ltb_true _ _)) by lra.
  reflexivity.
Qed.

Example streak_broken_at_threshold : detectStagnation (stuck_detector 0.7) = false.
Proof.
  unfold detectStagnation. simpl.
  rewrite (proj2 (gtb_false 0.7 0.7)) by lra.
  rewrite !(proj2 (gtb_true _ _)) by lra.
  reflexivity.
Qed.




Section DetectorFacts.
Variable llm_embed : list Event -> string -> option (list number).
Variable llm_chat : list Event -> list ChatMessage -> option string.


(** C5.  With fewer signals than [minSignalWindow], or on an invocation
    whose number is still below [minTicks], [detect] only counts the
    invocation: it reports no equilibrium, tension and momentum 1,
    coherence and clarity 0, no stagnation, and the world is left as it
    was, so that no backend call is made. *)
Theorem detect_guards scenario signals agents (d : EquilibriumDetector) (w : World) :
  IZR (JsArray.len signals) < minSignalWindow d
  \/ IZR (currentTick d + 1) < minTicks d ->
  exists st d' w',
    detect llm_embed llm_chat scenario signals agents (d, w) = (Returned st, (d', w'))
    /\ atEquilibrium st = false
    /\ goalTension st = 1
    /\ momentum st = 1
    /\ coherence st = 0
    /\ decisionClarity st = 0
    /\ isStagnant st = false
    /\ trace w' = trace w
    /\ currentTick d' = (currentTick d + 1)%Z.
Proof.
  intros Hguard.
  unfold detect, bind, on_self, self, ret. simpl.
  destruct (ltb (IZR (JsArray.len signals)) (minSignalWindow d)) eqn:Hsig.
  - do 3 eexists. split; [reflexivity|]. simpl. repeat split; reflexivity.
  - destruct (ltb (IZR (currentTick d + 1)) (minTicks d)) eqn:Htick.
    + do 3 eexists. split; [reflexivity|]. simpl. repeat split; reflexivity.
    + apply ltb_false in Hsig. apply ltb_false in Htick.
      destruct Hguard; lra.
Qed.


Section ResponsiveBackend.
Hypothesis embed_answers : forall tr text, exists vector, llm_embed tr text = Some vector.
Hypothesis chat_answers : forall tr messages, exists reply, llm_chat tr messages = Some reply.

Lemma embed_returns text w :
  exists vector,
    embed llm_embed text w = (Returned vector, record_event (EmbedCall text) w).
Proof.
  unfold embed. destruct (embed_answers (trace w) text) as [v Hv].
  exists v. now rewrite Hv.
Qed.

Lemma chat_returns messages w :
  exists reply,
    llm_chat (trace w) messages = Some reply
    /\ chat llm_chat messages w = (Returned reply, record_event (ChatCall messages) w).
Proof.
  unfold chat. destruct (chat_answers (trace w) messages) as [r Hr].
  exists r. now rewrite Hr.
Qed.

Lemma promise_all_embed_returns texts :
  forall w, exists vectors,
    promise_all (map (embed llm_embed) texts) w
    = (Returned vectors, mkWorld (trace w ++ map EmbedCall texts) (clockReads w)).
Proof.
  induction texts as [|t texts IH]; intros w; simpl.
  - exists []. unfold ret. rewrite app_nil_r. now destruct w.
  - destruct (embed_returns t w) as [v Hv]. rewrite Hv.
    destruct (IH (record_event (EmbedCall t) w)) as [vs Hvs]. rewrite Hvs.
    exists (v :: vs). unfold record_event. simpl. now rewrite <- app_assoc.
Qed.

(** What one invocation of [detect] asks of the backend once it is past
    its guards, for a history that is not empty: on a scenario not seen
    before, the ideal state is asked for and its text is embedded twice;
    on a scenario seen before, the scenario text itself is embedded. *)
Lemma detect_backend_calls scenario signals agents d w :
  ltb (IZR (JsArray.len signals)) (minSignalWindow d) = false ->
  ltb (IZR (currentTick d + 1)) (minTicks d) = false ->
  signals <> [] ->
  let recentSignals := JsArray.slice signals (- signalWindowSize)%Z None in
  let currentStateText := JsArray.join " " (map thought recentSignals) in
  exists st d' w',
    detect llm_embed llm_chat scenario signals agents (d, w) = (Returned st, (d', w'))
    /\ minSignalWindow d' = minSignalWindow d
    /\ minTicks d' = minTicks d
    /\ currentTick d' = (currentTick d + 1)%Z
    /\ JsMap.has scenario (idealStateCache d') = true
    /\ if JsMap.has scenario (idealStateCache d)
       then trace w' = trace w
                       ++ [EmbedCall scenario; EmbedCall currentStateText]
                       ++ map EmbedCall decisionAnchors
       else exists response,
           llm_chat (trace w) (idealState_messages scenario) = Some response
           /\ trace w' = trace w
                          ++ [ChatCall (idealState_messages scenario);
                              EmbedCall response;
                              EmbedCall response; EmbedCall currentStateText]
                          ++ map EmbedCall decisionAnchors.
Proof.
  intros Hsig Htick Hne recentSignals currentStateText.
  assert (Hrecent : (length recentSignals =? 0)%nat = false).
  { apply Nat.eqb_neq. intros H0. apply length_zero_iff_nil in H0.
    destruct signals as [|s l]; [congruence|].
    pose proof (JsArrayFacts.In_slice_suffix_last (removelast (s :: l)) (last (s :: l) s)
                  signalWindowSize eq_refl) as Hin.
    rewrite <- app_removelast_last in Hin by discriminate.
    fold recentSignals in Hin. rewrite H0 in Hin. exact Hin. }
  unfold detect, bind, on_self, self, ret. simpl.
  rewrite Hsig, Htick.
  unfold extractIdealState, bind, self, ret, on_self. simpl.
  change (JsArray.slice signals (-10)%Z None) with recentSignals.
  destruct (JsMap.has scenario (idealStateCache d)) eqn:Hhas.
  - unfold in_world at 1. unfold measureGoalTension.
    rewrite Hrecent. unfold bind, ret.
    change (JsArray.join " " (map thought recentSignals)) with currentStateText.
    destruct (embed_returns scenario w) as [v1 Hv1]. rewrite Hv1.
    destruct (embed_returns currentStateText (record_event (EmbedCall scenario) w))
      as [v2 Hv2].
    rewrite Hv2.
    unfold in_world at 1. unfold measureDecisionClarity. rewrite Hrecent.
    unfold bind, ret.
    match goal with
    | |- context [promise_all _ ?w0] =>
        destruct (promise_all_embed_returns decisionAnchors w0) as [vs Hvs]; rewrite Hvs
    end.
    do 3 eexists. split; [reflexivity|].
    unfold track_stagnation.
    destruct (stagnationWindowSize <? _)%Z; simpl;
      rewrite Hhas; repeat split; try reflexivity;
      now rewrite <- !app_assoc.
  - unfold in_world at 1.
    destruct (chat_returns (idealState_messages scenario) w) as [response [Hr Hc]].
    rewrite Hc.
    unfold in_world at 1.
    match goal with
    | |- context [embed llm_embed response ?w0] =>
        destruct (embed_returns response w0) as [v0 Hv0]; rewrite Hv0
    end.
    unfold in_world at 1. unfold measureGoalTension.
    rewrite Hrecent. unfold bind, ret.
    change (JsArray.join " " (map thought recentSignals)) with currentStateText.
    match goal with
    | |- context [embed llm_embed response ?w0] =>
        destruct (embed_returns response w0) as [v1 Hv1]; rewrite Hv1
    end.
    match goal with
    | |- context [embed llm_embed currentStateText ?w0] =>
        destruct (embed_returns currentStateText w0) as [v2 Hv2]; rewrite Hv2
    end.
    unfold in_world at 1. unfold measureDecisionClarity. rewrite Hrecent.
    unfold bind, ret.
    match goal with
    | |- context [promise_all _ ?w0] =>
        destruct (promise_all_embed_returns decisionAnchors w0) as [vs Hvs]; rewrite Hvs
    end.
    do 3 eexists. split; [reflexivity|].
    assert (Hset : JsMap.has scenario (JsMap.set scenario v0 (idealStateCache d)) = true).
    { unfold JsMap.has. now rewrite JsMapFacts.get_set_same. }
    unfold track_stagnation.
    destruct (stagnationWindowSize <? _)%Z; simpl;
      rewrite Hset; repeat split; try reflexivity;
      exists response; split; try exact Hr;
      now rewrite <- !app_assoc.
Qed.

End ResponsiveBackend.

End DetectorFacts.

Lemma detect_guards_witness :
  exists st d' w',
    detect embed_down chat_down example_scenario example_history []
      (new_EquilibriumDetector default_config, initial_world) = (Returned st, (d', w'))
    /\ atEquilibrium st = false
    /\ goalTension st = 1
    /\ momentum st = 1
    /\ coherence st = 0
    /\ decisionClarity st = 0
    /\ isStagnant st = false
    /\ trace w' = trace initial_world
    /\ currentTick d' = 1%Z.
Proof.
  apply (detect_guards embed_down chat_down example_scenario example_history []
           (new_EquilibriumDetector default_config) initial_world).
  left.
  cbn [new_EquilibriumDetector minSignalWindow or_default config_minSignalWindow
       default_config example_history
       JsArray.len length Z.of_nat Pos.of_succ_nat Pos.succ].
  lra.
Defined.

Lemma eager_guards_open (d : EquilibriumDetector) :
  minSignalWindow d = 1 -> minTicks d = 1 -> (0 <= currentTick d)%Z ->
  ltb (IZR (JsArray.len example_history)) (minSignalWindow d) = false
  /\ ltb (IZR (currentTick d + 1)) (minTicks d) = false.
Proof.
  intros Hw Ht Hc. rewrite Hw, Ht. split; apply ltb_false.
  - unfold example_history, JsArray.len. simpl. lra.
  - apply IZR_le in Hc. rewrite plus_IZR. lra.
Qed.

Lemma fixed_embed_answers vector :
  forall tr text, exists v, embed_fixed vector tr text = Some v.
Proof. intros. now exists vector. Qed.

Lemma fixed_chat_answers reply :
  forall tr messages, exists r, chat_fixed reply tr messages = Some r.
Proof. intros. now exists reply. Qed.


(** C2 on the code.  A detector past its guards is invoked twice with
    the same scenario.  The first invocation embeds the text of the
    ideal state twice: once to fill the cache, once more to measure the
    tension.  The second invocation finds the scenario in the cache,
    does not read the cached vector, and embeds the scenario text in its
    place.  The embedding that stands for the ideal state is thus asked
    of the backend three times in two invocations. *)
Theorem ideal_state_embedding_recomputed :
  exists st1 d1 w1 st2 d2 w2,
    detect (embed_fixed [1; 0]) (chat_fixed "A decision everyone accepts")
           example_scenario example_history []
           (new_EquilibriumDetector eager_config, initial_world)
    = (Returned st1, (d1, w1))
    /\ detect (embed_fixed [1; 0]) (chat_fixed "A decision everyone accepts")
              example_scenario example_history [] (d1, w1)
       = (Returned st2, (d2, w2))
    /\ JsMap.has example_scenario (idealStateCache d1) = true
    /\ embed_calls (trace w1)
       = [EmbedCall "A decision everyone accepts";
          EmbedCall "A decision everyone accepts";
          EmbedCall "We must ship on Friday"]
         ++ map EmbedCall decisionAnchors
    /\ embed_calls (trace w2)
       = embed_calls (trace w1)
         ++ [EmbedCall example_scenario; EmbedCall "We must ship on Friday"]
         ++ map EmbedCall decisionAnchors.
Proof.
  destruct (eager_guards_open (new_EquilibriumDetector eager_config)
              eq_refl eq_refl (Z.le_refl 0)) as [Hsig Htick].
  destruct (detect_backend_calls (embed_fixed [1; 0])
              (chat_fixed "A decision everyone accepts")
              (fixed_embed_answers [1; 0])
              (fixed_chat_answers "A decision everyone accepts")
              example_scenario example_history []
              (new_EquilibriumDetector eager_config) initial_world
              Hsig Htick ltac:(discriminate))
    as (st1 & d1 & w1 & Hrun1 & Hw1 & Ht1 & Hc1 & Hhas1 & Htrace1).
  simpl JsMap.has in Htrace1.
  destruct Htrace1 as (response & Hresponse & Htrace1).
  injection Hresponse as <-.
  destruct (eager_guards_open d1 Hw1 Ht1 ltac:(rewrite Hc1; simpl; lia))
    as [Hsig2 Htick2].
  destruct (detect_backend_calls (embed_fixed [1; 0])
              (chat_fixed "A decision everyone accepts")
              (fixed_embed_answers [1; 0])
              (fixed_chat_answers "A decision everyone accepts")
              example_scenario example_history [] d1 w1
              Hsig2 Htick2 ltac:(discriminate))
    as (st2 & d2 & w2 & Hrun2 & _ & _ & _ & _ & Htrace2).
  rewrite Hhas1 in Htrace2.
  exists st1, d1, w1, st2, d2, w2.
  split; [exact Hrun1|]. split; [exact Hrun2|]. split; [exact Hhas1|].
  assert (E1 : embed_calls (trace w1)
               = [EmbedCall "A decision everyone accepts";
                  EmbedCall "A decision everyone accepts";
                  EmbedCall "We must ship on Friday"]
                 ++ map EmbedCall decisionAnchors).
  { rewrite Htrace1. reflexivity. }
  split; [exact E1|].
  rewrite Htrace2. unfold embed_calls at 1. rewrite filter_app.
  fold (embed_calls (trace w1)). reflexivity.
Qed.

End EquilibriumFacts.

(** ** Computations that leave a part of the state alone *)

Section Keeps.
Context {St X : Type} (f : St -> X).

Lemma keeps_ret {A} (a : A) : keeps f (ret a).
Proof. intros s r s' H. unfold ret in H. now inversion H. Qed.

Lemma keeps_throw {A} (e : Error) : keeps f (@throw St A e).
Proof. intros s r s' H. unfold throw in H. now inversion H. Qed.

Lemma keeps_bind {A B} (m : M St A) (k : A -> M St B) :
  keeps f m -> (forall a, keeps f (k a)) -> keeps f (bind m k).
Proof.
  intros Hm Hk s r s' H. unfold bind in H.
  destruct (m s) as [[a|e] s1] eqn:E.
  - rewrite (Hk a _ _ _ H). exact (Hm _ _ _ E).
  - inversion H. subst. exact (Hm _ _ _ E).
Qed.

Lemma keeps_try_catch {A} (body : M St A) (handler : Error -> M St A) :
  keeps f body -> (forall e, keeps f (handler e)) -> keeps f (try_catch body handler).
Proof.
  intros Hb Hh s r s' H. unfold try_catch in H.
  destruct (body s) as [[a|e] s1] eqn:E.
  - inversion H. subst. exact (Hb _ _ _ E).
  - rewrite (Hh e _ _ _ H). exact (Hb _ _ _ E).
Qed.

Lemma keeps_for_each {A} (xs : list A) (body : A -> M St unit) :
  (forall x, keeps f (body x)) -> keeps f (for_each xs body).
Proof.
  intros Hb. induction xs as [|x xs IH]; simpl.
  - apply keeps_ret.
  - apply keeps_bind; auto.
Qed.

End Keeps.

Lemma bind_returned {St A B} (m : M St A) (k : A -> M St B) s b s' :
  bind m k s = (Returned b, s') ->
  exists a s1, m s = (Returned a, s1) /\ k a s1 = (Returned b, s').
Proof.
  unfold bind. destruct (m s) as [[a|e] s1]; intros H.
  - now exists a, s1.
  - discriminate.
Qed.

Lemma bind_step {St A B} (m : M St A) (k : A -> M St B) s a s1 :
  m s = (Returned a, s1) -> bind m k s = k a s1.
Proof. intros H. unfold bind. now rewrite H. Qed.

Lemma keeps_self {S X} (f : S * World -> X) : keeps f (@self S).
Proof. intros [s w] r s' H. unfold self in H. now inversion H. Qed.

Lemma keeps_on_self {S X} (f : S * World -> X) (g : S -> S) :
  (forall s w, f (g s, w) = f (s, w)) -> keeps f (on_self g).
Proof. intros Hg [s w] r s' H. unfold on_self in H. inversion H. apply Hg. Qed.

Lemma keeps_in_world {S X A} (f : S * World -> X) (m : M World A) :
  (forall s w r w', m w = (r, w') -> f (s, w') = f (s, w)) -> keeps f (in_world m).
Proof.
  intros Hm [s w] r s' H. unfold in_world in H.
  destruct (m w) as [r0 w'] eqn:E. inversion H. subst. eapply Hm. exact E.
Qed.

Lemma deliveries_record_other e w :
  (forall a s, e <> Perceive a s) ->
  deliveries (trace (record_event e w)) = deliveries (trace w).
Proof.
  intros He. unfold record_event. simpl. rewrite deliveries_app.
  destruct e; simpl; try apply app_nil_r.
  exfalso. eapply He. reflexivity.
Qed.

Lemma keeps_delivered_embed {S} llm_embed text :
  keeps (@delivered S) (in_world (embed llm_embed text)).
Proof.
  apply keeps_in_world. intros s w r w' H. unfold delivered, embed in *. simpl.
  destruct (llm_embed (trace w) text); inversion H;
    apply deliveries_record_other; discriminate.
Qed.

Lemma keeps_delivered_chat {S} llm_chat messages :
  keeps (@delivered S) (in_world (chat llm_chat messages)).
Proof.
  apply keeps_in_world. intros s w r w' H. unfold delivered, chat in *. simpl.
  destruct (llm_chat (trace w) messages); inversion H;
    apply deliveries_record_other; discriminate.
Qed.

Lemma keeps_delivered_notify {S} n :
  keeps (@delivered S) (in_world (notify n)).
Proof.
  apply keeps_in_world. intros s w r w' H. unfold delivered, notify in *. simpl.
  inversion H. apply deliveries_record_other; discriminate.
Qed.

Lemma keeps_delivered_on_self {S} (g : S -> S) :
  keeps (@delivered S) (on_self g).
Proof. apply keeps_on_self. reflexivity. Qed.

(** ** The router *)

Module RouterFacts.
Import Router.

Lemma death_absent agentId b :
  JsMap.has agentId (agents (death agentId b)) = false
  /\ JsMap.has agentId (receptorFieldCache (death agentId b)) = false.
Proof.
  unfold death. simpl. split; apply JsMapFacts.has_delete_same.
Qed.

Section CoordinatorFacts.
Variable Date_now : nat -> number.
Variable generateId : nat -> string.
Variable llm_embed : list Event -> string -> option (list number).
Variable llm_chat : list Event -> list ChatMessage -> option string.
Variable spawner : option OrganicSpawner.
Variable parse_bridge_spec : string -> Outcome (option BridgeAgentSpec).

(** What [birth] does to the router, whether the embedding of the
    receptor field succeeds or not. *)
Lemma birth_state agent b w :
  let b' := fst (snd (birth llm_embed agent (b, w))) in
  agents b' = JsMap.set (agent_id agent) agent (agents b)
  /\ (receptorFieldCache b' = receptorFieldCache b
      \/ exists v, receptorFieldCache b'
                   = JsMap.set (agent_id agent) v (receptorFieldCache b))
  /\ signalHistory b' = signalHistory b
  /\ synapses b' = synapses b
  /\ birthQueue b' = birthQueue b
  /\ seeded b' = seeded b
  /\ tick b' = tick b.
Proof.
  unfold birth, bind, on_self, in_world, self, embed, notify. simpl.
  destruct (llm_embed (trace w) _) as [v|]; simpl; repeat split; eauto.
Qed.

(** C8, as amended.  For an agent whose id is neither registered nor
    cached, [birth] followed by [death] of its id gives back the
    registry and the receptor cache as they were before the birth,
    order included, whether or not the embedding of the receptor field
    succeeded.  And [death] always leaves the id in neither map. *)
Theorem birth_then_death_restores agent b w :
  JsMap.get (agent_id agent) (agents b) = None ->
  JsMap.get (agent_id agent) (receptorFieldCache b) = None ->
  let b' := fst (snd (birth llm_embed agent (b, w))) in
  agents (death (agent_id agent) b') = agents b
  /\ receptorFieldCache (death (agent_id agent) b') = receptorFieldCache b
  /\ death (agent_id agent) b' = b
  /\ (forall b0 agentId,
        JsMap.has agentId (agents (death agentId b0)) = false
        /\ JsMap.has agentId (receptorFieldCache (death agentId b0)) = false).
Proof.
  intros Hreg Hcache b'.
  destruct (birth_state agent b w) as (Ha & Hc & Hh & Hs & Hq & Hsd & Ht).
  fold b' in Ha, Hc, Hh, Hs, Hq, Hsd, Ht.
  assert (Ea : JsMap.delete (agent_id agent) (agents b') = agents b).
  { rewrite Ha. now apply JsMapFacts.delete_set_fresh. }
  assert (Ec : JsMap.delete (agent_id agent) (receptorFieldCache b') = receptorFieldCache b).
  { destruct Hc as [Hc|[v Hc]]; rewrite Hc.
    - now apply JsMapFacts.delete_absent.
    - now apply JsMapFacts.delete_set_fresh. }
  split; [exact Ea|]. split; [exact Ec|]. split.
  - unfold death, set_agents, set_receptorFieldCache. simpl.
    rewrite Ea, Ec, Hh, Hs, Hq, Hsd, Ht. now destruct b.
  - intros b0 agentId. apply death_absent.
Qed.

(** *** Deliveries *)

Lemma keeps_delivered_lift {A} (o : Outcome A) :
  keeps delivered (@lift_outcome A o).
Proof. intros s r s' H. unfold lift_outcome in H. now inversion H. Qed.

Lemma keeps_delivered_world_trace : keeps delivered world_trace.
Proof. intros [b w] r s' H. unfold world_trace in H. now inversion H. Qed.

Lemma keeps_delivered_birth agent :
  keeps delivered (birth llm_embed agent).
Proof.
  unfold birth.
  apply keeps_bind; [apply keeps_delivered_on_self|]. intros _.
  apply keeps_bind; [apply keeps_delivered_embed|]. intros v.
  apply keeps_bind; [apply keeps_delivered_on_self|]. intros _.
  apply keeps_bind; [apply keeps_self|]. intros b0.
  apply keeps_delivered_notify.
Qed.

Lemma keeps_delivered_push_birth agent :
  keeps delivered (push_birth llm_embed agent).
Proof.
  intros s r s' H. unfold push_birth in H.
  destruct (birth llm_embed agent s) as [settled s1] eqn:E.
  rewrite (keeps_delivered_on_self _ _ _ _ H).
  exact (keeps_delivered_birth agent _ _ _ E).
Qed.

Lemma keeps_delivered_flushBirthQueue : keeps delivered flushBirthQueue.
Proof.
  unfold flushBirthQueue.
  apply keeps_bind; [apply keeps_self|]. intros b0.
  destruct (length (birthQueue b0) =? 0)%nat; [apply keeps_ret|].
  apply keeps_bind; [apply keeps_delivered_on_self|]. intros _.
  apply keeps_delivered_lift.
Qed.

Lemma keeps_delivered_seedFromGoal goal :
  keeps delivered (seedFromGoal llm_embed spawner goal).
Proof.
  unfold seedFromGoal.
  destruct spawner as [sp|]; [|apply keeps_ret].
  destruct (spawner_seedFromGoal sp) as [seed|]; [|apply keeps_ret].
  apply keeps_bind; [apply keeps_self|]. intros b0.
  apply keeps_bind; [apply keeps_delivered_world_trace|]. intros tr.
  apply keeps_bind; [apply keeps_delivered_lift|]. intros seeds.
  apply keeps_bind; [apply keeps_for_each; apply keeps_delivered_push_birth|]. intros _.
  apply keeps_bind; [apply keeps_delivered_flushBirthQueue|]. intros _.
  apply keeps_delivered_on_self.
Qed.

Lemma for_each_perceive receivers signal b w :
  for_each receivers
           (fun receiver => in_world (S := Biosphere) (perceive receiver signal)) (b, w)
  = (Returned tt,
     (b, mkWorld (trace w ++ map (fun receiver => Perceive receiver signal) receivers)
                 (clockReads w))).
Proof.
  revert w. induction receivers as [|a l IH]; intros w; simpl.
  - unfold ret. rewrite app_nil_r. now destruct w.
  - unfold bind, in_world, perceive. rewrite IH.
    unfold record_event. simpl. now rewrite <- app_assoc.
Qed.

Lemma deliveries_perceive_all receivers signal :
  deliveries (map (fun receiver => Perceive receiver signal) receivers)
  = map (fun receiver => (receiver, signal)) receivers.
Proof. induction receivers as [|a l IH]; simpl; congruence. Qed.

(** C4.  When an injection by a reserved author ("external", and
    likewise "system") goes through, the injected signal is handed to
    every registered agent other than the author, in registry order,
    whatever the resonance test and the ambient fallback came up with. *)
Theorem inject_sentinel_reaches_everyone text sourceId b w b' w' :
  is_sentinel sourceId = true ->
  inject Date_now generateId llm_embed spawner text sourceId (b, w)
  = (Returned tt, (b', w')) ->
  exists signal history,
    signalHistory b' = history ++ [signal]
    /\ thought signal = text
    /\ emittedBy signal = sourceId
    /\ deliveries (trace w')
       = deliveries (trace w)
         ++ map (fun agent => (agent, signal))
                (filter (fun agent => negb (String.eqb (agent_id agent) sourceId))
                        (listAgents b'))
    /\ forall agent,
        In agent (listAgents b') -> agent_id agent <> sourceId ->
        In (agent, signal) (deliveries (trace w')).
Proof.
  intros Hsentinel Hrun. unfold inject in Hrun.
  apply bind_returned in Hrun as (u0 & s1 & Hflush & Hrun).
  apply bind_returned in Hrun as (b1 & s2 & Hself1 & Hrun).
  apply bind_returned in Hrun as (u1 & s3 & Hseed & Hrun).
  apply bind_returned in Hrun as (pheromone & s4 & Hembed & Hrun).
  apply bind_returned in Hrun as (signal & s5 & Hcreate & Hrun).
  apply bind_returned in Hrun as (u2 & s6 & Hpush & Hrun).
  apply bind_returned in Hrun as (b2 & s7 & Hself2 & Hrun).
  apply bind_returned in Hrun as (u3 & s8 & Hnotify1 & Hrun).
  apply bind_returned in Hrun as (resonant & s9 & Hres & Hrun).
  apply bind_returned in Hrun as (u4 & s10 & Hnotify2 & Hrun).
  rewrite Hsentinel in Hrun, Hnotify2. simpl orb in Hrun, Hnotify2. cbv iota in Hrun, Hnotify2.
  (* deliveries are untouched up to the final loop *)
  assert (D1 : delivered s1 = delivered (b, w))
    by exact (keeps_delivered_flushBirthQueue _ _ _ Hflush).
  assert (D2 : delivered s2 = delivered s1) by exact (keeps_self _ _ _ _ Hself1).
  assert (D3 : delivered s3 = delivered s2).
  { destruct (negb (seeded b1) && _)%bool.
    - exact (keeps_delivered_seedFromGoal _ _ _ _ Hseed).
    - exact (keeps_ret _ _ _ _ _ Hseed). }
  assert (D4 : delivered s4 = delivered s3)
    by exact (keeps_delivered_embed _ _ _ _ _ Hembed).
  destruct s4 as [b4 w4].
  unfold in_world in Hcreate.
  destruct (SignalModule.createSignal _ _ _ _ _ _ _ w4) as [rc w5] eqn:Ecreate.
  inversion Hcreate. subst rc s5. clear Hcreate.
  unfold SignalModule.createSignal, now in Ecreate. simpl in Ecreate.
  inversion Ecreate. clear Ecreate.
  unfold on_self in Hpush. inversion Hpush. subst s6. clear Hpush.
  unfold self in Hself2. inversion Hself2. subst b2 s7. clear Hself2.
  unfold in_world, notify in Hnotify1. inversion Hnotify1. subst s8. clear Hnotify1.
  unfold lift_outcome in Hres. inversion Hres. subst s9. clear Hres.
  unfold in_world, notify in Hnotify2. inversion Hnotify2. subst s10. clear Hnotify2.
  rewrite for_each_perceive in Hrun. injection Hrun as Eb Ew.
  exists signal, (signalHistory b4).
  assert (Hdel : deliveries (trace w')
                 = deliveries (trace w)
                   ++ map (fun agent => (agent, signal))
                          (filter (fun agent => negb (String.eqb (agent_id agent) sourceId))
                                  (listAgents b'))).
  { rewrite <- Ew, <- Eb. unfold record_event. simpl. rewrite !deliveries_app.
    simpl. rewrite !app_nil_r. rewrite deliveries_perceive_all.
    f_equal. unfold delivered in D1, D2, D3, D4. simpl in D4, D1.
    subst w5. simpl. congruence. }
  split; [now rewrite <- Eb|].
  split; [now subst signal|]. split; [now subst signal|].
  split; [exact Hdel|].
  intros agent Hin Hne. rewrite Hdel. apply in_or_app. right.
  apply (in_map (fun agent => (agent, signal))). apply filter_In. split; [exact Hin|].
  apply negb_true_iff. now apply String.eqb_neq.
Qed.

(** The resonance test returns when every cached receptor embedding has
    the dimension of the pheromone. *)
Lemma resonant_agents_returns cache signal candidates :
  (forall agentId v, JsMap.get agentId cache = Some v ->
                     length v = length (pheromone signal)) ->
  exists receivers, resonant_agents cache signal candidates = Returned receivers.
Proof.
  intros Hdim. induction candidates as [|agent rest [receivers IH]]; simpl.
  - now exists [].
  - destruct (String.eqb (agent_id agent) (emittedBy signal)); [now exists receivers|].
    destruct (JsMap.get (agent_id agent) cache) as [v|] eqn:Hget; [|now exists receivers].
    unfold SignalModule.resonates, SignalModule.cosineSimilarity.
    rewrite (Hdim _ _ Hget), Nat.eqb_refl. simpl negb. cbv iota.
    destruct (SemanticUtils.accumulate _ _) as [[dotProduct normA] normB].
    destruct (Req_dec_T _ 0); rewrite IH; eexists; reflexivity.
Qed.

Lemma findResonance_returns b signal :
  (forall agentId v, JsMap.get agentId (receptorFieldCache b) = Some v ->
                     length v = length (pheromone signal)) ->
  exists receivers, findResonance b signal = Returned receivers.
Proof.
  intros Hdim. unfold findResonance.
  destruct (resonant_agents_returns _ _ (listAgents b) Hdim) as [receivers Hr].
  rewrite Hr. destruct (length receivers =? 0)%nat; eexists; reflexivity.
Qed.

(** An injection goes through when no spawner is configured, no queued
    birth has failed, the backend embeds the thought, and the cached
    receptor embeddings have the dimension of that embedding. *)
Lemma inject_returns text sourceId b w pheromone :
  spawner = None ->
  first_failure (birthQueue b) = Returned tt ->
  llm_embed (trace w) text = Some pheromone ->
  (forall agentId v, JsMap.get agentId (receptorFieldCache b) = Some v ->
                     length v = length pheromone) ->
  exists b' w' id t,
    inject Date_now generateId llm_embed spawner text sourceId (b, w)
    = (Returned tt, (b', w'))
    /\ signalHistory b'
       = signalHistory b ++ [mkSignal id text sourceId pheromone t None None]
    /\ agents b' = agents b
    /\ receptorFieldCache b' = receptorFieldCache b.
Proof.
  intros Hspawner Hqueue Hembed Hdim.
  unfold inject. rewrite Hspawner.
  assert (Hflush : exists b1,
             flushBirthQueue (b, w) = (Returned tt, (b1, w))
             /\ receptorFieldCache b1 = receptorFieldCache b
             /\ agents b1 = agents b
             /\ signalHistory b1 = signalHistory b).
  { unfold flushBirthQueue, bind, self, on_self, lift_outcome, ret.
    destruct (length (birthQueue b) =? 0)%nat.
    - now exists b.
    - rewrite Hqueue. now exists (set_birthQueue [] b). }
  destruct Hflush as (b1 & Hflush & Hcache & Hagents & Hhistory).
  unfold bind at 1. rewrite Hflush.
  unfold bind at 1. unfold self at 1.
  rewrite andb_false_r.
  unfold bind at 1. unfold ret at 1.
  unfold bind at 1. unfold in_world at 1. unfold embed. rewrite Hembed.
  unfold bind at 1. unfold in_world at 1.
  unfold SignalModule.createSignal, now. simpl.
  unfold bind at 1. unfold on_self at 1.
  unfold bind at 1. unfold self at 1.
  unfold bind at 1. unfold in_world at 1. unfold notify at 1.
  match goal with
  | |- context [findResonance ?b0 ?sig] =>
      destruct (findResonance_returns b0 sig) as [resonant Hres]
  end.
  { simpl. rewrite Hcache. exact Hdim. }
  unfold bind at 1. unfold lift_outcome. rewrite Hres.
  unfold bind at 1. unfold in_world at 1. unfold notify at 1.
  rewrite for_each_perceive. do 4 eexists.
  split; [reflexivity|]. simpl. rewrite Hhistory. auto.
Qed.

End CoordinatorFacts.

(** Two orthogonal unit vectors: no similarity at all. *)
Lemma orthogonal_quotient (m : R) : (0 + 1 * 0 + 0 * 1) / m = 0.
Proof. unfold Rdiv. ring. Qed.

Lemma orthogonal_similarity :
  SemanticUtils.cosineSimilarity [1; 0] [0; 1] = 0.
Proof.
  unfold SemanticUtils.cosineSimilarity, SemanticUtils.accumulate. simpl.
  destruct (Req_dec_T _ 0); [reflexivity|]. apply orthogonal_quotient.
Qed.

Lemma orthogonal_no_resonance receptorField :
  0 <= match threshold receptorField with Some t => t | None => 0.6 end ->
  SignalModule.resonates [1; 0] receptorField [0; 1] = Returned false.
Proof.
  intros Hpos.
  unfold SignalModule.resonates, SignalModule.cosineSimilarity,
    SemanticUtils.accumulate.
  simpl.
  destruct (Req_dec_T _ 0); f_equal; apply gtb_false; [exact Hpos|].
  rewrite orthogonal_quotient. exact Hpos.
Qed.

Arguments SignalModule.resonates : simpl never.
Arguments SemanticUtils.cosineSimilarity : simpl never.

Lemma two_agents_dimension agentId v :
  JsMap.get agentId (receptorFieldCache two_agents) = Some v ->
  length v = length [1; 0].
Proof.
  simpl. destruct (String.eqb agentId "analyst").
  - intros H. now inversion H.
  - destruct (String.eqb agentId "engineer").
    + intros H. now inversion H.
    + discriminate.
Qed.

Lemma two_agents_no_resonance signal :
  pheromone signal = [1; 0] -> emittedBy signal = "external" ->
  forall b, agents b = agents two_agents ->
            receptorFieldCache b = receptorFieldCache two_agents ->
            findResonance b signal = Returned [].
Proof.
  intros Hp He b Hag Hcache.
  unfold findResonance, listAgents. rewrite Hag, Hcache. simpl.
  rewrite He, Hp. simpl.
  rewrite !orthogonal_no_resonance by (simpl; lra). simpl.
  rewrite !orthogonal_similarity.
  assert (Hlow : gtb 0 0.4 = false) by (apply gtb_false; lra).
  rewrite Hlow. reflexivity.
Qed.

Lemma inject_sentinel_reaches_everyone_witness :
  exists b' w' signal,
    inject Synapse.example_clock example_ids (embed_fixed [1; 0]) None
           "Regulators are asking questions" "external" (two_agents, initial_world)
    = (Returned tt, (b', w'))
    /\ thought signal = "Regulators are asking questions"
    /\ emittedBy signal = "external"
    /\ findResonance b' signal = Returned []
    /\ deliveries (trace w') = [(analyst, signal); (engineer, signal)].
Proof.
  destruct (inject_returns Synapse.example_clock example_ids (embed_fixed [1; 0]) None
              "Regulators are asking questions" "external" two_agents initial_world
              [1; 0] eq_refl eq_refl eq_refl two_agents_dimension)
    as (b' & w' & id & t & Hrun & Hhist & Hag & Hcache).
  destruct (inject_sentinel_reaches_everyone
              Synapse.example_clock example_ids (embed_fixed [1; 0]) None
              "Regulators are asking questions" "external"
              two_agents initial_world b' w' eq_refl Hrun)
    as (signal & history & Hh & Ht & He & Hdel & _).
  rewrite Hhist in Hh. apply app_inj_tail in Hh. destruct Hh as [_ Hsig].
  exists b', w', signal.
  split; [exact Hrun|]. split; [exact Ht|]. split; [exact He|]. split.
  - apply two_agents_no_resonance; try assumption. now rewrite <- Hsig.
  - rewrite Hdel. unfold listAgents. rewrite Hag. reflexivity.
Defined.

(** Pheromones that sit exactly on the three thresholds. *)
Lemma sqrt_of_square (x y : R) : 0 <= y -> x = y * y -> sqrt x = y.
Proof. intros Hy ->. now apply sqrt_square. Qed.

Lemma similarity_exactly_08 : SemanticUtils.cosineSimilarity [4; 3] [1; 0] = 0.8.
Proof.
  unfold SemanticUtils.cosineSimilarity, SemanticUtils.accumulate. simpl.
  rewrite (sqrt_of_square _ 5) by lra.
  rewrite (sqrt_of_square _ 1) by lra.
  destruct (Req_dec_T (5 * 1) 0); lra.
Qed.

Lemma birth_then_death_restores_witness :
  let b' := fst (snd (birth (embed_fixed [1; 0]) analyst
                            (mkBiosphere [("engineer", engineer)] []
                                         [("engineer", [0; 1])] [] [] false 0,
                             initial_world))) in
  agents (death "analyst" b') = [("engineer", engineer)]
  /\ receptorFieldCache (death "analyst" b') = [("engineer", [0; 1])]
  /\ death "analyst" b'
     = mkBiosphere [("engineer", engineer)] [] [("engineer", [0; 1])] [] [] false 0
  /\ (forall b0 agentId,
        JsMap.has agentId (agents (death agentId b0)) = false
        /\ JsMap.has agentId (receptorFieldCache (death agentId b0)) = false).
Proof.
  exact (birth_then_death_restores (embed_fixed [1; 0]) analyst
           (mkBiosphere [("engineer", engineer)] [] [("engineer", [0; 1])] [] [] false 0)
           initial_world eq_refl eq_refl).
Defined.

(** C8 as stated fails for an agent whose id is already taken: the
    birth replaces the registered agent and the death removes the id,
    so the agent registered before the birth is gone. *)
Lemma birth_then_death_loses_registered_agent :
  let b := mkBiosphere [("analyst", analyst)] [] [("analyst", [0; 1])] [] [] false 0 in
  let b' := fst (snd (birth (embed_fixed [1; 0]) impostor (b, initial_world))) in
  agent_id impostor = "analyst"
  /\ agents b = [("analyst", analyst)]
  /\ agents (death (agent_id impostor) b') = []
  /\ agents (death (agent_id impostor) b') <> agents b
  /\ receptorFieldCache (death (agent_id impostor) b') <> receptorFieldCache b.
Proof.
  simpl. repeat split; try reflexivity; discriminate.
Qed.

End RouterFacts.

(** * Further properties of the code *)

(** ** Cosine similarity and similarity search *)

Module SemanticSearchFacts.
Import SemanticUtils SemanticSearch.

(** *** Sorting by descending similarity *)

Section Sorting.
Context {A : Type} (key : A -> number).

Lemma insert_by_permutation c l : Permutation (c :: l) (insert_by key c l).
Proof.
  induction l as [|c' l IH]; simpl; [reflexivity|].
  destruct (gtb (key c) (key c')); [reflexivity|].
  rewrite perm_swap. now constructor.
Qed.

Lemma insert_by_descending c l :
  descending key l -> descending key (insert_by key c l).
Proof.
  unfold descending. induction 1 as [|c' l Hsorted IH Hall]; simpl.
  - constructor; constructor.
  - destruct (gtb (key c) (key c')) eqn:Hcmp.
    + apply gtb_true in Hcmp. constructor.
      * now constructor.
      * constructor; [lra|].
        eapply Forall_impl; [|exact Hall]. simpl. intros y Hy. lra.
    + apply gtb_false in Hcmp. constructor; [exact IH|].
      eapply Permutation_Forall; [apply insert_by_permutation|].
      constructor; assumption.
Qed.

Lemma sort_from_permutation l :
  forall acc, Permutation (l ++ acc) (fold_left (fun sorted c => insert_by key c sorted) l acc).
Proof.
  induction l as [|c l IH]; intros acc; simpl; [reflexivity|].
  rewrite <- IH. rewrite <- insert_by_permutation.
  apply Permutation_middle.
Qed.

Lemma sort_from_descending l :
  forall acc, descending key acc ->
              descending key (fold_left (fun sorted c => insert_by key c sorted) l acc).
Proof.
  induction l as [|c l IH]; intros acc Hacc; simpl; [exact Hacc|].
  apply IH. now apply insert_by_descending.
Qed.

Lemma sort_descending_by_permutation l : Permutation l (sort_descending_by key l).
Proof.
  unfold sort_descending_by. rewrite <- sort_from_permutation. now rewrite app_nil_r.
Qed.

Lemma sort_descending_by_descending l : descending key (sort_descending_by key l).
Proof. apply sort_from_descending. constructor. Qed.

End Sorting.

(** X3.  [filterBySimilarity] returns, in descending order of
    similarity, exactly the candidates whose similarity to the query is
    at least the threshold, each paired with that similarity. *)
Theorem filterBySimilarity_sound_complete {T : Type} (query : list number)
        (candidates : list (list number * T)) (threshold : number) :
  let results := filterBySimilarity query candidates threshold in
  descending fst results
  /\ (forall result,
        In result results <->
        threshold <= fst result
        /\ exists candidate,
            In candidate candidates
            /\ result = (cosineSimilarity query (fst candidate), snd candidate))
  /\ (length results <= length candidates)%nat.
Proof.
  intros results. unfold results, filterBySimilarity.
  set (scored := map (fun candidate =>
                        (cosineSimilarity query (fst candidate), snd candidate))
                     candidates).
  set (kept := filter (fun result => negb (ltb (fst result) threshold)) scored).
  pose proof (sort_descending_by_permutation fst kept) as Hperm.
  split; [apply sort_descending_by_descending|]. split.
  - intros result. split.
    + intros Hin. apply (Permutation_in _ (Permutation_sym Hperm)) in Hin.
      unfold kept in Hin. apply filter_In in Hin. destruct Hin as [Hin Hkeep].
      apply negb_true_iff, ltb_false in Hkeep. split; [exact Hkeep|].
      unfold scored in Hin. apply in_map_iff in Hin.
      destruct Hin as (candidate & Heq & Hc). now exists candidate.
    + intros (Hkeep & candidate & Hc & Heq).
      apply (Permutation_in _ Hperm). unfold kept. apply filter_In. split.
      * unfold scored. apply in_map_iff. now exists candidate.
      * apply negb_true_iff, ltb_false. exact Hkeep.
  - rewrite <- (Permutation_length Hperm). unfold kept.
    eapply Nat.le_trans; [apply filter_length_le|].
    unfold scored. now rewrite length_map.
Qed.

Lemma findMostSimilar_from {T : Type} (query : list number)
      (candidates : list (list number * T)) :
  forall best,
    exists s d,
      fold_left (better_match query) candidates (Some best) = Some (s, d)
      /\ fst best <= s
      /\ (forall candidate, In candidate candidates ->
                            cosineSimilarity query (fst candidate) <= s)
      /\ ((s, d) = best
          \/ exists candidate,
              In candidate candidates
              /\ s = cosineSimilarity query (fst candidate) /\ d = snd candidate).
Proof.
  induction candidates as [|c l IH]; intros best; cbn [fold_left].
  - exists (fst best), (snd best). destruct best. simpl.
    repeat split; try lra; auto. intros ? [].
  - unfold better_match at 2. cbv zeta.
    destruct (gtb (cosineSimilarity query (fst c)) (fst best)) eqn:Hcmp.
    + apply gtb_true in Hcmp.
      destruct (IH (cosineSimilarity query (fst c), snd c)) as (s & d & Hf & Hle & Hall & Hfrom).
      simpl in Hle. exists s, d. split; [exact Hf|]. split; [lra|]. split.
      * intros candidate [<-|Hin]; [exact Hle | now apply Hall].
      * right. destruct Hfrom as [Heq|(c' & Hin & Hs & Hd)].
        -- exists c. inversion Heq. simpl. auto.
        -- exists c'. simpl. auto.
    + apply gtb_false in Hcmp.
      destruct (IH best) as (s & d & Hf & Hle & Hall & Hfrom).
      exists s, d. split; [exact Hf|]. split; [exact Hle|]. split.
      * intros candidate [<-|Hin]; [lra | now apply Hall].
      * destruct Hfrom as [Heq|(c' & Hin & Hs & Hd)]; [now left|].
        right. exists c'. simpl. auto.
Qed.

(** X4.  [findMostSimilar] returns no match exactly for an empty list
    of candidates; otherwise it returns one of the candidates, with its
    similarity, and no candidate is more similar to the query. *)
Theorem findMostSimilar_is_maximum {T : Type} (query : list number)
        (candidates : list (list number * T)) :
  (findMostSimilar query candidates = None <-> candidates = [])
  /\ (forall s d,
        findMostSimilar query candidates = Some (s, d) ->
        (exists candidate,
            In candidate candidates
            /\ s = cosineSimilarity query (fst candidate) /\ d = snd candidate)
        /\ forall candidate, In candidate candidates ->
                             cosineSimilarity query (fst candidate) <= s).
Proof.
  unfold findMostSimilar. destruct candidates as [|c l].
  - simpl. split; [tauto|]. intros s d H. discriminate.
  - destruct (findMostSimilar_from query l (cosineSimilarity query (fst c), snd c))
      as (s0 & d0 & Hf & Hle & Hall & Hfrom).
    simpl in Hle.
    change (fold_left (better_match query) (c :: l) None)
      with (fold_left (better_match query) l
                      (Some (cosineSimilarity query (fst c), snd c))).
    rewrite Hf. split.
    + split; intros H; discriminate.
    + intros s d Heq. inversion Heq. subst s0 d0. split.
      * destruct Hfrom as [Hbest|(c' & Hin & Hs & Hd)].
        -- exists c. injection Hbest as Hs Hd.
           split; [now left|]. split; assumption.
        -- exists c'. split; [now right|]. split; assumption.
      * intros candidate [<-|Hin]; [exact Hle | now apply Hall].
Qed.

End SemanticSearchFacts.

(** ** Strict similarity and resonance *)

Module SignalFacts.

Lemma strict_similarity_equal_lengths (a b : list number) :
  length a = length b ->
  SignalModule.cosineSimilarity a b = Returned (SemanticUtils.cosineSimilarity a b).
Proof.
  unfold SignalModule.cosineSimilarity, SemanticUtils.cosineSimilarity.
  intros Heq. rewrite Heq, Nat.eqb_refl. simpl negb. cbv iota.
  destruct b as [|y b].
  - destruct a; [|discriminate]. simpl.
    unfold SemanticUtils.accumulate. simpl.
    rewrite sqrt_0, Rmult_0_l.
    destruct (Req_dec_T 0 0); [reflexivity | congruence].
  - simpl.
    destruct (SemanticUtils.accumulate a (y :: b)) as [[d ma] mb].
    destruct (Req_dec_T _ 0); reflexivity.
Qed.

Lemma resonates_equal_lengths signalPheromone receptorField embedding :
  length signalPheromone = length embedding ->
  SignalModule.resonates signalPheromone receptorField embedding
  = Returned (gtb (SemanticUtils.cosineSimilarity signalPheromone embedding)
                  (match threshold receptorField with Some t => t | None => 0.6 end)).
Proof.
  intros Hlen. unfold SignalModule.resonates.
  now rewrite (strict_similarity_equal_lengths _ _ Hlen).
Qed.

(** X5.  The strict similarity of [signal.ts] throws exactly when the
    two vectors differ in length, and for vectors of the same length it
    returns what the lenient similarity of [semantic-utils.ts] returns. *)
Theorem strict_similarity_agrees_with_lenient (a b : list number) :
  (length a <> length b ->
   SignalModule.cosineSimilarity a b
   = Thrown (DimensionMismatch (length a) (length b)))
  /\ (length a = length b ->
      SignalModule.cosineSimilarity a b
      = Returned (SemanticUtils.cosineSimilarity a b)).
Proof.
  split.
  - intros Hne. unfold SignalModule.cosineSimilarity.
    apply Nat.eqb_neq in Hne. now rewrite Hne.
  - apply strict_similarity_equal_lengths.
Qed.

Lemma strict_similarity_agrees_with_lenient_witness :
  SignalModule.cosineSimilarity [1; 0] [1; 0; 0] = Thrown (DimensionMismatch 2 3)
  /\ SignalModule.cosineSimilarity [1; 0] [0; 1]
     = Returned (SemanticUtils.cosineSimilarity [1; 0] [0; 1]).
Proof.
  split.
  - apply (proj1 (strict_similarity_agrees_with_lenient [1; 0] [1; 0; 0])).
    simpl. lia.
  - apply (proj2 (strict_similarity_agrees_with_lenient [1; 0] [0; 1])).
    reflexivity.
Defined.

(** X6.  Resonance is monotone in the threshold: a pheromone that
    resonates with a receptor field still resonates when the threshold
    is lowered; a field without threshold behaves as one with threshold
    0.6; and the test returns whenever the dimensions agree. *)
Theorem resonates_threshold_monotone (signalPheromone embedding : list number)
        (patterns1 patterns2 : list string) (t1 t2 : number) :
  t1 <= t2 ->
  SignalModule.resonates signalPheromone (mkReceptorField patterns2 (Some t2)) embedding
  = Returned true ->
  SignalModule.resonates signalPheromone (mkReceptorField patterns1 (Some t1)) embedding
  = Returned true
  /\ SignalModule.resonates signalPheromone (mkReceptorField patterns1 None) embedding
     = SignalModule.resonates signalPheromone (mkReceptorField patterns1 (Some 0.6))
                              embedding.
Proof.
  intros Hle. unfold SignalModule.resonates. simpl.
  destruct (SignalModule.cosineSimilarity signalPheromone embedding) as [similarity|e];
    [|discriminate].
  intros Hres. injection Hres as Hres. apply gtb_true in Hres.
  split; [|reflexivity]. f_equal. apply gtb_true. lra.
Qed.

Lemma resonates_threshold_monotone_witness :
  SignalModule.resonates [4; 3] (mkReceptorField ["launch"] (Some 0.65)) [1; 0]
  = Returned true
  /\ SignalModule.resonates [4; 3] (mkReceptorField ["launch"] None) [1; 0]
     = SignalModule.resonates [4; 3] (mkReceptorField ["launch"] (Some 0.6)) [1; 0].
Proof.
  apply (resonates_threshold_monotone [4; 3] [1; 0] ["launch"] ["deadline"] 0.65 0.7).
  - lra.
  - rewrite resonates_equal_lengths by reflexivity.
    rewrite RouterFacts.similarity_exactly_08. f_equal. apply gtb_true. simpl. lra.
Defined.

End SignalFacts.

(** ** The synapse over its life *)

Module SynapseLaws.
Import Synapse.

Lemma sigmoid_below_one x : sigmoid x < 1.
Proof.
  unfold sigmoid. pose proof (exp_pos (- x)) as Hx.
  apply Rmult_lt_reg_r with (1 + exp (- x)); [lra|].
  unfold Rdiv. rewrite Rmult_assoc, Rinv_l by lra. lra.
Qed.

Lemma calculateConfidence_at_most_efficacy n e :
  0 <= e -> 0 <= calculateConfidence (INR n) e <= e.
Proof.
  intros He. split; [now apply SynapseFacts.calculateConfidence_nonneg|].
  destruct n.
  - rewrite SynapseFacts.calculateConfidence_zero. exact He.
  - rewrite SynapseFacts.calculateConfidence_succ.
    pose proof (sigmoid_below_one (ln (INR (S n) + 1) - 2)) as H1.
    pose proof (SynapseFacts.sigmoid_pos (ln (INR (S n) + 1) - 2)) as H0.
    nra.
Qed.

Section Life.
Variable Date_now : nat -> number.
Variable llm_chat : list Event -> list ChatMessage -> option string.

(** The strength and the memo table after any call of [transform]. *)
Lemma transform_cases syn signal w :
  let syn' := fst (snd (transform Date_now llm_chat signal (syn, w))) in
  activations (strength syn') = S (activations (strength syn))
  /\ baseSimilarity (strength syn') = baseSimilarity (strength syn)
  /\ synapse_id syn' = synapse_id syn /\ from syn' = from syn /\ to syn' = to syn
  /\ confidence (strength syn')
     = calculateConfidence (INR (activations (strength syn'))) (efficacy (strength syn'))
  /\ (efficacy (strength syn') = efficacy (strength syn)
      \/ efficacy (strength syn')
         = (efficacy (strength syn) * (INR (S (activations (strength syn))) - 1) + 1)
           / INR (S (activations (strength syn)))
      \/ efficacy (strength syn')
         = (efficacy (strength syn) * (INR (S (activations (strength syn))) - 1) + 0)
           / INR (S (activations (strength syn))))
  /\ (synapticMemory syn' = synapticMemory syn
      \/ exists reply,
          synapticMemory syn' = JsMap.set (thought signal) reply (synapticMemory syn)).
Proof.
  destruct (truthy (JsMap.get (thought signal) (synapticMemory syn))) as [cached|] eqn:Hc.
  - rewrite (SynapseFacts.transform_recall_eq _ _ _ _ _ _ Hc). simpl.
    repeat split; auto.
  - destruct (llm_chat (trace w) (transform_messages syn signal)) as [reply|] eqn:Hr.
    + rewrite (SynapseFacts.transform_success_eq _ _ _ _ _ _ Hc Hr). simpl.
      repeat split; eauto.
    + rewrite (SynapseFacts.transform_failure_eq _ _ _ _ _ Hc Hr). simpl.
      repeat split; auto.
Qed.

(** X7.  A synapse whose efficacy lies in [0, 1], as it does at
    creation, keeps it there through every call of [transform], and
    after the call its confidence lies between 0 and its efficacy. *)
Theorem transform_keeps_strength_sound syn signal w :
  0 <= efficacy (strength syn) <= 1 ->
  let syn' := fst (snd (transform Date_now llm_chat signal (syn, w))) in
  0 <= efficacy (strength syn') <= 1
  /\ 0 <= confidence (strength syn') <= efficacy (strength syn').
Proof.
  intros He syn'.
  assert (He' : 0 <= efficacy (strength syn') <= 1)
    by exact (SynapseFacts.transform_keeps_efficacy Date_now llm_chat syn signal w He).
  split; [exact He'|].
  destruct (transform_cases syn signal w) as (_ & _ & _ & _ & _ & Hconf & _).
  fold syn' in Hconf. rewrite Hconf.
  apply calculateConfidence_at_most_efficacy. lra.
Qed.

(** X8.  Every call of [transform], whichever path it takes, counts
    exactly one activation, leaves the base similarity and the identity
    of the synapse alone, and forgets no remembered transformation of
    another thought.  A synapse that has just been created is prunable
    at any time and for any threshold; after a call of [transform] it
    is prunable only when it has been idle for longer than the
    threshold and its efficacy is below 0.3. *)
Theorem transform_counts_one_activation config syn signal w now pruneThreshold :
  let syn' := fst (snd (transform Date_now llm_chat signal (syn, w))) in
  activations (strength syn') = S (activations (strength syn))
  /\ baseSimilarity (strength syn') = baseSimilarity (strength syn)
  /\ synapse_id syn' = synapse_id syn
  /\ from syn' = from syn
  /\ to syn' = to syn
  /\ (forall other, other <> thought signal ->
                    JsMap.get other (synapticMemory syn')
                    = JsMap.get other (synapticMemory syn))
  /\ shouldPrune (createSignalSynapse config) now pruneThreshold = true
  /\ (shouldPrune syn' now pruneThreshold = true ->
      now - lastFiring (strength syn') > pruneThreshold
      /\ efficacy (strength syn') < 0.3).
Proof.
  intros syn'.
  destruct (transform_cases syn signal w)
    as (Hact & Hbase & Hid & Hfrom & Hto & _ & _ & Hmem).
  fold syn' in Hact, Hbase, Hid, Hfrom, Hto, Hmem.
  split; [exact Hact|]. split; [exact Hbase|]. split; [exact Hid|].
  split; [exact Hfrom|]. split; [exact Hto|]. split.
  { intros other Hother. destruct Hmem as [->|[reply ->]]; [reflexivity|].
    apply JsMapFacts.get_set_other. congruence. }
  split; [reflexivity|].
  unfold shouldPrune. rewrite Hact. simpl.
  intros H. apply andb_prop in H. destruct H as [Hidle Hlow].
  apply gtb_true in Hidle. apply ltb_true in Hlow. auto.
Qed.

(** X9.  Once the backend has transformed a thought into a non-empty
    text, the synapse answers every later signal with that exact
    thought from its memory: same transformed text, source agent as
    author, and no further backend call. *)
Theorem transform_then_recall syn signal w reply later :
  truthy (JsMap.get (thought signal) (synapticMemory syn)) = None ->
  llm_chat (trace w) (transform_messages syn signal) = Some reply ->
  reply <> EmptyString ->
  thought later = thought signal ->
  exists syn1 w1 syn2 w2,
    transform Date_now llm_chat signal (syn, w)
    = (Returned (retarget signal reply (from syn)), (syn1, w1))
    /\ transform Date_now llm_chat later (syn1, w1)
       = (Returned (retarget later reply (from syn)), (syn2, w2))
    /\ trace w2 = trace w1
    /\ backend_calls (trace w2) = backend_calls (trace w1).
Proof.
  intros Hmiss Hreply Hne Hsame.
  do 4 eexists. split; [apply SynapseFacts.transform_success_eq; eassumption|].
  assert (Hhit : truthy (JsMap.get (thought later)
                           (synapticMemory
                              (remember (thought signal) reply
                                 (update_strength
                                    (transmission_recorded 1
                                       (Date_now (S (clockReads w)) - Date_now (clockReads w))
                                       (Date_now (S (S (clockReads w))))) syn))))
                 = Some reply).
  { simpl. rewrite Hsame, JsMapFacts.get_set_same. simpl.
    destruct (String.eqb_spec reply EmptyString); [contradiction | reflexivity]. }
  split.
  - rewrite (SynapseFacts.transform_recall_eq _ _ _ _ _ _ Hhit). reflexivity.
  - split; reflexivity.
Qed.

End Life.

Lemma transform_keeps_strength_sound_witness :
  let syn' := fst (snd (transform example_clock chat_down example_signal
                                  (createSignalSynapse example_config, initial_world))) in
  0 <= efficacy (strength syn') <= 1
  /\ 0 <= confidence (strength syn') <= efficacy (strength syn').
Proof.
  apply (transform_keeps_strength_sound example_clock chat_down
           (createSignalSynapse example_config) example_signal initial_world).
  simpl. lra.
Defined.

Lemma transform_then_recall_witness :
  exists syn1 w1 syn2 w2,
    transform example_clock (chat_fixed "Friday is the release date") example_signal
              (createSignalSynapse example_config, initial_world)
    = (Returned (retarget example_signal "Friday is the release date" "ceo"), (syn1, w1))
    /\ transform example_clock (chat_fixed "Friday is the release date") example_signal
                 (syn1, w1)
       = (Returned (retarget example_signal "Friday is the release date" "ceo"),
          (syn2, w2))
    /\ trace w2 = trace w1
    /\ backend_calls (trace w2) = backend_calls (trace w1).
Proof.
  apply (transform_then_recall example_clock (chat_fixed "Friday is the release date")
           (createSignalSynapse example_config) example_signal initial_world
           "Friday is the release date" example_signal eq_refl eq_refl).
  - discriminate.
  - reflexivity.
Defined.

End SynapseLaws.

(** ** The registry of motor skills *)

Module SkillRegistryFacts.
Import SkillRegistry.

Lemma resolve_cons skills id ids :
  resolve skills (id :: ids)
  = match JsMap.get id skills with
    | Some skill => skill :: resolve skills ids
    | None => resolve skills ids
    end.
Proof. unfold resolve. simpl. now destruct (JsMap.get id skills). Qed.

(** X10.  After [register(skill)] the registry answers [get] and [has]
    for the id of the skill with that skill, answers as before for every
    other id, and lists one more skill exactly when the id was new. *)
Theorem register_then_get skill skills :
  get (register skill skills) (skill_id skill) = Some skill
  /\ has (register skill skills) (skill_id skill) = true
  /\ (forall id, id <> skill_id skill ->
                 get (register skill skills) id = get skills id)
  /\ length (list_skills (register skill skills))
     = if has skills (skill_id skill)
       then length (list_skills skills)
       else S (length (list_skills skills)).
Proof.
  unfold get, has, register, list_skills, JsMap.has, JsMap.values.
  rewrite JsMapFacts.get_set_same. split; [reflexivity|]. split; [reflexivity|]. split.
  - intros id Hne. apply JsMapFacts.get_set_other. congruence.
  - rewrite !length_map.
    induction skills as [|[k v] m IH]; simpl; [reflexivity|].
    destruct (String.eqb (skill_id skill) k) eqn:E; simpl; [reflexivity|].
    rewrite IH. now destruct (JsMap.get (skill_id skill) m).
Qed.

(** X11.  [resolve(ids)] returns the skills registered under the ids
    and skips the ids that are not registered: it never returns more
    skills than ids, and it returns as many exactly when every id is
    registered. *)
Theorem resolve_skips_missing skills ids :
  (forall skill,
      In skill (resolve skills ids) <->
      exists id, In id ids /\ get skills id = Some skill)
  /\ (length (resolve skills ids) <= length ids)%nat
  /\ (length (resolve skills ids) = length ids <->
      forall id, In id ids -> has skills id = true).
Proof.
  unfold get, has, JsMap.has.
  induction ids as [|id ids (IHin & IHle & IHeq)].
  - simpl. split; [|split].
    + intros skill. split; [intros [] | intros (id & [] & _)].
    + lia.
    + split; [intros _ id [] | reflexivity].
  - rewrite resolve_cons.
    destruct (JsMap.get id skills) as [found|] eqn:Hget.
    + split; [|split].
      * intros skill. simpl. rewrite IHin. split.
        -- intros [<-|(id' & Hin & Hg)]; [exists id; auto | exists id'; auto].
        -- intros (id' & [<-|Hin] & Hg).
           ++ left. congruence.
           ++ right. exists id'. auto.
      * simpl. lia.
      * simpl. split.
        -- intros Hlen id' [<-|Hin]; [now rewrite Hget|].
           apply IHeq; [lia | exact Hin].
        -- intros Hall. f_equal. apply IHeq. intros id' Hin. apply Hall. now right.
    + split; [|split].
      * intros skill. rewrite IHin. split.
        -- intros (id' & Hin & Hg). exists id'. split; [now right | exact Hg].
        -- intros (id' & [<-|Hin] & Hg); [congruence|]. exists id'. auto.
      * simpl. lia.
      * simpl. split.
        -- intros Hlen. lia.
        -- intros Hall. specialize (Hall id (or_introl eq_refl)).
           rewrite Hget in Hall. discriminate.
Qed.

Lemma registerMany_from many :
  forall skills id,
    JsMap.has id (registerMany many skills) = true
    <-> (JsMap.has id skills = true \/ exists skill, In skill many /\ skill_id skill = id).
Proof.
  unfold registerMany.
  induction many as [|s many IH]; intros skills id; simpl.
  - split; [auto | intros [H|(skill & [] & _)]; exact H].
  - rewrite IH. unfold register, JsMap.has.
    destruct (String.eqb_spec (skill_id s) id) as [Heq|Hne].
    + subst id. rewrite JsMapFacts.get_set_same. split; [|auto].
      intros _. right. exists s. auto.
    + rewrite (JsMapFacts.get_set_other _ _ _ _ Hne). split.
      * intros [H|(skill & Hin & Hid)]; [auto|]. right. exists skill. auto.
      * intros [H|(skill & [<-|Hin] & Hid)]; [auto | contradiction |].
        right. exists skill. auto.
Qed.

End SkillRegistryFacts.

(** ** Laws of the equilibrium detector *)

Module DetectorLaws.
Import Equilibrium.

Lemma clamp01_monotone x y : x <= y -> clamp01 x <= clamp01 y.
Proof.
  intros H. unfold clamp01.
  apply Rmax_case_strong; intros H1; apply Rmax_case_strong; intros H2;
    try lra;
    revert H1 H2; apply Rmin_case_strong; intros H3; apply Rmin_case_strong; intros H4;
    intros; lra.
Qed.

(** X12.  The energy of the system is a number of [0, 1] that grows
    with tension and momentum and shrinks with coherence and clarity. *)
Theorem calculateEnergy_monotone t1 t2 m1 m2 c1 c2 k1 k2 :
  t1 <= t2 -> m1 <= m2 -> c2 <= c1 -> k2 <= k1 ->
  0 <= calculateEnergy t1 m1 c1 k1
  /\ calculateEnergy t1 m1 c1 k1 <= calculateEnergy t2 m2 c2 k2
  /\ calculateEnergy t2 m2 c2 k2 <= 1.
Proof.
  intros Ht Hm Hc Hk. unfold calculateEnergy. cbv zeta.
  split; [apply clamp01_bounds|]. split; [|apply clamp01_bounds].
  apply clamp01_monotone. lra.
Qed.

Lemma calculateEnergy_monotone_witness :
  0 <= calculateEnergy 0 0 1 1
  /\ calculateEnergy 0 0 1 1 <= calculateEnergy 1 1 0 0
  /\ calculateEnergy 1 1 0 0 <= 1.
Proof. apply (calculateEnergy_monotone 0 1 0 1 1 0 1 0); lra. Defined.

Section Invocation.
Variable llm_embed : list Event -> string -> option (list number).
Variable llm_chat : list Event -> list ChatMessage -> option string.

Lemma extractIdealState_detector scenario d w r d1 w1 :
  extractIdealState llm_embed llm_chat scenario (d, w) = (r, (d1, w1)) ->
  d1 = d \/ exists embedding, d1 = cache_idealState scenario embedding d.
Proof.
  unfold extractIdealState, bind, self, ret, on_self, in_world.
  destruct (JsMap.has scenario (idealStateCache d)).
  - intros H. inversion H. now left.
  - destruct (chat llm_chat (idealState_messages scenario) w) as [[response|e] w0].
    + destruct (embed llm_embed response w0) as [[embedding|e] w2];
        intros H; inversion H; [right; now exists embedding | now left].
    + intros H. inversion H. now left.
Qed.

(** Where an invocation leaves the detector, whatever its outcome. *)
Lemma detect_final_detector scenario signals agents d w r d' w' :
  detect llm_embed llm_chat scenario signals agents (d, w) = (r, (d', w')) ->
  exists d1,
    (d1 = increment_currentTick d
     \/ exists embedding,
         d1 = cache_idealState scenario embedding (increment_currentTick d))
    /\ (d' = d1 \/ exists entry, d' = track_stagnation entry d1).
Proof.
  unfold detect, bind, on_self, self, ret. simpl.
  destruct (ltb (IZR (JsArray.len signals)) (minSignalWindow d)).
  { intros H. inversion H. eexists. split; [left; reflexivity | left; reflexivity]. }
  destruct (ltb (IZR (currentTick d + 1)) (minTicks d)).
  { intros H. inversion H. eexists. split; [left; reflexivity | left; reflexivity]. }
  destruct (extractIdealState _ _ _ _) as [[idealState|e] [d1 w1]] eqn:Hideal;
    apply extractIdealState_detector in Hideal.
  2:{ intros H. inversion H. subst. exists d'. split; [exact Hideal | now left]. }
  unfold in_world at 1.
  destruct (measureGoalTension _ _ _ _) as [[tension|e] w2].
  2:{ intros H. inversion H. subst. exists d'. split; [exact Hideal | now left]. }
  unfold in_world at 1.
  destruct (measureDecisionClarity _ _ _) as [[clarity|e] w3].
  2:{ intros H. inversion H. subst. exists d'. split; [exact Hideal | now left]. }
  intros H. inversion H. subst. exists d1. split; [exact Hideal|].
  right. eexists. reflexivity.
Qed.

(** A run that returns is a guarded run or a measured run. *)
Lemma detect_returned scenario signals agents d w st d' w' :
  detect llm_embed llm_chat scenario signals agents (d, w) = (Returned st, (d', w')) ->
  (exists reasoning, st = not_yet reasoning)
  \/ exists d1 tension clarity,
      let dt := increment_currentTick d in
      let recentSignals := JsArray.slice signals (- signalWindowSize)%Z None in
      let momentum := measureMomentum dt signals recentSignals in
      let coherence := measureCoherence recentSignals in
      let energy := calculateEnergy tension momentum coherence clarity in
      let energyGradient := calculateEnergyGradient dt signals in
      let atEquilibrium := ltb energy 0.35 && abs_below energyGradient 0.1 in
      (d1 = dt \/ exists embedding, d1 = cache_idealState scenario embedding dt)
      /\ d' = track_stagnation (mkEntry (currentTick dt) tension coherence clarity) d1
      /\ st = mkState atEquilibrium tension momentum coherence clarity
                      (detectStagnation d')
                      (explainState tension momentum coherence clarity energy
                                    energyGradient atEquilibrium (detectStagnation d')).
Proof.
  unfold detect, bind, on_self, self, ret. simpl.
  destruct (ltb (IZR (JsArray.len signals)) (minSignalWindow d)).
  { intros H. inversion H. left. eexists. reflexivity. }
  destruct (ltb (IZR (currentTick d + 1)) (minTicks d)).
  { intros H. inversion H. left. eexists. reflexivity. }
  destruct (extractIdealState _ _ _ _) as [[idealState|e] [d1 w1]] eqn:Hideal;
    [|discriminate].
  apply extractIdealState_detector in Hideal.
  unfold in_world at 1.
  destruct (measureGoalTension _ _ _ _) as [[tension|e] w2] eqn:Htension; [|discriminate].
  unfold in_world at 1.
  destruct (measureDecisionClarity _ _ _) as [[clarity|e] w3] eqn:Hclarity; [|discriminate].
  intros H. inversion H. subst. clear H.
  right. exists d1, tension, clarity. cbv zeta.
  split; [exact Hideal|].
  split; reflexivity.
Qed.

Lemma track_stagnation_length entry d :
  (length (stagnationHistory d) <= 5)%nat ->
  (length (stagnationHistory (track_stagnation entry d)) <= 5)%nat.
Proof.
  intros Hlen. unfold track_stagnation. cbv zeta.
  destruct (stagnationWindowSize <? JsArray.len (stagnationHistory d ++ [entry]))%Z eqn:E;
    cbn [set_stagnationHistory stagnationHistory].
  - destruct (stagnationHistory d) as [|x h]; simpl in *; [lia|].
    rewrite length_app. simpl. lia.
  - apply Z.ltb_ge in E. unfold JsArray.len, stagnationWindowSize in E. lia.
Qed.

(** X16.  Every invocation of [detect] is counted, whether it is
    guarded, measured or fails on the backend; no invocation changes
    the configured thresholds, and the stagnation window never grows
    beyond five entries. *)
Theorem detect_counts_every_invocation scenario signals agents d w :
  let d' := fst (snd (detect llm_embed llm_chat scenario signals agents (d, w))) in
  currentTick d' = (currentTick d + 1)%Z
  /\ minSignalWindow d' = minSignalWindow d
  /\ minTicks d' = minTicks d
  /\ ((length (stagnationHistory d) <= 5)%nat ->
      (length (stagnationHistory d') <= 5)%nat).
Proof.
  destruct (detect llm_embed llm_chat scenario signals agents (d, w))
    as [r [d' w']] eqn:Hrun.
  apply detect_final_detector in Hrun. simpl.
  destruct Hrun as (d1 & Hd1 & Hd').
  assert (H1 : currentTick d1 = (currentTick d + 1)%Z
               /\ minSignalWindow d1 = minSignalWindow d
               /\ minTicks d1 = minTicks d
               /\ stagnationHistory d1 = stagnationHistory d).
  { destruct Hd1 as [-> | [embedding ->]]; simpl; auto. }
  destruct H1 as (Htick & Hwin & Hticks & Hhist).
  destruct Hd' as [-> | [entry ->]].
  - rewrite Hhist. auto.
  - repeat split.
    + rewrite <- Htick. unfold track_stagnation. cbv zeta.
      now destruct (stagnationWindowSize <? _)%Z.
    + rewrite <- Hwin. unfold track_stagnation. cbv zeta.
      now destruct (stagnationWindowSize <? _)%Z.
    + rewrite <- Hticks. unfold track_stagnation. cbv zeta.
      now destruct (stagnationWindowSize <? _)%Z.
    + intros Hlen. apply track_stagnation_length. now rewrite Hhist.
Qed.

Lemma track_stagnation_few entry d :
  (length (stagnationHistory d) < 4)%nat ->
  detectStagnation (track_stagnation entry d) = false.
Proof.
  intros Hfew.
  assert (Hpushed : JsArray.len (stagnationHistory d ++ [entry])
                    = (Z.of_nat (length (stagnationHistory d)) + 1)%Z).
  { unfold JsArray.len. rewrite length_app. simpl. lia. }
  unfold detectStagnation, track_stagnation. cbv zeta.
  destruct (stagnationWindowSize <? JsArray.len (stagnationHistory d ++ [entry]))%Z eqn:E.
  - apply Z.ltb_lt in E. rewrite Hpushed in E. unfold stagnationWindowSize in E. lia.
  - cbn [set_stagnationHistory stagnationHistory].
    assert (Hlen : (JsArray.len (stagnationHistory d ++ [entry])
                    <? stagnationWindowSize)%Z = true).
    { apply Z.ltb_lt. rewrite Hpushed. unfold stagnationWindowSize. lia. }
    now rewrite Hlen.
Qed.

(** X17.  A young run reports neither equilibrium nor stagnation.  A
    history shorter than twice [minSignalWindow] is never at
    equilibrium: its energy gradient is taken to be 1, and its momentum
    is at the maximum.  And stagnation is never reported before the
    detector holds five measurements: with fewer than four recorded
    entries the returned state is not stagnant. *)
Theorem young_detector_reports_neither scenario signals agents d w st d' w' :
  detect llm_embed llm_chat scenario signals agents (d, w) = (Returned st, (d', w')) ->
  (IZR (JsArray.len signals) < minSignalWindow d * 2 ->
   atEquilibrium st = false /\ momentum st = 1)
  /\ ((length (stagnationHistory d) < 4)%nat -> isStagnant st = false).
Proof.
  intros Hrun. apply detect_returned in Hrun.
  destruct Hrun as [[reasoning ->] | (d1 & tension & clarity & Hrun)].
  - split; [intros _; split; reflexivity | reflexivity].
  - cbv zeta in Hrun. destruct Hrun as (Hd1 & -> & ->). simpl. split.
    + intros Hshort.
      unfold calculateEnergyGradient, measureMomentum.
      cbn [increment_currentTick minSignalWindow].
      rewrite (proj2 (ltb_true _ _) Hshort).
      split; [|reflexivity].
      apply andb_false_intro2. unfold abs_below. apply ltb_false.
      rewrite Rabs_pos_eq; lra.
    + intros Hfew.
      assert (Hhist : stagnationHistory d1 = stagnationHistory d).
      { destruct Hd1 as [-> | [embedding ->]]; reflexivity. }
      apply track_stagnation_few. now rewrite Hhist.
Qed.

End Invocation.

(** A measured run of a fresh detector that is past its guards from
    the first signal on. *)
Lemma eager_run :
  exists st d' w',
    detect (embed_fixed [1; 0]) (chat_fixed "A decision everyone accepts")
           example_scenario example_history []
           (new_EquilibriumDetector eager_config, initial_world)
    = (Returned st, (d', w')).
Proof.
  destruct (EquilibriumFacts.eager_guards_open (new_EquilibriumDetector eager_config)
              eq_refl eq_refl (Z.le_refl 0)) as [Hsig Htick].
  destruct (EquilibriumFacts.detect_backend_calls (embed_fixed [1; 0])
              (chat_fixed "A decision everyone accepts")
              (EquilibriumFacts.fixed_embed_answers [1; 0])
              (EquilibriumFacts.fixed_chat_answers "A decision everyone accepts")
              example_scenario example_history []
              (new_EquilibriumDetector eager_config) initial_world
              Hsig Htick ltac:(discriminate))
    as (st & d' & w' & Hrun & _).
  now exists st, d', w'.
Defined.

Lemma young_detector_reports_neither_witness :
  exists st d' w',
    detect (embed_fixed [1; 0]) (chat_fixed "A decision everyone accepts")
           example_scenario example_history []
           (new_EquilibriumDetector eager_config, initial_world)
    = (Returned st, (d', w'))
    /\ atEquilibrium st = false /\ momentum st = 1 /\ isStagnant st = false.
Proof.
  destruct eager_run as (st & d' & w' & Hrun).
  exists st, d', w'. split; [exact Hrun|].
  destruct (young_detector_reports_neither _ _ _ _ _ _ _ _ _ _ Hrun) as [Hshort Hfew].
  destruct Hshort as [Heq Hmom].
  { cbn [new_EquilibriumDetector minSignalWindow or_default config_minSignalWindow
         eager_config example_history
         JsArray.len length Z.of_nat Pos.of_succ_nat Pos.succ].
    lra. }
  split; [exact Heq|]. split; [exact Hmom|].
  apply Hfew. simpl. lia.
Defined.

End DetectorLaws.

(** ** Laws of the router *)

Module RouterLaws.
Import Router.

Lemma In_firstn {A} (x : A) n l : In x (firstn n l) -> In x l.
Proof.
  intros H. rewrite <- (firstn_skipn n l). apply in_or_app. now left.
Qed.

Lemma In_skipn {A} (x : A) n l : In x (skipn n l) -> In x l.
Proof.
  intros H. rewrite <- (firstn_skipn n l). apply in_or_app. now right.
Qed.

Lemma In_slice {A} (x : A) l start end_ : In x (JsArray.slice l start end_) -> In x l.
Proof. unfold JsArray.slice. intros H. eapply In_skipn, In_firstn, H. Qed.

Lemma length_slice_prefix {A} (l : list A) (n : Z) :
  (0 <= n)%Z -> (length (JsArray.slice l 0%Z (Some n)) <= Z.to_nat n)%nat.
Proof.
  intros Hn. unfold JsArray.slice, JsArray.relative_index. cbv zeta.
  rewrite length_firstn.
  destruct (0 <? 0)%Z eqn:E0; [discriminate|].
  destruct (n <? 0)%Z eqn:En; [apply Z.ltb_lt in En; lia|].
  lia.
Qed.

Lemma In_insert_descending x c sorted :
  In x (insert_descending c sorted) -> x = c \/ In x sorted.
Proof.
  induction sorted as [|c' rest IH]; simpl.
  - intros [<-|[]]. now left.
  - destruct (gtb (snd c) (snd c')); simpl.
    + intros [<-|H]; auto.
    + intros [<-|H]; auto. destruct (IH H); auto.
Qed.

Lemma In_sort_from x candidates :
  forall sorted,
    In x (fold_left (fun sorted c => insert_descending c sorted) candidates sorted) ->
    In x candidates \/ In x sorted.
Proof.
  induction candidates as [|c rest IH]; intros sorted; simpl; [auto|].
  intros H. destruct (IH _ H) as [Hin|Hin]; [auto|].
  destruct (In_insert_descending _ _ _ Hin); auto.
Qed.

Lemma In_sort_descending x candidates :
  In x (sort_descending candidates) -> In x candidates.
Proof.
  unfold sort_descending. intros H.
  destruct (In_sort_from _ _ _ H) as [Hin|[]]. exact Hin.
Qed.

(** What the resonance loop selects. *)
Lemma resonant_agents_sound cache signal candidates :
  forall receivers,
    resonant_agents cache signal candidates = Returned receivers ->
    forall receiver, In receiver receivers ->
      In receiver candidates
      /\ agent_id receiver <> emittedBy signal
      /\ exists receptorVector,
          JsMap.get (agent_id receiver) cache = Some receptorVector
          /\ SignalModule.resonates (pheromone signal) (receptorField receiver)
                                    receptorVector = Returned true.
Proof.
  induction candidates as [|agent rest IH]; intros receivers; simpl.
  - intros H. inversion H. intros receiver [].
  - destruct (String.eqb_spec (agent_id agent) (emittedBy signal)) as [Heq|Hne].
    { intros H receiver Hin. destruct (IH _ H _ Hin) as (? & ? & ?). auto. }
    destruct (JsMap.get (agent_id agent) cache) as [receptorVector|] eqn:Hget.
    2:{ intros H receiver Hin. destruct (IH _ H _ Hin) as (? & ? & ?). auto. }
    destruct (SignalModule.resonates _ _ _) as [hit|e] eqn:Hres; [|discriminate].
    destruct (resonant_agents cache signal rest) as [others|e]; [|discriminate].
    intros H receiver Hin. injection H as <-.
    destruct hit.
    + destruct Hin as [<-|Hin].
      * split; [now left|]. split; [exact Hne|]. now exists receptorVector.
      * destruct (IH _ eq_refl _ Hin) as (? & ? & ?). auto.
    + destruct (IH _ eq_refl _ Hin) as (? & ? & ?). auto.
Qed.

(** What the loop of ambient awareness collects. *)
Lemma ambient_candidates_sound cache signal candidates :
  forall agent similarity,
    In (agent, similarity) (ambient_candidates cache signal candidates) ->
    In agent candidates
    /\ agent_id agent <> emittedBy signal
    /\ exists receptorVector,
        JsMap.get (agent_id agent) cache = Some receptorVector
        /\ similarity = SemanticUtils.cosineSimilarity (pheromone signal) receptorVector
        /\ similarity > 0.4.
Proof.
  induction candidates as [|candidate rest IH]; intros agent similarity; simpl.
  - intros [].
  - destruct (String.eqb_spec (agent_id candidate) (emittedBy signal)) as [Heq|Hne].
    { intros Hin. destruct (IH _ _ Hin) as (? & ? & ?). auto. }
    destruct (JsMap.get (agent_id candidate) cache) as [receptorVector|] eqn:Hget.
    2:{ intros Hin. destruct (IH _ _ Hin) as (? & ? & ?). auto. }
    destruct (gtb _ 0.4) eqn:Hgt.
    + intros [Hhd|Hin].
      * injection Hhd as <- <-. split; [now left|]. split; [exact Hne|].
        exists receptorVector. split; [exact Hget|]. split; [reflexivity|].
        now apply gtb_true.
      * destruct (IH _ _ Hin) as (? & ? & ?). auto.
    + intros Hin. destruct (IH _ _ Hin) as (? & ? & ?). auto.
Qed.

Lemma findResonance_cached b signal receivers :
  findResonance b signal = Returned receivers ->
  forall receiver, In receiver receivers ->
    exists receptorVector,
      JsMap.get (agent_id receiver) (receptorFieldCache b) = Some receptorVector.
Proof.
  unfold findResonance.
  destruct (resonant_agents (receptorFieldCache b) signal (listAgents b))
    as [resonant|e] eqn:Hres; [|discriminate].
  destruct (length resonant =? 0)%nat; intros H receiver Hin; injection H as <-.
  - apply in_map_iff in Hin. destruct Hin as ([agent similarity] & <- & Hin).
    apply In_slice, In_sort_descending, ambient_candidates_sound in Hin.
    destruct Hin as (_ & _ & v & Hget & _). now exists v.
  - destruct (resonant_agents_sound _ _ _ _ Hres _ Hin) as (_ & _ & v & Hget & _).
    now exists v.
Qed.

(** X18.  The receivers chosen by [findResonance] are registered
    agents other than the author of the signal whose receptor embedding
    is cached, and each of them either resonates with the pheromone or
    is above the ambient threshold of 0.4; when nobody resonates, at
    most three agents are chosen. *)
Theorem findResonance_receivers b signal receivers :
  findResonance b signal = Returned receivers ->
  (forall receiver, In receiver receivers ->
      In receiver (listAgents b)
      /\ agent_id receiver <> emittedBy signal
      /\ exists receptorVector,
          JsMap.get (agent_id receiver) (receptorFieldCache b) = Some receptorVector
          /\ (SignalModule.resonates (pheromone signal) (receptorField receiver)
                                     receptorVector = Returned true
              \/ SemanticUtils.cosineSimilarity (pheromone signal) receptorVector > 0.4))
  /\ (resonant_agents (receptorFieldCache b) signal (listAgents b) = Returned [] ->
      (length receivers <= 3)%nat).
Proof.
  unfold findResonance.
  destruct (resonant_agents (receptorFieldCache b) signal (listAgents b))
    as [resonant|e] eqn:Hres; [|discriminate].
  destruct (length resonant =? 0)%nat eqn:Hlen.
  - intros H. injection H as <-. split.
    + intros receiver Hin. apply in_map_iff in Hin.
      destruct Hin as ([agent similarity] & <- & Hin). simpl.
      apply In_slice, In_sort_descending, ambient_candidates_sound in Hin.
      destruct Hin as (Hreg & Hne & v & Hget & -> & Hgt).
      split; [exact Hreg|]. split; [exact Hne|]. exists v. auto.
    + intros _. rewrite length_map.
      apply (length_slice_prefix _ 3%Z). lia.
  - intros H. injection H as <-. split.
    + intros receiver Hin.
      destruct (resonant_agents_sound _ _ _ _ Hres _ Hin) as (Hreg & Hne & v & Hget & Hhit).
      split; [exact Hreg|]. split; [exact Hne|]. exists v. auto.
    + intros Hnil. injection Hnil as ->. discriminate.
Qed.

(** X19.  After [death] of an id, no agent with that id is chosen as a
    receiver again, whatever else the registry holds. *)
Theorem death_silences agentId b signal receivers :
  findResonance (death agentId b) signal = Returned receivers ->
  forall receiver, In receiver receivers -> agent_id receiver <> agentId.
Proof.
  intros Hrun receiver Hin Heq.
  destruct (findResonance_cached _ _ _ Hrun _ Hin) as (v & Hget).
  rewrite Heq in Hget. unfold death in Hget. simpl in Hget.
  rewrite JsMapFacts.get_delete_same in Hget. discriminate.
Qed.

(** A signal from outside that both agents of [two_agents] resonate
    with. *)
Lemma aligned_similarity : SemanticUtils.cosineSimilarity [0; 1] [0; 1] = 1.
Proof.
  unfold SemanticUtils.cosineSimilarity, SemanticUtils.accumulate. simpl.
  rewrite (RouterFacts.sqrt_of_square _ 1) by lra.
  destruct (Req_dec_T (1 * 1) 0); lra.
Qed.

Lemma aligned_resonance receptorField :
  match threshold receptorField with Some t => t | None => 0.6 end < 1 ->
  SignalModule.resonates [0; 1] receptorField [0; 1] = Returned true.
Proof.
  intros Hlt. rewrite SignalFacts.resonates_equal_lengths by reflexivity.
  rewrite aligned_similarity. f_equal. apply gtb_true. exact Hlt.
Qed.

Lemma two_agents_resonate :
  findResonance two_agents (signal_with [0; 1]) = Returned [analyst; engineer].
Proof.
  unfold findResonance, listAgents. simpl.
  rewrite !aligned_resonance by (simpl; lra). reflexivity.
Qed.

Lemma survivor_resonates :
  findResonance (death "analyst" two_agents) (signal_with [0; 1]) = Returned [engineer].
Proof.
  unfold findResonance, listAgents. simpl.
  rewrite !aligned_resonance by (simpl; lra). reflexivity.
Qed.

Lemma findResonance_receivers_witness :
  (forall receiver, In receiver [analyst; engineer] ->
      In receiver (listAgents two_agents)
      /\ agent_id receiver <> emittedBy (signal_with [0; 1])
      /\ exists receptorVector,
          JsMap.get (agent_id receiver) (receptorFieldCache two_agents)
          = Some receptorVector
          /\ (SignalModule.resonates (pheromone (signal_with [0; 1]))
                                     (receptorField receiver) receptorVector
              = Returned true
              \/ SemanticUtils.cosineSimilarity (pheromone (signal_with [0; 1]))
                                                receptorVector > 0.4))
  /\ (resonant_agents (receptorFieldCache two_agents) (signal_with [0; 1])
                      (listAgents two_agents) = Returned [] ->
      (length [analyst; engineer] <= 3)%nat).
Proof.
  exact (findResonance_receivers two_agents (signal_with [0; 1]) [analyst; engineer]
           two_agents_resonate).
Defined.

Lemma death_silences_witness :
  findResonance (death "analyst" two_agents) (signal_with [0; 1]) = Returned [engineer]
  /\ Forall (fun receiver => String.eqb (agent_id receiver) "analyst" = false) [engineer].
Proof.
  split; [exact survivor_resonates|].
  apply Forall_forall. intros receiver Hin. apply String.eqb_neq.
  exact (death_silences "analyst" two_agents (signal_with [0; 1]) [engineer]
           survivor_resonates receiver Hin).
Defined.

Section Coordination.
Variable Date_now : nat -> number.
Variable generateId : nat -> string.
Variable llm_embed : list Event -> string -> option (list number).
Variable llm_chat : list Event -> list ChatMessage -> option string.
Variable spawner : option OrganicSpawner.
Variable parse_bridge_spec : string -> Outcome (option BridgeAgentSpec).

(** The synapse of an ordered pair of agents is created once: a
    second request for the same pair, whatever similarity it comes
    with, hands back the same synapse and changes nothing, so that the
    base similarity of a synapse is the one of its first use. *)
Lemma getOrCreateSynapse_idempotent source receiver similarity similarity' b w :
  let first := getOrCreateSynapse source receiver similarity (b, w) in
  let second := getOrCreateSynapse source receiver similarity' (snd first) in
  fst second = fst first
  /\ snd second = snd first
  /\ snd (snd first) = w
  /\ exists synapseId synapse,
      fst first = Returned synapseId
      /\ JsMap.get synapseId (synapses (fst (snd first))) = Some synapse
      /\ (JsMap.has synapseId (synapses b) = false ->
          Synapse.baseSimilarity (Synapse.strength synapse) = similarity
          /\ Synapse.activations (Synapse.strength synapse) = 0%nat).
Proof.
  unfold getOrCreateSynapse, bind, self, on_self, ret, JsMap.has.
  set (synapseId := (agent_id source ++ "→" ++ agent_id receiver)%string).
  destruct (JsMap.get synapseId (synapses b)) as [existing|] eqn:Hget; simpl.
  - rewrite Hget. simpl.
    split; [reflexivity|]. split; [reflexivity|]. split; [reflexivity|].
    exists synapseId, existing.
    split; [reflexivity|]. split; [exact Hget|]. rewrite Hget. discriminate.
  - rewrite JsMapFacts.get_set_same. simpl.
    split; [reflexivity|]. split; [reflexivity|]. split; [reflexivity|].
    eexists synapseId, _. split; [reflexivity|].
    split; [apply JsMapFacts.get_set_same|].
    intros _. split; reflexivity.
Qed.

(** X20.  A birth whose embedding fails is put on the queue without
    complaint; the next flush reports the failure and empties the queue,
    and the flush after that returns.  The agent stays registered, but
    without a cached receptor embedding. *)
Theorem failed_birth_reported_once agent b w :
  birthQueue b = [] ->
  llm_embed (trace w) (JsArray.join ". " (patterns (receptorField agent))) = None ->
  exists s1 s2,
    push_birth llm_embed agent (b, w) = (Returned tt, s1)
    /\ flushBirthQueue s1 = (Thrown BackendFailure, s2)
    /\ flushBirthQueue s2 = (Returned tt, s2)
    /\ birthQueue (fst s2) = []
    /\ JsMap.get (agent_id agent) (agents (fst s2)) = Some agent
    /\ receptorFieldCache (fst s2) = receptorFieldCache b.
Proof.
  intros Hqueue Hdown.
  unfold push_birth, birth, bind, on_self, in_world, self, embed. simpl.
  rewrite Hdown. simpl. rewrite Hqueue.
  do 2 eexists. split; [reflexivity|].
  unfold flushBirthQueue, bind, self, on_self, lift_outcome, ret. simpl.
  split; [reflexivity|]. split; [reflexivity|]. split; [reflexivity|].
  split; [apply JsMapFacts.get_set_same | reflexivity].
Qed.

End Coordination.

Lemma failed_birth_reported_once_witness :
  exists s1 s2,
    push_birth embed_down analyst (empty_Biosphere, initial_world) = (Returned tt, s1)
    /\ flushBirthQueue s1 = (Thrown BackendFailure, s2)
    /\ flushBirthQueue s2 = (Returned tt, s2)
    /\ birthQueue (fst s2) = []
    /\ JsMap.get (agent_id analyst) (agents (fst s2)) = Some analyst
    /\ receptorFieldCache (fst s2) = receptorFieldCache empty_Biosphere.
Proof.
  apply (failed_birth_reported_once embed_down analyst empty_Biosphere initial_world);
    reflexivity.
Defined.

End RouterLaws.

(** ** Propagation, the environment and spawning *)

Module PropagationFacts.
Import Router Propagation.

Lemma bind_cases {St A B} (m : M St A) (k : A -> M St B) s r s' :
  bind m k s = (r, s') ->
  (exists e, m s = (Thrown e, s') /\ r = Thrown e)
  \/ (exists a s1, m s = (Returned a, s1) /\ k a s1 = (r, s')).
Proof.
  unfold bind. destruct (m s) as [[a|e] s1]; intros H.
  - right. now exists a, s1.
  - left. inversion H. subst. now exists e.
Qed.

Lemma keeps_pair {St X Y A} (f : St -> X) (g : St -> Y) (m : M St A) :
  keeps f m -> keeps g m -> keeps (fun s => (f s, g s)) m.
Proof. intros Hf Hg s r s' H. now rewrite (Hf _ _ _ H), (Hg _ _ _ H). Qed.

(** *** Parts of the state that births and embeddings leave alone *)

Section Parts.
Context {X : Type} (f : Biosphere * World -> X) (quiet : Event -> bool).
Hypothesis f_agents : forall v b w, f (set_agents v b, w) = f (b, w).
Hypothesis f_cache : forall v b w, f (set_receptorFieldCache v b, w) = f (b, w).
Hypothesis f_queue : forall v b w, f (set_birthQueue v b, w) = f (b, w).
Hypothesis f_seeded : forall v b w, f (set_seeded v b, w) = f (b, w).
Hypothesis f_event : forall e b w, quiet e = true -> f (b, record_event e w) = f (b, w).
Hypothesis f_clock : forall b tr n n', f (b, mkWorld tr n) = f (b, mkWorld tr n').
Hypothesis quiet_embed : forall text, quiet (EmbedCall text) = true.
Hypothesis quiet_notify : forall n, quiet (Notify n) = true.

Variable Date_now : nat -> number.
Variable generateId : nat -> string.
Variable llm_embed : list Event -> string -> option (list number).
Variable spawner : option OrganicSpawner.

Lemma part_lift {A} (o : Outcome A) : keeps f (@lift_outcome A o).
Proof. intros s r s' H. unfold lift_outcome in H. now inversion H. Qed.

Lemma part_world_trace : keeps f world_trace.
Proof. intros [b w] r s' H. unfold world_trace in H. now inversion H. Qed.

Lemma part_embed text : keeps f (in_world (embed llm_embed text)).
Proof.
  apply keeps_in_world. intros b w r w' H. unfold embed in H.
  destruct (llm_embed (trace w) text); inversion H; apply f_event, quiet_embed.
Qed.

Lemma part_notify n : keeps f (in_world (notify n)).
Proof.
  apply keeps_in_world. intros b w r w' H. unfold notify in H.
  inversion H. apply f_event, quiet_notify.
Qed.

Lemma part_createSignal text author intent tags pheromone :
  keeps f (in_world (SignalModule.createSignal Date_now generateId
                       text author intent tags pheromone)).
Proof.
  apply keeps_in_world. intros b [tr n] r w' H.
  unfold SignalModule.createSignal, now in H. simpl in H. inversion H. apply f_clock.
Qed.

Lemma part_birth agent : keeps f (birth llm_embed agent).
Proof.
  unfold birth.
  apply keeps_bind; [apply keeps_on_self; intros; apply f_agents|]. intros _.
  apply keeps_bind; [apply part_embed|]. intros v.
  apply keeps_bind; [apply keeps_on_self; intros; apply f_cache|]. intros _.
  apply keeps_bind; [apply keeps_self|]. intros b0.
  apply part_notify.
Qed.

Lemma part_push_birth agent : keeps f (push_birth llm_embed agent).
Proof.
  intros s r s' H. unfold push_birth in H.
  destruct (birth llm_embed agent s) as [settled [b1 w1]] eqn:E.
  unfold on_self in H. inversion H. rewrite f_queue.
  exact (part_birth agent _ _ _ E).
Qed.

Lemma part_flushBirthQueue : keeps f flushBirthQueue.
Proof.
  unfold flushBirthQueue.
  apply keeps_bind; [apply keeps_self|]. intros b0.
  destruct (length (birthQueue b0) =? 0)%nat; [apply keeps_ret|].
  apply keeps_bind; [apply keeps_on_self; intros; apply f_queue|]. intros _.
  apply part_lift.
Qed.

Lemma part_seedFromGoal goal : keeps f (seedFromGoal llm_embed spawner goal).
Proof.
  unfold seedFromGoal.
  destruct spawner as [sp|]; [|apply keeps_ret].
  destruct (spawner_seedFromGoal sp) as [seed|]; [|apply keeps_ret].
  apply keeps_bind; [apply keeps_self|]. intros b0.
  apply keeps_bind; [apply part_world_trace|]. intros tr.
  apply keeps_bind; [apply part_lift|]. intros seeds.
  apply keeps_bind; [apply keeps_for_each; apply part_push_birth|]. intros _.
  apply keeps_bind; [apply part_flushBirthQueue|]. intros _.
  apply keeps_on_self. intros. apply f_seeded.
Qed.

Lemma part_findSimilar_loop targetVector candidates :
  forall best, keeps f (findSimilar_loop llm_embed targetVector candidates best).
Proof.
  unfold findSimilar_loop.
  induction candidates as [|agent rest IH]; intros best; simpl.
  - apply keeps_ret.
  - apply keeps_bind; [apply part_embed|]. intros agentVector.
    destruct (gtb _ 0.75 && gtb _ (snd best)); apply IH.
Qed.

Lemma findSimilar_eq name :
  findSimilar llm_embed name
  = bind (in_world (embed llm_embed name))
         (fun targetVector =>
            bind self
                 (fun b =>
                    bind (findSimilar_loop llm_embed targetVector (listAgents b) (None, 0))
                         (fun best => ret (fst best)))).
Proof. reflexivity. Qed.

Lemma part_findSimilar name : keeps f (findSimilar llm_embed name).
Proof.
  rewrite findSimilar_eq.
  apply keeps_bind; [apply part_embed|]. intros targetVector.
  apply keeps_bind; [apply keeps_self|]. intros b0.
  apply keeps_bind; [apply part_findSimilar_loop|]. intros best. apply keeps_ret.
Qed.

Lemma part_detectSpawnIntent text : keeps f (detectSpawnIntent llm_embed text).
Proof.
  unfold detectSpawnIntent.
  apply keeps_bind; [apply part_embed|]. intros thoughtVector.
  induction spawnIntentAnchors as [|anchor rest IH]; simpl.
  - apply keeps_ret.
  - apply keeps_bind; [apply part_embed|]. intros anchorVector.
    destruct (gtb _ 0.75); [apply keeps_ret | apply IH].
Qed.

Lemma part_hasAgentType agentType : keeps f (hasAgentType llm_embed agentType).
Proof.
  unfold hasAgentType.
  apply keeps_bind; [apply part_embed|]. intros targetVector.
  apply keeps_bind; [apply keeps_self|]. intros b0.
  induction (listAgents b0) as [|agent rest IH]; simpl.
  - apply keeps_ret.
  - apply keeps_bind; [apply part_embed|]. intros agentVector.
    destruct (gtb _ 0.75); [apply keeps_ret | apply IH].
Qed.

Section WithPerceive.
Hypothesis quiet_perceive : forall agent signal, quiet (Perceive agent signal) = true.

Lemma part_perceive agent signal : keeps f (in_world (perceive agent signal)).
Proof.
  apply keeps_in_world. intros b w r w' H. unfold perceive in H.
  inversion H. apply f_event, quiet_perceive.
Qed.

Lemma part_handleSpawnRequest signal :
  keeps f (handleSpawnRequest llm_embed spawner signal).
Proof.
  unfold handleSpawnRequest.
  destruct spawner as [sp|]; [|apply keeps_ret].
  apply keeps_try_catch; [|intros e; apply keeps_ret].
  apply keeps_bind; [apply keeps_self|]. intros b0.
  apply keeps_bind; [apply part_world_trace|]. intros tr.
  apply keeps_bind; [apply part_lift|]. intros [spawned|]; [|apply keeps_ret].
  apply keeps_bind; [apply part_findSimilar|]. intros [existing|]; [apply keeps_ret|].
  apply keeps_bind; [apply part_birth|]. intros _.
  apply keeps_bind; [apply keeps_self|]. intros b1.
  apply keeps_bind; [apply part_notify|]. intros _.
  apply keeps_bind; [apply part_embed|]. intros distressVector.
  apply keeps_bind; [apply keeps_self|]. intros b2.
  apply keeps_for_each. intros signal0. apply part_perceive.
Qed.

End WithPerceive.

End Parts.

(** *** The three views *)

Lemma history_world {A} (m : M World A) : keeps history (in_world (S := Biosphere) m).
Proof. apply keeps_in_world. reflexivity. Qed.

Lemma trail_event e b w :
  negb (is_perceive e) = true -> trail (b, record_event e w) = trail (b, w).
Proof.
  intros Hq. unfold trail, history, delivered. simpl. f_equal.
  apply (deliveries_record_other e w). intros a s ->. discriminate.
Qed.

Ltac part_side :=
  first [ solve [intros; reflexivity]
        | solve [intros; apply trail_event; assumption] ].

Ltac history_part lemma :=
  first [ apply lemma with (quiet := fun _ => true) | apply lemma ]; part_side.

Ltac trail_part lemma :=
  first [ apply lemma with (quiet := fun e => negb (is_perceive e)) | apply lemma ];
  part_side.

Ltac coupling_part lemma :=
  first [ apply lemma with (quiet := fun _ => true) | apply lemma ]; part_side.

Section Engine.
Variable Date_now : nat -> number.
Variable generateId : nat -> string.
Variable llm_embed : list Event -> string -> option (list number).
Variable llm_chat : list Event -> list ChatMessage -> option string.
Variable spawner : option OrganicSpawner.
Variable parse_bridge_spec : string -> Outcome (option BridgeAgentSpec).
Variable trim : string -> string.
Variable environment_tick : list Event -> BiosphereState -> Outcome (list EnvironmentSignal).

(** *** Recording one signal *)

Lemma records_bind {A} text author (m : M (Biosphere * World) A)
      (k : A -> M (Biosphere * World) unit) :
  keeps trail m -> (forall a, records_one text author (k a)) ->
  records_one text author (bind m k).
Proof.
  intros Hm Hk s r s' H. apply bind_cases in H.
  destruct H as [(e & Hrun & ->) | (a & s1 & Hrun & Hrest)].
  - right. apply Hm in Hrun. unfold trail in Hrun. injection Hrun as Hh Hd.
    split; [exact Hh|]. split; [exact Hd|]. now exists e.
  - apply Hm in Hrun. unfold trail in Hrun. injection Hrun as Hh Hd.
    destruct (Hk a _ _ _ Hrest) as [(signal & Happ & Ht & Ha) | (Hsame & Hdel & e & ->)].
    + left. exists signal. rewrite <- Hh. auto.
    + right. rewrite <- Hh, <- Hd. split; [exact Hsame|]. split; [exact Hdel|].
      now exists e.
Qed.

Lemma records_created text author intent tags pheromone
      (rest : Signal -> M (Biosphere * World) unit) :
  (forall signal, keeps history (rest signal)) ->
  records_one text author
    (bind (in_world (SignalModule.createSignal Date_now generateId
                       text author intent tags pheromone))
          (fun signal =>
             bind (on_self (fun b => set_signalHistory (signalHistory b ++ [signal]) b))
                  (fun _ => rest signal))).
Proof.
  intros Hrest [b w] r s' H. left.
  unfold bind at 1 in H. unfold in_world, SignalModule.createSignal, now in H.
  simpl in H. unfold bind, on_self in H.
  match type of H with
  | rest ?sg ?s1 = _ => exists sg; rewrite (Hrest sg s1 r s' H)
  end.
  unfold history. simpl. auto.
Qed.

Lemma history_findSimilar name : keeps history (findSimilar llm_embed name).
Proof. history_part @part_findSimilar. Qed.

Lemma history_birth agent : keeps history (birth llm_embed agent).
Proof. history_part @part_birth. Qed.

Lemma history_detectSpawnIntent text : keeps history (detectSpawnIntent llm_embed text).
Proof. history_part @part_detectSpawnIntent. Qed.

Lemma history_handleSpawnRequest signal :
  keeps history (handleSpawnRequest llm_embed spawner signal).
Proof. history_part @part_handleSpawnRequest. Qed.

Lemma history_lift {A} (o : Outcome A) : keeps history (@lift_outcome A o).
Proof. intros s r s' H. unfold lift_outcome in H. now inversion H. Qed.

Lemma history_getOrCreateSynapse source receiver similarity :
  keeps history (getOrCreateSynapse source receiver similarity).
Proof.
  unfold getOrCreateSynapse.
  apply keeps_bind; [apply keeps_self|]. intros b0.
  destruct (JsMap.has _ (synapses b0)); [apply keeps_ret|].
  apply keeps_bind; [apply keeps_on_self; reflexivity|]. intros _. apply keeps_ret.
Qed.

Lemma history_transform_through key signal :
  keeps history (transform_through Date_now llm_chat key signal).
Proof.
  intros [b w] r s' H. unfold transform_through in H.
  destruct (JsMap.get key (synapses b)) as [synapse|]; [|now inversion H].
  destruct (Synapse.transform Date_now llm_chat signal (synapse, w)) as [r0 [synapse' w']].
  now inversion H.
Qed.

Lemma history_spawnBridgeAgent signal source target similarity :
  keeps history (spawnBridgeAgent llm_embed llm_chat spawner parse_bridge_spec
                                  signal source target similarity).
Proof.
  unfold spawnBridgeAgent.
  destruct spawner as [sp|]; [|apply keeps_ret].
  apply keeps_bind; [apply history_world|]. intros bridgeSpec.
  apply keeps_try_catch; [|intros e; apply keeps_ret].
  apply keeps_bind; [apply history_lift|]. intros [blueprint|]; [|apply keeps_ret].
  destruct (String.eqb (spec_id blueprint) EmptyString); [apply keeps_ret|].
  apply keeps_bind; [apply history_findSimilar|]. intros [existing|]; [apply keeps_ret|].
  apply keeps_bind.
  - destruct (spawner_spawnBridgeAgent sp) as [spawn|]; [|apply keeps_ret].
    apply keeps_bind; [apply keeps_self|]. intros b0.
    apply keeps_bind; [|intros tr; apply history_lift].
    intros [b1 w1] r s' H. unfold world_trace in H. now inversion H.
  - intros [bridge|]; [|apply keeps_ret].
    apply keeps_bind; [apply keeps_self|]. intros b0.
    destruct (JsMap.has (agent_id bridge) (agents b0)); [apply keeps_ret|].
    apply keeps_bind; [apply history_birth|]. intros _. apply history_world.
Qed.

Lemma history_propagateToReceiver signal source receiver :
  keeps history (propagateToReceiver Date_now llm_embed llm_chat spawner parse_bridge_spec
                                     signal source receiver).
Proof.
  unfold propagateToReceiver.
  apply keeps_bind; [apply keeps_self|]. intros b0.
  destruct (JsMap.get (agent_id receiver) (receptorFieldCache b0)) as [receiverVector|];
    [|apply keeps_ret].
  cbv zeta.
  destruct (gtb _ 0.8); [apply history_world|].
  destruct (gtb _ 0.5).
  { apply keeps_bind; [apply history_getOrCreateSynapse|]. intros key.
    apply keeps_bind; [apply history_transform_through|]. intros transformed.
    apply history_world. }
  destruct (gtb _ 0.3); [apply history_spawnBridgeAgent | apply keeps_ret].
Qed.

Lemma trail_flushBirthQueue : keeps trail flushBirthQueue.
Proof. trail_part @part_flushBirthQueue. Qed.

Lemma trail_seedFromGoal goal : keeps trail (seedFromGoal llm_embed spawner goal).
Proof. trail_part @part_seedFromGoal. Qed.

Lemma trail_embed text : keeps trail (in_world (S := Biosphere) (embed llm_embed text)).
Proof. trail_part @part_embed. Qed.

Lemma inject_records text sourceId :
  records_one text sourceId (inject Date_now generateId llm_embed spawner text sourceId).
Proof.
  unfold inject.
  apply records_bind; [apply trail_flushBirthQueue|]. intros _.
  apply records_bind; [apply keeps_self|]. intros b0.
  apply records_bind.
  { destruct (negb (seeded b0) && _); [apply trail_seedFromGoal | apply keeps_ret]. }
  intros _.
  apply records_bind; [apply trail_embed|]. intros pheromone.
  apply records_created. intros signal.
  apply keeps_bind; [apply keeps_self|]. intros b1.
  apply keeps_bind; [apply history_world|]. intros _.
  apply keeps_bind; [apply history_lift|]. intros resonant.
  apply keeps_bind; [apply history_world|]. intros _.
  apply keeps_for_each. intros receiver. apply history_world.
Qed.

Lemma propagate_records text source :
  records_one text (agent_id source)
              (propagate Date_now generateId llm_embed llm_chat spawner parse_bridge_spec
                         text source).
Proof.
  unfold propagate.
  apply records_bind; [apply trail_flushBirthQueue|]. intros _.
  apply records_bind; [apply trail_embed|]. intros pheromone.
  apply records_created. intros signal.
  apply keeps_bind; [apply keeps_self|]. intros b1.
  apply keeps_bind; [apply history_world|]. intros _.
  apply keeps_bind; [apply history_detectSpawnIntent|]. intros [|].
  - apply history_handleSpawnRequest.
  - apply keeps_bind; [apply keeps_self|]. intros b2.
    apply keeps_bind; [apply history_lift|]. intros receivers.
    apply keeps_bind; [apply history_world|]. intros _.
    apply keeps_for_each. intros receiver. apply history_propagateToReceiver.
Qed.

Lemma ingest_records signalInput :
  trim (env_thought signalInput) <> EmptyString ->
  records_one (trim (env_thought signalInput)) (environment_author signalInput)
              (ingestEnvironmentSignal Date_now generateId llm_embed spawner trim
                                       signalInput).
Proof.
  intros Hne. unfold ingestEnvironmentSignal. cbv zeta.
  apply String.eqb_neq in Hne. rewrite Hne.
  apply records_bind; [apply trail_flushBirthQueue|]. intros _.
  apply records_bind; [apply trail_embed|]. intros pheromone.
  apply records_created. intros signal.
  apply keeps_bind; [apply keeps_self|]. intros b1.
  apply keeps_bind; [apply history_world|]. intros _.
  apply keeps_bind; [apply history_detectSpawnIntent|]. intros [|].
  - apply history_handleSpawnRequest.
  - apply keeps_bind; [apply keeps_self|]. intros b2.
    apply keeps_bind; [apply history_lift|]. intros receivers.
    apply keeps_bind; [apply history_world|]. intros _.
    apply keeps_for_each. intros receiver. apply history_world.
Qed.

(** X21.  An injection records exactly one signal, with the injected
    thought and the given author, at the end of the history; when it
    records none, it has thrown before delivering anything. *)
Theorem inject_records_one_signal text sourceId b w :
  let run := inject Date_now generateId llm_embed spawner text sourceId (b, w) in
  (exists signal,
      signalHistory (fst (snd run)) = signalHistory b ++ [signal]
      /\ thought signal = text /\ emittedBy signal = sourceId)
  \/ (signalHistory (fst (snd run)) = signalHistory b
      /\ delivered (snd run) = delivered (b, w)
      /\ exists e, fst run = Thrown e).
Proof.
  intros run. subst run.
  destruct (inject Date_now generateId llm_embed spawner text sourceId (b, w))
    as [r s'] eqn:Hrun.
  exact (inject_records text sourceId _ _ _ Hrun).
Qed.

(** X22.  A thought emitted by an agent is recorded once, under the id
    of that agent, whether it is then routed, coupled through a synapse,
    bridged or taken as a request to spawn; when it is not recorded,
    [propagate] has thrown before delivering anything. *)
Theorem propagate_records_one_signal text source b w :
  let run := propagate Date_now generateId llm_embed llm_chat spawner parse_bridge_spec
                       text source (b, w) in
  (exists signal,
      signalHistory (fst (snd run)) = signalHistory b ++ [signal]
      /\ thought signal = text /\ emittedBy signal = agent_id source)
  \/ (signalHistory (fst (snd run)) = signalHistory b
      /\ delivered (snd run) = delivered (b, w)
      /\ exists e, fst run = Thrown e).
Proof.
  intros run. subst run.
  destruct (propagate Date_now generateId llm_embed llm_chat spawner parse_bridge_spec
                      text source (b, w)) as [r s'] eqn:Hrun.
  exact (propagate_records text source _ _ _ Hrun).
Qed.

(** *** Spawning a helper *)

Lemma delivers_of_keeps {A} P (m : M (Biosphere * World) A) :
  (forall h, P h []) -> keeps trail m -> delivers P m.
Proof.
  intros Hnil Hk s r s' H. apply Hk in H. unfold trail in H. injection H as Hh Hd.
  split; [exact Hh|]. exists []. rewrite app_nil_r. auto.
Qed.

Lemma delivers_bind {A B} P (m : M (Biosphere * World) A)
      (k : A -> M (Biosphere * World) B) :
  (forall h, P h []) -> keeps trail m -> (forall a, delivers P (k a)) ->
  delivers P (bind m k).
Proof.
  intros Hnil Hm Hk s r s' H. apply bind_cases in H.
  destruct H as [(e & Hrun & ->) | (a & s1 & Hrun & Hrest)].
  - exact (delivers_of_keeps P m Hnil Hm _ _ _ Hrun).
  - apply Hm in Hrun. unfold trail in Hrun. injection Hrun as Hh Hd.
    destruct (Hk a _ _ _ Hrest) as (Hsame & extra & Hext & HP).
    rewrite <- Hh, <- Hd. split; [exact Hsame|]. now exists extra.
Qed.

Lemma delivers_try_catch {A} P (body : M (Biosphere * World) A) (a0 : A) :
  delivers P body -> delivers P (try_catch body (fun _ => ret a0)).
Proof.
  intros Hb s r s' H. unfold try_catch in H.
  destruct (body s) as [[a|e] s1] eqn:E.
  - inversion H. subst. exact (Hb _ _ _ E).
  - unfold ret in H. inversion H. subst. exact (Hb _ _ _ E).
Qed.

Lemma for_each_perceive_signals agent signals b w :
  for_each signals (fun signal => in_world (S := Biosphere) (perceive agent signal)) (b, w)
  = (Returned tt,
     (b, mkWorld (trace w ++ map (Perceive agent) signals) (clockReads w))).
Proof.
  revert w. induction signals as [|sg l IH]; intros w; simpl.
  - unfold ret. rewrite app_nil_r. now destruct w.
  - unfold bind, in_world, perceive. rewrite IH.
    unfold record_event. simpl. now rewrite <- app_assoc.
Qed.

Lemma deliveries_perceive_signals agent signals :
  deliveries (map (Perceive agent) signals) = map (pair agent) signals.
Proof. induction signals as [|sg l IH]; simpl; congruence. Qed.

Lemma length_slice_last {A} (l : list A) (n : Z) :
  (0 < n)%Z -> (length (JsArray.slice l (- n)%Z None) <= Z.to_nat n)%nat.
Proof.
  intros Hn. unfold JsArray.slice, JsArray.relative_index. cbv zeta.
  destruct (Z.ltb_spec (- n) 0)%Z; [|lia].
  rewrite length_firstn, length_skipn. lia.
Qed.

Lemma delivers_recent spawned (select : Biosphere -> list Signal) :
  (forall b, (length (select b) <= 3)%nat
             /\ forall signal, In signal (select b) -> In signal (signalHistory b)) ->
  delivers few_from_history
           (bind self
                 (fun b => for_each (select b)
                                    (fun signal => in_world (perceive spawned signal)))).
Proof.
  intros Hsel [b w] r s' H. unfold bind, self in H.
  rewrite for_each_perceive_signals in H. inversion H. subst. clear H.
  split; [reflexivity|].
  exists (map (pair spawned) (select b)).
  unfold delivered. simpl. rewrite deliveries_app, deliveries_perceive_signals.
  split; [reflexivity|]. destruct (Hsel b) as [Hlen Hin].
  split; [now rewrite length_map|].
  intros agent signal Hmem. apply in_map_iff in Hmem.
  destruct Hmem as (sg & Heq & Hsg). injection Heq as _ <-. now apply Hin.
Qed.

Lemma few_nothing h : few_from_history h [].
Proof. split; [simpl; lia | intros agent signal []]. Qed.

Lemma handleSpawnRequest_delivers signal :
  delivers few_from_history (handleSpawnRequest llm_embed spawner signal).
Proof.
  unfold handleSpawnRequest.
  destruct spawner as [sp|]; [|apply delivers_of_keeps; [apply few_nothing | apply keeps_ret]].
  apply delivers_try_catch.
  apply delivers_bind; [apply few_nothing | apply keeps_self |]. intros b0.
  apply delivers_bind; [apply few_nothing | trail_part @part_world_trace |]. intros tr.
  apply delivers_bind; [apply few_nothing | trail_part @part_lift |].
  intros [spawned|]; [|apply delivers_of_keeps; [apply few_nothing | apply keeps_ret]].
  apply delivers_bind; [apply few_nothing | trail_part @part_findSimilar |].
  intros [existing|]; [apply delivers_of_keeps; [apply few_nothing | apply keeps_ret]|].
  apply delivers_bind; [apply few_nothing | trail_part @part_birth |]. intros _.
  apply delivers_bind; [apply few_nothing | apply keeps_self |]. intros b1.
  apply delivers_bind; [apply few_nothing | trail_part @part_notify |]. intros _.
  apply delivers_bind; [apply few_nothing | apply trail_embed |]. intros distressVector.
  apply (delivers_recent spawned
           (fun b => JsArray.slice
                       (filter (fun s => gtb (SemanticUtils.cosineSimilarity
                                                (pheromone s) distressVector) 0.7)
                               (signalHistory b))
                       (- 3)%Z None)).
  intros b. split.
  - apply (length_slice_last _ 3%Z). lia.
  - intros sg Hin. apply RouterLaws.In_slice in Hin. apply filter_In in Hin. tauto.
Qed.

Lemma handleSpawnRequest_returns signal s :
  fst (handleSpawnRequest llm_embed spawner signal s) = Returned tt.
Proof.
  unfold handleSpawnRequest.
  destruct spawner as [sp|]; [|reflexivity].
  unfold try_catch.
  match goal with
  | |- fst (match ?body with _ => _ end) = _ => destruct body as [[[]|e] s1]
  end; reflexivity.
Qed.

Lemma coupling_handleSpawnRequest signal :
  keeps coupling (handleSpawnRequest llm_embed spawner signal).
Proof. coupling_part @part_handleSpawnRequest. Qed.

(** X23.  A request to spawn never throws, whatever the spawner and the
    backend do; it records no signal and touches no synapse; and what it
    delivers is at most three signals, each of them a signal of the
    history. *)
Theorem handleSpawnRequest_contained distressSignal b w :
  let run := handleSpawnRequest llm_embed spawner distressSignal (b, w) in
  fst run = Returned tt
  /\ signalHistory (fst (snd run)) = signalHistory b
  /\ synapses (fst (snd run)) = synapses b
  /\ exists extra,
      delivered (snd run) = delivered (b, w) ++ extra
      /\ (length extra <= 3)%nat
      /\ forall agent signal, In (agent, signal) extra -> In signal (signalHistory b).
Proof.
  intros run. subst run.
  split; [apply handleSpawnRequest_returns|].
  destruct (handleSpawnRequest llm_embed spawner distressSignal (b, w))
    as [r s'] eqn:Hrun.
  pose proof (coupling_handleSpawnRequest _ _ _ _ Hrun) as Hsyn.
  destruct (handleSpawnRequest_delivers _ _ _ _ Hrun) as (Hh & extra & Hext & Hlen & Hin).
  split; [exact Hh|]. split; [exact Hsyn|].
  exists extra. auto.
Qed.

(** *** Signals of the environment *)

Lemma coupling_ingest signalInput :
  keeps coupling (ingestEnvironmentSignal Date_now generateId llm_embed spawner trim
                                          signalInput).
Proof.
  unfold ingestEnvironmentSignal. cbv zeta.
  destruct (String.eqb _ EmptyString); [apply keeps_ret|].
  apply keeps_bind; [coupling_part @part_flushBirthQueue|]. intros _.
  apply keeps_bind; [coupling_part @part_embed|]. intros pheromone.
  apply keeps_bind; [coupling_part @part_createSignal|]. intros signal.
  apply keeps_bind; [apply keeps_on_self; reflexivity|]. intros _.
  apply keeps_bind; [apply keeps_self|]. intros b1.
  apply keeps_bind; [coupling_part @part_notify|]. intros _.
  apply keeps_bind; [coupling_part @part_detectSpawnIntent|]. intros [|].
  - apply coupling_handleSpawnRequest.
  - apply keeps_bind; [apply keeps_self|]. intros b2.
    apply keeps_bind; [coupling_part @part_lift|]. intros receivers.
    apply keeps_bind; [coupling_part @part_notify|]. intros _.
    apply keeps_for_each. intros receiver. coupling_part @part_perceive.
Qed.

Lemma ingest_appends signalInput s r s' :
  ingestEnvironmentSignal Date_now generateId llm_embed spawner trim signalInput s = (r, s') ->
  exists added, history s' = history s ++ added /\ (length added <= 1)%nat.
Proof.
  destruct (String.eqb_spec (trim (env_thought signalInput)) EmptyString) as [Heq|Hne].
  - unfold ingestEnvironmentSignal. cbv zeta. rewrite Heq. simpl.
    unfold ret. intros H. inversion H. exists []. rewrite app_nil_r. auto.
  - intros H. destruct (ingest_records signalInput Hne _ _ _ H)
      as [(signal & Happ & _) | (Hsame & _)].
    + exists [signal]. auto.
    + exists []. rewrite app_nil_r. auto.
Qed.

Lemma for_each_ingest_appends signals :
  forall s r s',
    for_each signals (ingestEnvironmentSignal Date_now generateId llm_embed spawner trim) s
    = (r, s') ->
    exists added, history s' = history s ++ added /\ (length added <= length signals)%nat.
Proof.
  induction signals as [|signalInput rest IH]; intros s r s' H; simpl in H.
  - unfold ret in H. inversion H. exists []. rewrite app_nil_r. auto.
  - apply bind_cases in H.
    destruct H as [(e & Hrun & ->) | (a & s1 & Hrun & Hrest)].
    + apply ingest_appends in Hrun. destruct Hrun as (added & Happ & Hlen).
      exists added. split; [exact Happ|]. simpl. lia.
    + apply ingest_appends in Hrun. destruct Hrun as (added & Happ & Hlen).
      apply IH in Hrest. destruct Hrest as (more & Hmore & Hlen').
      exists (added ++ more). rewrite Hmore, Happ, <- app_assoc.
      split; [reflexivity|]. rewrite length_app. simpl. lia.
Qed.

(** X24.  A signal of the environment is ingested without synaptic
    coupling: no synapse is created or changed.  A thought that is
    blank after trimming is dropped before anything happens; any other
    thought is recorded once, trimmed, under the given author or
    "environment", unless the ingestion throws before it records, and
    then it has delivered nothing either. *)
Theorem ingestEnvironmentSignal_uncoupled signalInput b w :
  let run := ingestEnvironmentSignal Date_now generateId llm_embed spawner trim
                                     signalInput (b, w) in
  synapses (fst (snd run)) = synapses b
  /\ (trim (env_thought signalInput) = EmptyString -> run = (Returned tt, (b, w)))
  /\ (trim (env_thought signalInput) <> EmptyString ->
      (exists signal,
          signalHistory (fst (snd run)) = signalHistory b ++ [signal]
          /\ thought signal = trim (env_thought signalInput)
          /\ emittedBy signal = environment_author signalInput)
      \/ (signalHistory (fst (snd run)) = signalHistory b
          /\ delivered (snd run) = delivered (b, w)
          /\ exists e, fst run = Thrown e)).
Proof.
  intros run. subst run.
  destruct (ingestEnvironmentSignal Date_now generateId llm_embed spawner trim
                                    signalInput (b, w)) as [r s'] eqn:Hrun.
  pose proof (coupling_ingest _ _ _ _ Hrun) as Hsyn.
  split; [exact Hsyn|]. split.
  - intros Hblank. rewrite <- Hrun.
    unfold ingestEnvironmentSignal. cbv zeta. now rewrite Hblank.
  - intros Hne. exact (ingest_records signalInput Hne _ _ _ Hrun).
Qed.

(** X25.  The signals of one tick of the environment: a tick that
    throws changes nothing and is not reported; otherwise the history
    grows by at most one signal for each signal of the environment, and
    in all of it no synapse is touched. *)
Theorem emitEnvironmentSignals_contained b w :
  let run := emitEnvironmentSignals Date_now generateId llm_embed spawner trim
                                    environment_tick (b, w) in
  synapses (fst (snd run)) = synapses b
  /\ (forall e, environment_tick (trace w) (getState None b) = Thrown e ->
                run = (Returned tt, (b, w)))
  /\ (forall signals, environment_tick (trace w) (getState None b) = Returned signals ->
        exists added,
          signalHistory (fst (snd run)) = signalHistory b ++ added
          /\ (length added <= length signals)%nat).
Proof.
  intros run. subst run.
  unfold emitEnvironmentSignals, bind, self, world_trace. cbv zeta.
  destruct (environment_tick (trace w) (getState None b)) as [signals|e0] eqn:Htick.
  - destruct (for_each signals _ (b, w)) as [r s'] eqn:Hrun.
    pose proof (keeps_for_each coupling signals _ coupling_ingest _ _ _ Hrun) as Hsyn.
    split; [exact Hsyn|]. split; [discriminate|].
    intros signals' Heq. injection Heq as <-.
    exact (for_each_ingest_appends signals _ _ _ Hrun).
  - unfold ret. simpl. split; [reflexivity|].
    split; [reflexivity | discriminate].
Qed.

(** *** Quorum sensing *)

Section AnsweringBackend.
Hypothesis embed_answers : forall tr text, exists vector, llm_embed tr text = Some vector.

Lemma embed_run text (b : Biosphere) w :
  exists vector,
    in_world (embed llm_embed text) (b, w)
    = (Returned vector, (b, record_event (EmbedCall text) w)).
Proof.
  destruct (embed_answers (trace w) text) as [vector Hv].
  exists vector. unfold in_world, embed. now rewrite Hv.
Qed.

Lemma findSimilar_loop_cons targetVector agent rest best :
  findSimilar_loop llm_embed targetVector (agent :: rest) best
  = bind (in_world (embed llm_embed (agentDescription agent)))
         (fun agentVector =>
            let similarity := SemanticUtils.cosineSimilarity targetVector agentVector in
            if gtb similarity 0.75 && gtb similarity (snd best)
            then findSimilar_loop llm_embed targetVector rest (Some agent, similarity)
            else findSimilar_loop llm_embed targetVector rest best).
Proof. reflexivity. Qed.

Lemma findSimilar_loop_found targetVector candidates :
  forall agent similarity b w,
    exists res s1 chosen,
      findSimilar_loop llm_embed targetVector candidates (Some agent, similarity) (b, w)
      = (Returned res, s1)
      /\ fst res = Some chosen
      /\ (chosen = agent \/ In chosen candidates).
Proof.
  induction candidates as [|candidate rest IH]; intros agent similarity b w.
  - exists (Some agent, similarity), (b, w), agent. auto.
  - rewrite findSimilar_loop_cons.
    destruct (embed_run (agentDescription candidate) b w) as [agentVector Hrun].
    rewrite (bind_step _ _ _ _ _ Hrun). cbv zeta.
    match goal with
    | |- context [if ?c then _ else _] => destruct c
    end.
    + destruct (IH candidate (SemanticUtils.cosineSimilarity targetVector agentVector)
                   b (record_event (EmbedCall (agentDescription candidate)) w))
        as (res & s1 & chosen & Hloop & Hres & Hin).
      exists res, s1, chosen. split; [exact Hloop|]. split; [exact Hres|].
      right. destruct Hin as [->|Hin]; [now left | now right].
    + destruct (IH agent similarity
                   b (record_event (EmbedCall (agentDescription candidate)) w))
        as (res & s1 & chosen & Hloop & Hres & Hin).
      exists res, s1, chosen. split; [exact Hloop|]. split; [exact Hres|].
      destruct Hin as [->|Hin]; [now left | right; now right].
Qed.

Lemma loops_agree targetVector candidates :
  forall floor b w,
    floor <= 0.75 ->
    exists res found s1 s2,
      findSimilar_loop llm_embed targetVector candidates (None, floor) (b, w)
      = (Returned res, s1)
      /\ hasAgentType_loop llm_embed targetVector candidates (b, w) = (Returned found, s2)
      /\ (found = true <-> exists agent, fst res = Some agent)
      /\ (forall agent, fst res = Some agent -> In agent candidates).
Proof.
  induction candidates as [|candidate rest IH]; intros floor b w Hfloor.
  - exists (None, floor), false, (b, w), (b, w).
    split; [reflexivity|]. split; [reflexivity|]. split.
    + split; [discriminate | intros [agent H]; discriminate].
    + intros agent H. discriminate.
  - rewrite findSimilar_loop_cons. cbn [hasAgentType_loop].
    destruct (embed_run (agentDescription candidate) b w) as [agentVector Hrun].
    rewrite !(bind_step _ _ _ _ _ Hrun). cbv zeta. cbn [snd].
    destruct (gtb (SemanticUtils.cosineSimilarity targetVector agentVector) 0.75) eqn:Hgt.
    + assert (Hbest : gtb (SemanticUtils.cosineSimilarity targetVector agentVector) floor
                      = true).
      { apply gtb_true. apply gtb_true in Hgt. lra. }
      rewrite Hbest. cbn [andb].
      destruct (findSimilar_loop_found targetVector rest candidate
                  (SemanticUtils.cosineSimilarity targetVector agentVector)
                  b (record_event (EmbedCall (agentDescription candidate)) w))
        as (res & s1 & chosen & Hloop & Hres & Hin).
      exists res, true, s1, (b, record_event (EmbedCall (agentDescription candidate)) w).
      split; [exact Hloop|]. split; [reflexivity|]. split.
      * split; [intros _; now exists chosen | reflexivity].
      * intros agent Hagent. rewrite Hres in Hagent. injection Hagent as <-.
        destruct Hin as [->|Hin]; [now left | now right].
    + cbn [andb].
      destruct (IH floor b (record_event (EmbedCall (agentDescription candidate)) w) Hfloor)
        as (res & found & s1 & s2 & Hloop & Htype & Hiff & Hin).
      exists res, found, s1, s2.
      split; [exact Hloop|]. split; [exact Htype|]. split; [exact Hiff|].
      intros agent Hagent. right. now apply Hin.
Qed.

(** X26.  With a backend that answers every request for an embedding,
    [hasAgentType] and [findSimilar] agree: the first reports an agent
    of the type exactly when the second finds an agent, and the agent
    found is a registered one. *)
Theorem hasAgentType_agrees_with_findSimilar name b w :
  exists found similar s1 s2,
    hasAgentType llm_embed name (b, w) = (Returned found, s1)
    /\ findSimilar llm_embed name (b, w) = (Returned similar, s2)
    /\ (found = true <-> exists agent, similar = Some agent)
    /\ (forall agent, similar = Some agent -> In agent (listAgents b)).
Proof.
  rewrite findSimilar_eq. unfold hasAgentType.
  destruct (embed_run name b w) as [targetVector Hrun].
  rewrite !(bind_step _ _ _ _ _ Hrun).
  unfold bind at 1. unfold self at 1.
  unfold bind at 2. unfold self at 1.
  destruct (loops_agree targetVector (listAgents b) 0 b (record_event (EmbedCall name) w))
    as (res & found & s1 & s2 & Hloop & Htype & Hiff & Hin); [lra|].
  exists found, (fst res), s2, s1.
  split; [exact Htype|]. split.
  - unfold bind. rewrite Hloop. reflexivity.
  - split; [exact Hiff | exact Hin].
Qed.

End AnsweringBackend.

End Engine.

Lemma hasAgentType_agrees_with_findSimilar_witness :
  exists found similar s1 s2,
    hasAgentType (embed_fixed [1; 0]) "Risk Analyst" (two_agents, initial_world)
    = (Returned found, s1)
    /\ findSimilar (embed_fixed [1; 0]) "Risk Analyst" (two_agents, initial_world)
       = (Returned similar, s2)
    /\ (found = true <-> exists agent, similar = Some agent)
    /\ (forall agent, similar = Some agent -> In agent (listAgents two_agents)).
Proof.
  exact (hasAgentType_agrees_with_findSimilar (embed_fixed [1; 0])
           (EquilibriumFacts.fixed_embed_answers [1; 0])
           "Risk Analyst" two_agents initial_world).
Defined.

End PropagationFacts.

(** ** Agents from the inside *)

Module AgentFacts.
Import AgentBody.

Section Agent.
Variable toISOString : number -> Outcome string.
Variable llm_chat : list Event -> list ChatMessage -> option string.
Variable config : OrganicAgentConfig.

(** X27.  An agent without an [emit] of its own speaks only when it
    has perceived something since it last spoke: an emission yields at
    most one thought; with the watermark at the length of the context
    it yields nothing and leaves the agent and the world as they are;
    and right after an emission that did not fail, the next one is
    silent in that way. *)
Theorem emit_reacts_to_change signal later m w :
  config_emit config = None ->
  let first := emit llm_chat config signal (m, w) in
  (length (yielded (fst first)) <= 1)%nat
  /\ (lastEmitContextLength m = JsArray.len (context m) ->
      first = (mkEmission [] None, (m, w)))
  /\ (failure (fst first) = None ->
      emit llm_chat config later (snd first) = (mkEmission [] None, snd first)).
Proof.
  intros Hplain. unfold emit. rewrite Hplain. cbv zeta.
  destruct ((JsArray.len (context m) =? 0)%Z
            || (JsArray.len (context m) - lastEmitContextLength m =? 0)%Z) eqn:Hguard.
  - simpl. split; [lia|]. split; [reflexivity|]. intros _. now rewrite Hguard.
  - destruct (chat llm_chat _ w) as [[reply|e] w'] eqn:Hchat; simpl.
    + split; [lia|]. split.
      * intros Hmark. rewrite Hmark, Z.sub_diag, Z.eqb_refl, orb_true_r in Hguard.
        discriminate.
      * intros _. now rewrite Z.sub_diag, Z.eqb_refl, orb_true_r.
    + split; [lia|]. split; [|discriminate].
      intros Hmark. rewrite Hmark, Z.sub_diag, Z.eqb_refl, orb_true_r in Hguard.
      discriminate.
Qed.

(** X28.  A perceived signal adds one entry to the context, which is
    never trimmed, and wakes the agent: the next emission asks the
    backend once, with the system prompt and the whole context, the
    new entry last. *)
Theorem perceive_wakes_agent signal m w m1 w1 :
  config_emit config = None ->
  (0 <= lastEmitContextLength m <= JsArray.len (context m))%Z ->
  perceive toISOString signal (m, w) = (Returned tt, (m1, w1)) ->
  exists contextEntry,
    context m1 = context m ++ [contextEntry]
    /\ lastPerceivedSignal m1 = Some signal
    /\ lastEmitContextLength m1 = lastEmitContextLength m
    /\ w1 = w
    /\ trace (snd (snd (emit llm_chat config None (m1, w1))))
       = trace w ++ [ChatCall (emit_messages (systemPrompt config)
                                             (context m ++ [contextEntry]))].
Proof.
  intros Hplain Hmark. unfold perceive, bind, on_self.
  destruct (toISOString (timestamp signal)) as [iso|e]; [|discriminate].
  intros H. injection H as Hm Hw. subst m1 w1.
  eexists. cbn [push_context set_lastPerceivedSignal context lastPerceivedSignal
                lastEmitContextLength].
  split; [reflexivity|]. split; [reflexivity|]. split; [reflexivity|].
  split; [reflexivity|].
  unfold emit. rewrite Hplain. cbv zeta.
  cbn [push_context set_lastPerceivedSignal context lastPerceivedSignal
       lastEmitContextLength].
  match goal with
  | |- context [JsArray.len (context m ++ [?entry])] =>
      assert (Hlen : JsArray.len (context m ++ [entry]) = (JsArray.len (context m) + 1)%Z)
        by (unfold JsArray.len; rewrite length_app; simpl; lia)
  end.
  rewrite Hlen.
  assert (Hpos : (0 <= JsArray.len (context m))%Z) by (unfold JsArray.len; lia).
  destruct (Z.eqb_spec (JsArray.len (context m) + 1) 0); [lia|].
  destruct (Z.eqb_spec (JsArray.len (context m) + 1 - lastEmitContextLength m) 0); [lia|].
  cbn [orb]. unfold chat.
  destruct (llm_chat (trace w) _); reflexivity.
Qed.

End Agent.

Lemma emit_reacts_to_change_witness :
  let first := emit (chat_fixed "Ship on Friday") plain_config None
                    (mkMemory ["[Signal from cto at noon]: The build is green"] 0 None,
                     initial_world) in
  (length (yielded (fst first)) <= 1)%nat
  /\ (lastEmitContextLength (mkMemory ["[Signal from cto at noon]: The build is green"] 0 None)
      = JsArray.len (context (mkMemory ["[Signal from cto at noon]: The build is green"] 0 None)) ->
      first = (mkEmission [] None,
               (mkMemory ["[Signal from cto at noon]: The build is green"] 0 None,
                initial_world)))
  /\ (failure (fst first) = None ->
      emit (chat_fixed "Ship on Friday") plain_config None (snd first)
      = (mkEmission [] None, snd first)).
Proof.
  apply (emit_reacts_to_change (chat_fixed "Ship on Friday") plain_config None None).
  reflexivity.
Defined.

Lemma perceive_wakes_agent_witness :
  exists m1 w1 contextEntry,
    perceive iso_fixed (Router.signal_with [1; 0]) (new_memory, initial_world)
    = (Returned tt, (m1, w1))
    /\ context m1 = context new_memory ++ [contextEntry]
    /\ lastPerceivedSignal m1 = Some (Router.signal_with [1; 0])
    /\ lastEmitContextLength m1 = lastEmitContextLength new_memory
    /\ w1 = initial_world
    /\ trace (snd (snd (emit (chat_fixed "Ship on Friday") plain_config None (m1, w1))))
       = trace initial_world
         ++ [ChatCall (emit_messages (systemPrompt plain_config)
                                     (context new_memory ++ [contextEntry]))].
Proof.
  eexists _, _.
  assert (Hrun : perceive iso_fixed (Router.signal_with [1; 0]) (new_memory, initial_world)
                 = (Returned tt,
                    (set_lastPerceivedSignal (Some (Router.signal_with [1; 0]))
                       (push_context
                          ("[Signal from " ++ emittedBy (Router.signal_with [1; 0])
                             ++ " at " ++ "2025-01-01T00:00:00.000Z" ++ "]:"
                             ++ newline ++ thought (Router.signal_with [1; 0]))%string
                          new_memory),
                     initial_world))) by reflexivity.
  destruct (perceive_wakes_agent iso_fixed (chat_fixed "Ship on Friday") plain_config
              (Router.signal_with [1; 0]) new_memory initial_world _ _
              eq_refl ltac:(unfold JsArray.len; simpl; lia) Hrun) as (contextEntry & H).
  exists contextEntry. split; [exact Hrun | exact H].
Defined.

End AgentFacts.

Module MetaObserverFacts.
Import MetaObserver.

Section Observer.
Variable llm_embed : list Event -> string -> option (list number).
Variable llm_chat : list Event -> list ChatMessage -> option string.
Variable trim : string -> string.

(** X30.  An emission of the observer yields at most one thought, and
    that thought is the suggestion to spawn a helper for the author of
    the latest distress signal, written around the reply of the backend
    to the request for an analysis of that signal; with an empty buffer
    it does nothing at all; when it completes the buffer is empty, and
    when the backend fails the memory of the observer is as it was. *)
Theorem observer_emit_clears m w :
  let run := emit llm_embed llm_chat trim (m, w) in
  (length (yielded (fst run)) <= 1)%nat
  /\ (forall thought, In thought (yielded (fst run)) ->
        exists latestDistress analysis,
          nth_error (distressSignals m) (length (distressSignals m) - 1)
          = Some latestDistress
          /\ llm_chat (trace w) (analysis_messages latestDistress) = Some analysis
          /\ thought = spawn_suggestion latestDistress analysis)
  /\ (distressSignals m = [] -> run = (mkEmission [] None, (m, w)))
  /\ (failure (fst run) = None -> distressSignals (fst (snd run)) = [])
  /\ (forall e, failure (fst run) = Some e -> fst (snd run) = m).
Proof.
  unfold emit. cbv zeta.
  destruct (JsArray.len (distressSignals m) =? 0)%Z eqn:Hempty.
  { simpl. split; [lia|]. split; [intros thought []|]. split; [reflexivity|].
    split; [|discriminate].
    intros _. apply Z.eqb_eq in Hempty. unfold JsArray.len in Hempty.
    apply length_zero_iff_nil. lia. }
  assert (Hne : distressSignals m <> []).
  { intros Hnil. rewrite Hnil in Hempty. discriminate. }
  destruct (nth_error _ _) as [latestDistress|] eqn:Hlatest.
  2:{ simpl. split; [lia|]. split; [intros thought []|]. split; [reflexivity|].
      split; [|discriminate].
      intros _. apply nth_error_None in Hlatest.
      destruct (distressSignals m); [reflexivity | simpl in Hlatest; lia]. }
  unfold chat.
  destruct (llm_chat (trace w) (analysis_messages latestDistress)) as [analysis|] eqn:Hreply.
  2:{ simpl. split; [lia|]. split; [intros thought []|]. split; [contradiction|].
      split; [discriminate | reflexivity]. }
  destruct (embed llm_embed _ _) as [[responseVector|e] w2].
  2:{ simpl. split; [lia|]. split; [intros thought []|]. split; [contradiction|].
      split; [discriminate | reflexivity]. }
  destruct (embed llm_embed _ w2) as [[noDistressVector|e] w3].
  2:{ simpl. split; [lia|]. split; [intros thought []|]. split; [contradiction|].
      split; [discriminate | reflexivity]. }
  destruct (gtb _ 0.8); simpl.
  - split; [lia|]. split; [intros thought []|]. split; [contradiction|].
    split; [reflexivity | discriminate].
  - split; [lia|]. split.
    + intros thought [<-|[]]. now exists latestDistress, analysis.
    + split; [contradiction|]. split; [reflexivity | discriminate].
Qed.

End Observer.

End MetaObserverFacts.

(** ** The coupling tiers in double precision *)

Module DoublesFacts.
Import PrimFloat.
Import Doubles.
Local Open Scope float_scope.

(** *** Comparisons of doubles *)

(** Above a threshold is above every smaller one.  The thresholds are
    positive doubles given by mantissa and exponent. *)
Lemma gtb_above (lo hi : double) mlo elo mhi ehi :
  FloatOps.Prim2SF lo = SpecFloat.S754_finite false mlo elo ->
  FloatOps.Prim2SF hi = SpecFloat.S754_finite false mhi ehi ->
  (elo < ehi \/ (elo = ehi /\ (mlo <= mhi)%positive))%Z ->
  forall s, gtb s hi = true -> gtb s lo = true.
Proof.
  intros Hlo Hhi Hle s. unfold gtb.
  rewrite !FloatAxioms.ltb_spec, Hlo, Hhi.
  unfold SpecFloat.SFltb, SpecFloat.SFcompare.
  destruct (FloatOps.Prim2SF s) as [sg|sg| |sg m e]; try (intros H; exact H).
  destruct sg; [intros H; exact H|].
  destruct (Z.compare_spec ehi e) as [Hh|Hh|Hh]; [| |discriminate];
    destruct (Z.compare_spec elo e) as [Hl|Hl|Hl]; try lia; try reflexivity.
  change (PosDef.Pos.compare_cont Eq mhi m) with (Pos.compare mhi m).
  change (PosDef.Pos.compare_cont Eq mlo m) with (Pos.compare mlo m).
  destruct (Pos.compare_spec mhi m) as [He|He|He]; try discriminate.
  intros _.
  assert (Hlt : (mlo < m)%positive) by lia.
  apply Pos.compare_lt_iff in Hlt. now rewrite Hlt.
Qed.

Lemma above_08_above_05 s : gtb s 0.8 = true -> gtb s 0.5 = true.
Proof.
  apply (gtb_above 0.5 0.8 4503599627370496 (-53) 7205759403792794 (-53));
    [reflexivity | reflexivity | right; split; [reflexivity | lia]].
Qed.

Lemma above_05_above_03 s : gtb s 0.5 = true -> gtb s 0.3 = true.
Proof.
  apply (gtb_above 0.3 0.5 5404319552844595 (-54) 4503599627370496 (-53));
    [reflexivity | reflexivity | left; lia].
Qed.

Lemma below_05_below_08 s : gtb s 0.5 = false -> gtb s 0.8 = false.
Proof.
  intros H. destruct (gtb s 0.8) eqn:E; [|reflexivity].
  apply above_08_above_05 in E. congruence.
Qed.

Lemma below_03_below_05 s : gtb s 0.3 = false -> gtb s 0.5 = false.
Proof.
  intros H. destruct (gtb s 0.5) eqn:E; [|reflexivity].
  apply above_05_above_03 in E. congruence.
Qed.

(** *** Rounding at the thresholds *)

(** Vectors whose similarity is the double 0.8, 0.5 and 0.3. *)
Example similarity_is_08 : cosineSimilarity [4; 3] [1; 0] = 0.8.
Proof. vm_compute. reflexivity. Qed.

Example similarity_is_05 : cosineSimilarity [1; 1; 1; 1] [1; 0; 0; 0] = 0.5.
Proof. vm_compute. reflexivity. Qed.

Example similarity_is_03 : cosineSimilarity [3; 4; 5; 5; 5] [1; 0; 0; 0; 0] = 0.3.
Proof. vm_compute. reflexivity. Qed.

(** Vectors at an angle whose cosine is 4/5 and 1/2, but whose computed
    similarity is one unit in the last place above the threshold: in
    the program they fall in the stronger tier. *)
Example similarity_rounds_above_08 :
  cosineSimilarity [8; -1] [7; 4] = 0x1.999999999999bp-1
  /\ gtb (cosineSimilarity [8; -1] [7; 4]) 0.8 = true.
Proof. split; vm_compute; reflexivity. Qed.

Example similarity_rounds_above_05 :
  cosineSimilarity [0; 3; 3] [3; 0; 3] = 0x1.0000000000001p-1
  /\ gtb (cosineSimilarity [0; 3; 3] [3; 0; 3]) 0.5 = true.
Proof. split; vm_compute; reflexivity. Qed.

(** *** Deliveries *)

Lemma deliveries_app64 tr1 tr2 :
  deliveries (tr1 ++ tr2) = deliveries tr1 ++ deliveries tr2.
Proof.
  induction tr1 as [|e tr1 IH]; simpl; [reflexivity|].
  destruct e; simpl; now rewrite IH.
Qed.

Lemma deliveries_calls calls : deliveries (map call_event calls) = [].
Proof. induction calls as [|[text|messages] calls IH]; simpl; exact IH || reflexivity. Qed.

Lemma delivered_event {S} (e : Event) (s : S) w :
  (forall a sg, e <> Perceive a sg) ->
  delivered (s, record_event e w) = delivered (s, w).
Proof.
  intros He. unfold delivered, record_event. simpl. rewrite deliveries_app64.
  destruct e; simpl; try apply app_nil_r.
  exfalso. eapply He. reflexivity.
Qed.

Lemma keeps_self64 {S X} (f : S * World -> X) : keeps f (@self S).
Proof. intros [s w] r s' H. unfold self in H. now inversion H. Qed.

Lemma keeps_on_self64 {S X} (f : S * World -> X) (g : S -> S) :
  (forall s w, f (g s, w) = f (s, w)) -> keeps f (on_self g).
Proof. intros Hg [s w] r s' H. unfold on_self in H. inversion H. apply Hg. Qed.

Lemma keeps_in_world64 {S X A} (f : S * World -> X) (m : M World A) :
  (forall s w r w', m w = (r, w') -> f (s, w') = f (s, w)) -> keeps f (in_world m).
Proof.
  intros Hm [s w] r s' H. unfold in_world in H.
  destruct (m w) as [r0 w'] eqn:E. inversion H. subst. eapply Hm. exact E.
Qed.

(** *** The synapse always answers *)

Section TransformFacts.
Variable Math_log : double -> double.
Variable Math_exp : double -> double.
Variable Date_now : nat -> double.
Variable llm_chat : list Event -> list ChatMessage -> option string.

(** [transform] always returns a signal and hands nothing to any agent
    itself: from its memory the remembered text, from the backend the
    reply, and the signal as it came when the backend fails. *)
Lemma transform_answers syn signal w :
  exists result syn' w',
    transform Math_log Math_exp Date_now llm_chat signal (syn, w)
    = (Returned result, (syn', w'))
    /\ deliveries (trace w') = deliveries (trace w)
    /\ result
       = match truthy (JsMap.get (thought signal) (synapticMemory syn)) with
         | Some cached => retarget signal cached (from syn)
         | None =>
             match llm_chat (trace w) (transform_messages syn signal) with
             | Some reply => retarget signal reply (from syn)
             | None => signal
             end
         end.
Proof.
  unfold transform, bind, in_world, now, self, on_self, refresh_confidence,
    ret, try_catch, chat. simpl.
  destruct (truthy (JsMap.get (thought signal) (synapticMemory syn))) as [cached|].
  - do 3 eexists. split; [reflexivity|]. split; reflexivity.
  - simpl. destruct (llm_chat (trace w) (transform_messages syn signal)) as [reply|].
    + do 3 eexists. split; [reflexivity|]. simpl.
      rewrite deliveries_app64. simpl. rewrite app_nil_r. split; reflexivity.
    + do 3 eexists. split; [reflexivity|]. simpl.
      rewrite deliveries_app64. simpl. rewrite app_nil_r. split; reflexivity.
Qed.

End TransformFacts.

(** *** The router *)

Section CoordinatorFacts.
Variable Math_log : double -> double.
Variable Math_exp : double -> double.
Variable Date_now : nat -> double.
Variable llm_embed : list Event -> string -> option (list double).
Variable llm_chat : list Event -> list ChatMessage -> option string.
Variable spawner : option OrganicSpawner.
Variable parse_bridge_spec : string -> Outcome (option BridgeAgentSpec).

Lemma view_lift {A} (o : Outcome A) : keeps routing_view (@lift_outcome A o).
Proof. intros s r s' H. unfold lift_outcome in H. now inversion H. Qed.

Lemma view_world_trace : keeps routing_view world_trace.
Proof. intros [b w] r s' H. unfold world_trace in H. now inversion H. Qed.

Lemma view_collaborate {A} (answer : list BackendCall * Outcome A) :
  keeps routing_view (collaborate answer).
Proof.
  intros [b w] r s' H. unfold collaborate in H. inversion H.
  unfold routing_view, delivered, record_calls. simpl.
  now rewrite deliveries_app64, deliveries_calls, app_nil_r.
Qed.

Lemma view_embed text :
  keeps routing_view (in_world (S := Biosphere) (embed llm_embed text)).
Proof.
  apply keeps_in_world64. intros b w r w' H. unfold embed in H.
  unfold routing_view.
  destruct (llm_embed (trace w) text); inversion H;
    now rewrite delivered_event by discriminate.
Qed.

Lemma view_chat messages :
  keeps routing_view (in_world (S := Biosphere) (chat llm_chat messages)).
Proof.
  apply keeps_in_world64. intros b w r w' H. unfold chat in H.
  unfold routing_view.
  destruct (llm_chat (trace w) messages); inversion H;
    now rewrite delivered_event by discriminate.
Qed.

Lemma view_findSimilar name : keeps routing_view (findSimilar llm_embed name).
Proof.
  unfold findSimilar.
  apply keeps_bind; [apply view_embed|]. intros targetVector.
  apply keeps_bind; [apply keeps_self64|]. intros b0.
  apply keeps_bind; [|intros best; apply keeps_ret].
  generalize (@None OrganicAgent, 0).
  induction (listAgents b0) as [|agent rest IH]; intros best.
  - apply keeps_ret.
  - apply keeps_bind; [apply view_embed|]. intros agentVector.
    match goal with
    | |- context [if ?c then _ else _] => destruct c
    end; apply IH.
Qed.

Lemma delivered_birth agent : keeps delivered (birth llm_embed agent).
Proof.
  unfold birth.
  apply keeps_bind; [apply keeps_on_self64; reflexivity|]. intros _.
  apply keeps_bind.
  { apply keeps_in_world64. intros b w r w' H. unfold embed in H.
    destruct (llm_embed (trace w) _); inversion H;
      apply delivered_event; discriminate. }
  intros v.
  apply keeps_bind; [apply keeps_on_self64; reflexivity|]. intros _.
  apply keeps_bind; [apply keeps_self64|]. intros b0.
  apply keeps_in_world64. intros b w r w' H. unfold notify in H.
  inversion H. apply delivered_event. discriminate.
Qed.

Lemma to_newcomers_of_keeps {A} (m : M (Biosphere * World) A) :
  keeps routing_view m -> only_to_newcomers m.
Proof.
  intros Hk s r s' H. exists []. apply Hk in H. unfold routing_view in H.
  injection H as Hd Ha. rewrite app_nil_r. split; [exact Hd|]. intros a sg [].
Qed.

Lemma to_newcomers_bind {A B} (m : M (Biosphere * World) A)
      (k : A -> M (Biosphere * World) B) :
  keeps routing_view m -> (forall a, only_to_newcomers (k a)) ->
  only_to_newcomers (bind m k).
Proof.
  intros Hm Hk s r s' H. unfold bind in H.
  destruct (m s) as [[a|e] s1] eqn:E.
  - apply Hm in E. unfold routing_view in E. injection E as Hd Ha.
    destruct (Hk a _ _ _ H) as (extra & Hex & Hnew).
    exists extra. split.
    + rewrite <- Hd. exact Hex.
    + intros agent sg Hin. rewrite <- Ha. eauto.
  - inversion H. subst. apply (to_newcomers_of_keeps m Hm _ _ _ E).
Qed.

Lemma to_newcomers_try_catch {A} (body : M (Biosphere * World) A) (a0 : A) :
  only_to_newcomers body ->
  only_to_newcomers (try_catch body (fun _ => ret a0)).
Proof.
  intros Hb s r s' H. unfold try_catch in H.
  destruct (body s) as [[a|e] s1] eqn:E.
  - inversion H. subst. exact (Hb _ _ _ E).
  - unfold ret in H. inversion H. subst. exact (Hb _ _ _ E).
Qed.

Lemma to_newcomers_bridge_birth bridge signal :
  only_to_newcomers
    (bind self (fun b0 : Biosphere =>
       if JsMap.has (agent_id bridge) (agents b0) then ret tt
       else bind (birth llm_embed bridge)
                 (fun _ => in_world (perceive bridge signal)))).
Proof.
  intros [b w] r [b' w'] H. unfold bind at 1 in H. unfold self in H.
  destruct (JsMap.has (agent_id bridge) (agents b)) eqn:Hhas.
  - unfold ret in H. inversion H. exists []. rewrite app_nil_r.
    split; [reflexivity|]. intros a sg [].
  - unfold bind in H.
    destruct (birth llm_embed bridge (b, w)) as [[u|e] [b1 w1]] eqn:Ebirth.
    + pose proof (delivered_birth bridge _ _ _ Ebirth) as Hd.
      unfold in_world, perceive in H. inversion H. subst.
      exists [(bridge, signal)]. unfold delivered, record_event in *. simpl in *.
      rewrite deliveries_app64, Hd. split; [reflexivity|].
      intros a sg [Hin|[]]. inversion Hin. now subst.
    + pose proof (delivered_birth bridge _ _ _ Ebirth) as Hd.
      inversion H. subst. exists []. rewrite app_nil_r.
      split; [exact Hd|]. intros a sg [].
Qed.

(** Whatever the backend and the spawner answer, a bridge spawn hands
    signals to nobody who was registered before it. *)
Lemma spawnBridgeAgent_to_newcomers signal source target similarity :
  only_to_newcomers
    (spawnBridgeAgent llm_embed llm_chat spawner parse_bridge_spec
                      signal source target similarity).
Proof.
  unfold spawnBridgeAgent.
  destruct spawner as [sp|]; [|apply to_newcomers_of_keeps, keeps_ret].
  apply to_newcomers_bind; [apply view_chat|]. intros bridgeSpec.
  apply to_newcomers_try_catch.
  apply to_newcomers_bind; [apply view_lift|]. intros [blueprint|];
    [|apply to_newcomers_of_keeps, keeps_ret].
  destruct (String.eqb (spec_id blueprint) EmptyString);
    [apply to_newcomers_of_keeps, keeps_ret|].
  apply to_newcomers_bind; [apply view_findSimilar|]. intros [existing|];
    [apply to_newcomers_of_keeps, keeps_ret|].
  apply to_newcomers_bind.
  - destruct (spawner_spawnBridgeAgent sp) as [spawn|]; [|apply keeps_ret].
    apply keeps_bind; [apply keeps_self64|]. intros b0.
    apply keeps_bind; [apply view_world_trace|]. intros tr.
    apply view_collaborate.
  - intros [bridge|]; [|apply to_newcomers_of_keeps, keeps_ret].
    apply to_newcomers_bridge_birth.
Qed.

(** The synaptic tier: the synapse of the ordered pair is fetched or
    created with the similarity of this call, it transforms the signal,
    and the receiver perceives what the synapse returned. *)
Lemma synaptic_tier signal source receiver similarity b w :
  let synapseId := (agent_id source ++ "→" ++ agent_id receiver)%string in
  let synapse :=
    match JsMap.get synapseId (synapses b) with
    | Some existing => existing
    | None =>
        createSignalSynapse
          (mkConfig (agent_id source) (agent_id receiver) similarity
                    (patterns (receptorField source))
                    (patterns (receptorField receiver)))
    end in
  exists transformed synapse' b' w0,
    transform Math_log Math_exp Date_now llm_chat signal (synapse, w)
    = (Returned transformed, (synapse', w0))
    /\ bind (getOrCreateSynapse source receiver similarity)
            (fun key =>
               bind (transform_through Math_log Math_exp Date_now llm_chat key signal)
                    (fun transformed => in_world (perceive receiver transformed)))
            (b, w)
       = (Returned tt, (b', record_event (Perceive receiver transformed) w0))
    /\ deliveries (trace w0) = deliveries (trace w)
    /\ JsMap.get synapseId (synapses b') = Some synapse'
    /\ agents b' = agents b
    /\ receptorFieldCache b' = receptorFieldCache b.
Proof.
  intros synapseId synapse.
  destruct (transform_answers Math_log Math_exp Date_now llm_chat synapse signal w)
    as (transformed & synapse' & w0 & Hrun & Hdel & _).
  exists transformed, synapse'.
  unfold getOrCreateSynapse, transform_through, bind, self, on_self, ret, JsMap.has.
  fold synapseId.
  destruct (JsMap.get synapseId (synapses b)) as [existing|] eqn:Hget.
  - rewrite Hget. subst synapse. rewrite Hrun.
    do 2 eexists. split; [reflexivity|]. split; [reflexivity|].
    split; [exact Hdel|]. simpl. rewrite JsMapFacts.get_set_same. auto.
  - simpl. rewrite JsMapFacts.get_set_same. subst synapse. rewrite Hrun.
    do 2 eexists. split; [reflexivity|]. split; [reflexivity|].
    split; [exact Hdel|]. simpl. rewrite JsMapFacts.get_set_same. auto.
Qed.

(** C1.  For a recipient with a cached receptor embedding, routing
    computes the cosine similarity of the pheromone and that embedding
    in double precision and picks the tier by strict comparisons with
    the doubles 0.8, 0.5 and 0.3.  Above 0.8 the signal is perceived as
    it is.  Above 0.5 but not above 0.8 it goes through the synapse of
    the pair and the recipient perceives what the synapse returned.
    Above 0.3 but not above 0.5 the bridge spawn runs and hands nothing
    to any registered agent, the recipient included.  Not above 0.3,
    which includes a similarity that is not a number, nothing happens.
    A computed similarity of exactly 0.8, 0.5 or 0.3 falls in the
    weaker tier. *)
Theorem three_tier_coupling signal source receiver b w receiverVector :
  JsMap.get (agent_id receiver) (receptorFieldCache b) = Some receiverVector ->
  let similarity := cosineSimilarity (pheromone signal) receiverVector in
  let run :=
    propagateToReceiver Math_log Math_exp Date_now llm_embed llm_chat spawner
                        parse_bridge_spec signal source receiver (b, w) in
  let direct :=
    run = (Returned tt, (b, record_event (Perceive receiver signal) w)) in
  let synaptic :=
    exists synapse transformed synapse' b' w0,
      synapse
      = match JsMap.get (agent_id source ++ "→" ++ agent_id receiver)%string
                        (synapses b) with
        | Some existing => existing
        | None =>
            createSignalSynapse
              (mkConfig (agent_id source) (agent_id receiver) similarity
                        (patterns (receptorField source))
                        (patterns (receptorField receiver)))
        end
      /\ transform Math_log Math_exp Date_now llm_chat signal (synapse, w)
         = (Returned transformed, (synapse', w0))
      /\ run = (Returned tt, (b', record_event (Perceive receiver transformed) w0))
      /\ deliveries (trace (snd (snd run)))
         = deliveries (trace w) ++ [(receiver, transformed)] in
  let bridging :=
    run = spawnBridgeAgent llm_embed llm_chat spawner parse_bridge_spec
                           signal source receiver similarity (b, w)
    /\ exists extra,
        deliveries (trace (snd (snd run))) = deliveries (trace w) ++ extra
        /\ forall agent delivered_signal,
            In (agent, delivered_signal) extra ->
            JsMap.has (agent_id agent) (agents b) = false in
  let dropped := run = (Returned tt, (b, w)) in
  (gtb similarity 0.8 = true -> direct)
  /\ (gtb similarity 0.5 = true -> gtb similarity 0.8 = false -> synaptic)
  /\ (gtb similarity 0.3 = true -> gtb similarity 0.5 = false -> bridging)
  /\ (gtb similarity 0.3 = false -> dropped)
  /\ (similarity = 0.8 -> synaptic)
  /\ (similarity = 0.5 -> bridging)
  /\ (similarity = 0.3 -> dropped).
Proof.
  intros Hcache similarity run direct synaptic bridging dropped.
  assert (Hrun : run
                 = (if gtb similarity 0.8 then
                      in_world (perceive receiver signal)
                    else if gtb similarity 0.5 then
                      bind (getOrCreateSynapse source receiver similarity)
                           (fun key =>
                              bind (transform_through Math_log Math_exp Date_now llm_chat
                                                      key signal)
                                   (fun transformed =>
                                      in_world (perceive receiver transformed)))
                    else if gtb similarity 0.3 then
                      spawnBridgeAgent llm_embed llm_chat spawner parse_bridge_spec
                                       signal source receiver similarity
                    else ret tt) (b, w)).
  { unfold run, propagateToReceiver. unfold bind at 1. unfold self at 1.
    rewrite Hcache. reflexivity. }
  assert (Hdirect : gtb similarity 0.8 = true -> direct).
  { intros H8. unfold direct. rewrite Hrun, H8. reflexivity. }
  assert (Hsynaptic : gtb similarity 0.5 = true -> gtb similarity 0.8 = false -> synaptic).
  { intros H5 H8. unfold synaptic. rewrite Hrun, H8, H5.
    destruct (synaptic_tier signal source receiver similarity b w)
      as (transformed & synapse' & b' & w0 & Htransform & Hbind & Hdel & _).
    eexists. exists transformed, synapse', b', w0.
    split; [reflexivity|]. split; [exact Htransform|]. split; [exact Hbind|].
    rewrite Hbind. simpl. rewrite deliveries_app64. simpl. now rewrite Hdel. }
  assert (Hbridging : gtb similarity 0.3 = true -> gtb similarity 0.5 = false -> bridging).
  { intros H3 H5. unfold bridging.
    rewrite Hrun, (below_05_below_08 _ H5), H5, H3. split; [reflexivity|].
    destruct (spawnBridgeAgent llm_embed llm_chat spawner parse_bridge_spec
                signal source receiver similarity (b, w)) as [r [b' w']] eqn:Espawn.
    destruct (spawnBridgeAgent_to_newcomers signal source receiver similarity _ _ _ Espawn)
      as (extra & Hextra & Hnew).
    exists extra. split; [exact Hextra | exact Hnew]. }
  assert (Hdropped : gtb similarity 0.3 = false -> dropped).
  { intros H3. unfold dropped.
    pose proof (below_03_below_05 _ H3) as H5.
    now rewrite Hrun, (below_05_below_08 _ H5), H5, H3. }
  split; [exact Hdirect|]. split; [exact Hsynaptic|]. split; [exact Hbridging|].
  split; [exact Hdropped|]. split; [|split].
  - intros E. apply Hsynaptic; rewrite E; reflexivity.
  - intros E. apply Hbridging; rewrite E; reflexivity.
  - intros E. apply Hdropped; rewrite E; reflexivity.
Qed.

End CoordinatorFacts.

(** Runs with pheromones whose computed similarity is exactly 0.8, 0.5
    and 0.3, and one whose similarity rounds to just above 0.8 and is
    delivered directly. *)
Lemma three_tier_coupling_witness :
  let run pheromone receiver :=
    propagateToReceiver flat_log flat_exp example_clock (embed_fixed [1; 0])
                        (chat_fixed "Fix first, audit second") None no_blueprint
                        (signal_with pheromone) ceo receiver
                        (tiers_router, initial_world) in
  (exists transformed,
      deliveries (trace (snd (snd (run [4; 3] engineer)))) = [(engineer, transformed)]
      /\ thought transformed = "Fix first, audit second"
      /\ emittedBy transformed = "ceo")
  /\ (run [1; 1; 1; 1] analyst
      = spawnBridgeAgent (embed_fixed [1; 0]) (chat_fixed "Fix first, audit second")
                         None no_blueprint (signal_with [1; 1; 1; 1]) ceo analyst 0.5
                         (tiers_router, initial_world)
      /\ deliveries (trace (snd (snd (run [1; 1; 1; 1] analyst)))) = [])
  /\ run [3; 4; 5; 5; 5] lawyer = (Returned tt, (tiers_router, initial_world))
  /\ propagateToReceiver flat_log flat_exp example_clock (embed_fixed [1; 0])
                         (chat_fixed "Fix first, audit second") None no_blueprint
                         (signal_with [8; -1]) ceo engineer
                         (rounding_router, initial_world)
     = (Returned tt,
        (rounding_router,
         record_event (Perceive engineer (signal_with [8; -1])) initial_world)).
Proof.
  intros run.
  pose proof (three_tier_coupling flat_log flat_exp example_clock (embed_fixed [1; 0])
                (chat_fixed "Fix first, audit second") None no_blueprint
                (signal_with [8; -1]) ceo engineer rounding_router initial_world
                [7; 4] eq_refl) as Tr.
  pose proof (three_tier_coupling flat_log flat_exp example_clock (embed_fixed [1; 0])
                (chat_fixed "Fix first, audit second") None no_blueprint
                (signal_with [4; 3]) ceo engineer tiers_router initial_world
                [1; 0] eq_refl) as T8.
  pose proof (three_tier_coupling flat_log flat_exp example_clock (embed_fixed [1; 0])
                (chat_fixed "Fix first, audit second") None no_blueprint
                (signal_with [1; 1; 1; 1]) ceo analyst tiers_router initial_world
                [1; 0; 0; 0] eq_refl) as T5.
  pose proof (three_tier_coupling flat_log flat_exp example_clock (embed_fixed [1; 0])
                (chat_fixed "Fix first, audit second") None no_blueprint
                (signal_with [3; 4; 5; 5; 5]) ceo lawyer tiers_router initial_world
                [1; 0; 0; 0; 0] eq_refl) as T3.
  cbv zeta in T8, T5, T3, Tr.
  destruct Tr as (Hdirect & _).
  destruct T8 as (_ & _ & _ & _ & Hsynaptic & _ & _).
  destruct T5 as (_ & _ & _ & _ & _ & Hbridging & _).
  destruct T3 as (_ & _ & _ & _ & _ & _ & Hdropped).
  split; [|split; [|split]].
  - destruct (Hsynaptic similarity_is_08)
      as (synapse & transformed & synapse' & b' & w0 & Hsyn & Htransform & _ & Hdel).
    exists transformed. split; [exact Hdel|].
    subst synapse. vm_compute in Htransform.
    injection Htransform as <- _ _. split; reflexivity.
  - destruct (Hbridging similarity_is_05) as (Hrun & _).
    split; [exact Hrun|]. unfold run. rewrite Hrun. reflexivity.
  - exact (Hdropped similarity_is_03).
  - exact (Hdirect (proj2 similarity_rounds_above_08)).
Defined.

(** *** The similarity of two vectors in double precision *)

Lemma SFmul_comm prec emax x y :
  SpecFloat.SFmul prec emax x y = SpecFloat.SFmul prec emax y x.
Proof.
  destruct x as [sx|sx| |sx mx ex], y as [sy|sy| |sy my ey]; simpl; try reflexivity;
    try (now rewrite xorb_comm).
  rewrite xorb_comm, Pos.mul_comm, Z.add_comm. reflexivity.
Qed.

(** The product of two doubles does not depend on their order. *)
Lemma double_mul_comm (x y : double) : x * y = y * x.
Proof.
  apply FloatAxioms.Prim2SF_inj. rewrite !FloatAxioms.mul_spec. apply SFmul_comm.
Qed.

Lemma accumulate_from_swap (a : list double) :
  forall (b : list double) (d ma mb : double),
    fold_left
      (fun '(dotProduct, magnitudeA, magnitudeB) '(x, y) =>
         (dotProduct + x * y, magnitudeA + x * x, magnitudeB + y * y))
      (combine b a) (d, mb, ma)
    = let '(d', ma', mb') :=
        fold_left
          (fun '(dotProduct, magnitudeA, magnitudeB) '(x, y) =>
             (dotProduct + x * y, magnitudeA + x * x, magnitudeB + y * y))
          (combine a b) (d, ma, mb) in
      (d', mb', ma').
Proof.
  induction a as [|x a IH]; intros [|y b] d ma mb; try reflexivity.
  cbn [combine fold_left]. rewrite (double_mul_comm y x). apply IH.
Qed.

(** X1.  The similarity of two vectors, as the program computes it in
    double precision, does not depend on their order. *)
Theorem cosineSimilarity_symmetric (a b : list double) :
  cosineSimilarity a b = cosineSimilarity b a.
Proof.
  unfold cosineSimilarity.
  rewrite (Nat.eqb_sym (length b) (length a)).
  rewrite (orb_comm (length b =? 0)%nat (length a =? 0)%nat).
  destruct ((length a =? 0)%nat || (length b =? 0)%nat
            || negb (length a =? length b)%nat)%bool; [reflexivity|].
  pose proof (accumulate_from_swap a b 0 0 0) as Hswap.
  unfold accumulate, double in *. rewrite Hswap.
  destruct (fold_left _ (combine a b) (0, 0, 0)) as [[d ma] mb].
  rewrite (double_mul_comm (sqrt mb) (sqrt ma)). reflexivity.
Qed.

Lemma accumulate_zeros (n : nat) :
  accumulate (repeat 0 n) (repeat 0 n) = (0, 0, 0).
Proof.
  unfold accumulate. induction n as [|n IH]; [reflexivity|].
  cbn [repeat combine fold_left].
  change (0 + 0 * 0) with 0. exact IH.
Qed.

(** X2.  In double precision the similarity of a vector with itself is
    not always 1.  It is 1 for [3, 4]; it is the next double above 1
    for [8, 1] and the next double below 1 for [0.1, 0.1, 0.1]; it is 0
    for [1e-200, 0], whose squares underflow to zero; it is NaN for
    [1e200, 1e200], whose squares overflow; and it is 0 for a vector of
    zeros of any length. *)
Theorem self_similarity_in_doubles :
  cosineSimilarity [3; 4] [3; 4] = 1
  /\ cosineSimilarity [8; 1] [8; 1] = 0x1.0000000000001p+0
  /\ gtb (cosineSimilarity [8; 1] [8; 1]) 1 = true
  /\ cosineSimilarity [0.1; 0.1; 0.1] [0.1; 0.1; 0.1] = 0x1.fffffffffffffp-1
  /\ gtb 1 (cosineSimilarity [0.1; 0.1; 0.1] [0.1; 0.1; 0.1]) = true
  /\ cosineSimilarity [1e-200; 0] [1e-200; 0] = 0
  /\ is_nan (cosineSimilarity [1e200; 1e200] [1e200; 1e200]) = true
  /\ forall n, cosineSimilarity (repeat 0 n) (repeat 0 n) = 0.
Proof.
  repeat (split; [vm_compute; reflexivity|]).
  intros n. unfold cosineSimilarity. rewrite accumulate_zeros.
  destruct (_ || _ || _)%bool; reflexivity.
Qed.

(** *** Olfactory fatigue of the meta-observer *)

Lemma similar_is_nonempty (v : list double) :
  gtb (cosineSimilarity v v) 0.90 = true -> (0 <? JsArray.len v)%Z = true.
Proof.
  intros Hsim. apply Z.ltb_lt. destruct v as [|x v]; [vm_compute in Hsim; discriminate|].
  unfold JsArray.len. cbn [length]. lia.
Qed.

(** After a signal that is close to itself has been perceived, accepted
    or not, the memory of the observer is saturated with its pheromone. *)
Lemma perceive_saturates signal m :
  gtb (cosineSimilarity (pheromone signal) (pheromone signal)) 0.90 = true ->
  (0 <? JsArray.len (Observer.lastProcessedVector (Observer.perceive signal m)))%Z = true
  /\ gtb (cosineSimilarity (pheromone signal)
                           (Observer.lastProcessedVector (Observer.perceive signal m)))
         0.90 = true.
Proof.
  intros Hself.
  assert (Haccepted :
            (0 <? JsArray.len (pheromone signal))%Z = true
            /\ gtb (cosineSimilarity (pheromone signal) (pheromone signal)) 0.90 = true).
  { split; [now apply similar_is_nonempty | exact Hself]. }
  unfold Observer.perceive. cbv zeta.
  destruct (0 <? JsArray.len (Observer.lastProcessedVector m))%Z eqn:Hlen;
    [|exact Haccepted].
  destruct (gtb (cosineSimilarity (pheromone signal) (Observer.lastProcessedVector m)) 0.90)
    eqn:Hsim; [|exact Haccepted].
  split; [exact Hlen | exact Hsim].
Qed.

Lemma saturated_drops signal m :
  (0 <? JsArray.len (Observer.lastProcessedVector m))%Z = true ->
  gtb (cosineSimilarity (pheromone signal) (Observer.lastProcessedVector m)) 0.90 = true ->
  Observer.perceive signal m = m.
Proof. intros Hlen Hsim. unfold Observer.perceive. cbv zeta. now rewrite Hlen, Hsim. Qed.

Section ObserverFacts.
Variable llm_embed : list Event -> string -> option (list double).
Variable llm_chat : list Event -> list ChatMessage -> option string.
Variable trim : string -> string.

Lemma emit_keeps_vector m w :
  Observer.lastProcessedVector (fst (snd (Observer.emit llm_embed llm_chat trim (m, w))))
  = Observer.lastProcessedVector m.
Proof.
  unfold Observer.emit.
  destruct (JsArray.len (Observer.distressSignals m) =? 0)%Z; [reflexivity|].
  destruct (nth_error _ _) as [latestDistress|]; [|reflexivity].
  destruct (chat llm_chat _ w) as [[analysis|e] w1]; [|reflexivity].
  destruct (embed llm_embed _ w1) as [[responseVector|e] w2]; [|reflexivity].
  destruct (embed llm_embed _ w2) as [[noDistressVector|e] w3]; [|reflexivity].
  cbv zeta. destruct (gtb _ 0.8); reflexivity.
Qed.

(** X29.  Olfactory fatigue, in double precision: once the observer has
    perceived a signal whose pheromone the program finds at similarity
    above 0.90 with itself, a signal with the same pheromone is dropped,
    right away and also after an emission has emptied the buffer of
    distress signals. *)
Theorem observer_drops_repeats signal repeat m w :
  pheromone repeat = pheromone signal ->
  gtb (cosineSimilarity (pheromone signal) (pheromone signal)) 0.90 = true ->
  Observer.perceive repeat (Observer.perceive signal m) = Observer.perceive signal m
  /\ Observer.perceive repeat
       (fst (snd (Observer.emit llm_embed llm_chat trim (Observer.perceive signal m, w))))
     = fst (snd (Observer.emit llm_embed llm_chat trim (Observer.perceive signal m, w))).
Proof.
  intros Hsame Hself.
  destruct (perceive_saturates signal m Hself) as [Hlen Hsim].
  split.
  - apply saturated_drops; rewrite ?Hsame; assumption.
  - apply saturated_drops; rewrite emit_keeps_vector, ?Hsame; assumption.
Qed.

End ObserverFacts.

Lemma observer_drops_repeats_witness :
  Observer.perceive (signal_with [3; 4])
                    (Observer.perceive (signal_with [3; 4]) Observer.new_memory)
  = Observer.perceive (signal_with [3; 4]) Observer.new_memory
  /\ Observer.perceive (signal_with [3; 4])
       (fst (snd (Observer.emit Observer.embed_down Observer.chat_down (fun text => text)
                    (Observer.perceive (signal_with [3; 4]) Observer.new_memory,
                     initial_world))))
     = fst (snd (Observer.emit Observer.embed_down Observer.chat_down (fun text => text)
                   (Observer.perceive (signal_with [3; 4]) Observer.new_memory,
                    initial_world))).
Proof.
  apply (observer_drops_repeats Observer.embed_down Observer.chat_down (fun text => text)
           (signal_with [3; 4]) (signal_with [3; 4]) Observer.new_memory initial_world).
  - reflexivity.
  - vm_compute. reflexivity.
Defined.

(** A pheromone whose squares underflow is at similarity 0 with itself,
    and the observer takes its repeat for a new signal. *)
Example tiny_pheromone_perceived_twice :
  Observer.distressSignals
    (Observer.perceive (signal_with [1e-200; 0])
                       (Observer.perceive (signal_with [1e-200; 0]) Observer.new_memory))
  = [signal_with [1e-200; 0]; signal_with [1e-200; 0]].
Proof. vm_compute. reflexivity. Qed.

End DoublesFacts.
